(** * The path-based trie database (triedb/pathdb) and the trie prefetcher

    A shallow embedding of [triedb/pathdb/buffer.go], [triedb/pathdb/disklayer.go]
    and of the trie prefetcher of package [state], followed by the properties
    proved of them.

    Conventions.
    - A Go [uint64] or [uint32] is a [Z]; every arithmetic operation of the
      source is written with its wrap-around ([u64], [u32]).
    - A [[]byte] is a [list Byte.byte]; the nil slice and the empty slice are
      both the empty list (the source only ever looks at their length).
    - A [common.Hash] (32 bytes) and a [common.Address] (20 bytes) are read as
      big-endian numbers, below [2 ^ 256] and [2 ^ 160]; [common.Hash{}] is [0].
    - A Go function that returns [(v, error)] returns a pair whose second
      component is [Some e] or [None]; a pointer that may be [nil] is an
      [option].
    - A method that changes its receiver, or what the receiver points to,
      returns the receiver after the call next to its results.  A disk layer
      is a value here: the database, the clean cache and the buffer that
      successive disk layers share through pointers are copied into each of
      them, which no read can tell apart since a layer is marked stale before
      anything it shares is changed.
    - Locks are not represented: a method body that runs under the layer's
      lock is one step. *)

From Stdlib Require Import ZArith NArith List String Lia.
From stdpp Require Import base decidable countable gmap list strings fin_maps.

Local Open Scope Z_scope.

(** ** Machine integers *)

Definition u64 (z : Z) : Z := z mod 2 ^ 64.
Definition u32 (z : Z) : Z := z mod 2 ^ 32.

(** ** Bytes, hashes and addresses *)

#[global] Instance byte_eq_dec : EqDecision Byte.byte := Byte.byte_eq_dec.
#[global] Program Instance byte_countable : Countable Byte.byte :=
  inj_countable Byte.to_N Byte.of_N _.
Next Obligation. intros x. apply Byte.of_to_N. Qed.

Abbreviation bytes := (list Byte.byte).

Module common.
Definition Hash : Type := N.
Definition Address : Type := N.
Definition HashLength : nat := 32.
Definition AddressLength : nat := 20.

(** [n] bytes of [v], most significant first. *)
Fixpoint be_bytes (n : nat) (v : N) : bytes :=
  match n with
  | O => []
  | S n' =>
      be_bytes n' (v / 256)%N ++
      [default Byte.x00 (Byte.of_N (v mod 256)%N)]
  end.

Definition from_be_bytes (b : bytes) : N :=
  fold_left (fun acc x => (acc * 256 + Byte.to_N x)%N) b 0%N.

(** [h[:]] and [h.Bytes()] *)
Definition Hash_Bytes (h : Hash) : bytes := be_bytes HashLength h.
(** [a[:]] *)
Definition Address_Bytes (a : Address) : bytes := be_bytes AddressLength a.
(** [common.BytesToAddress] *)
Definition BytesToAddress (b : bytes) : Address :=
  (from_be_bytes b mod 256 ^ N.of_nat AddressLength)%N.
End common.

(** ** Errors

    The sentinel errors of the package, the two errors that the two files
    build in place, and wrapping with [fmt.Errorf("%w: ...")]. *)

Inductive error : Type :=
| errSnapshotStale
| errUnexpectedHistory
| errStateUnrecoverable
| errNotSupported                       (* errors.New("not supported") *)
| errBufferAlignment (layers head id : Z)
    (* fmt.Errorf("buffer layers (%d) cannot be applied on top of persisted
       state id (%d) to reach requested state id (%d)", layers, head, id) *)
| errWrapped (inner : error) (msg : string)     (* fmt.Errorf("%w: msg", inner) *)
| errOther (msg : string).              (* an error of a collaborator *)

(** [errors.Is] *)
Fixpoint errors_Is (e target : error) : Prop :=
  e = target \/
  match e with
  | errWrapped inner _ => errors_Is inner target
  | _ => False
  end.

(** A call that may not return: [panic] and [log.Crit]. *)
Inductive exec (A : Type) : Type :=
| Returns (a : A)
| Panics (msg : string)
| Crit (msg : string).
Arguments Returns {A} a.
Arguments Panics {A} msg.
Arguments Crit {A} msg.

(** ** trienode.Node *)

Module trienode.
Record Node : Type := mkNode {
  Hash : common.Hash;   (* node hash, empty for a deleted node *)
  Blob : bytes          (* encoded node, nil for a deleted node *)
}.

(** Modelled from the spec: [Node.IsDeleted] is not among the sources; the
    data model says that an empty blob denotes deletion. *)
Definition IsDeleted (n : Node) : bool := bool_decide (length (Blob n) = 0%nat).
End trienode.

(** ** The key-value store

    Modelled from the spec: package [rawdb] is not among the sources.  The
    persisted layout of the spec has per-node keys ["A" ‖ path] for the account
    trie and ["S" ‖ owner ‖ path] for a storage trie, and the scalar keys
    [persistentStateID] and [root → stateID]; the store is one table per kind
    of key. *)

Record KVStore : Type := mkKVStore {
  accountTrieNodes : gmap bytes bytes;
  storageTrieNodes : gmap (common.Hash * bytes) bytes;
  persistentStateID : option Z;
  stateIDs : gmap common.Hash Z
}.

Module rawdb.
Definition ReadAccountTrieNode (db : KVStore) (path : bytes) : bytes :=
  default [] (accountTrieNodes db !! path).

Definition ReadStorageTrieNode (db : KVStore) (owner : common.Hash) (path : bytes) : bytes :=
  default [] (storageTrieNodes db !! (owner, path)).

Definition ReadPersistentStateID (db : KVStore) : Z :=
  default 0 (persistentStateID db).

Definition ReadStateID (db : KVStore) (root : common.Hash) : option Z :=
  stateIDs db !! root.

(** The writes the two files issue, either directly on the store or into a
    batch. *)
Inductive op : Type :=
| WriteAccountTrieNode (path : bytes) (blob : bytes)
| DeleteAccountTrieNode (path : bytes)
| WriteStorageTrieNode (owner : common.Hash) (path : bytes) (blob : bytes)
| DeleteStorageTrieNode (owner : common.Hash) (path : bytes)
| WritePersistentStateID (id : Z)
| WriteStateID (root : common.Hash) (id : Z).

Definition put (o : op) (db : KVStore) : KVStore :=
  match o with
  | WriteAccountTrieNode path blob =>
      mkKVStore (<[path := blob]> (accountTrieNodes db)) (storageTrieNodes db)
                (persistentStateID db) (stateIDs db)
  | DeleteAccountTrieNode path =>
      mkKVStore (delete path (accountTrieNodes db)) (storageTrieNodes db)
                (persistentStateID db) (stateIDs db)
  | WriteStorageTrieNode owner path blob =>
      mkKVStore (accountTrieNodes db) (<[(owner, path) := blob]> (storageTrieNodes db))
                (persistentStateID db) (stateIDs db)
  | DeleteStorageTrieNode owner path =>
      mkKVStore (accountTrieNodes db) (delete (owner, path) (storageTrieNodes db))
                (persistentStateID db) (stateIDs db)
  | WritePersistentStateID id =>
      mkKVStore (accountTrieNodes db) (storageTrieNodes db) (Some id) (stateIDs db)
  | WriteStateID root id =>
      mkKVStore (accountTrieNodes db) (storageTrieNodes db)
                (persistentStateID db) (<[root := id]> (stateIDs db))
  end.
End rawdb.

(** A write batch collects its operations in the order they were issued. *)
Definition Batch : Type := list rawdb.op.

Definition Batch_apply (batch : Batch) (db : KVStore) : KVStore :=
  fold_left (fun d o => rawdb.put o d) batch db.

(** ** The clean cache ([fastcache.Cache])

    [Get] returns the empty slice for a key that is not cached. *)

Module fastcache.
Definition Cache : Type := gmap bytes bytes.
Definition New : Cache := ∅.
Definition Get (c : Cache) (key : bytes) : bytes := default [] (c !! key).
Definition Set_ (key blob : bytes) (c : Cache) : Cache := <[key := blob]> c.
Definition Del (key : bytes) (c : Cache) : Cache := delete key c.
End fastcache.

(** ** Node sets and state sets

    Modelled from the spec: the files that declare [nodeSet] and [stateSet]
    are not among the sources.  A node set maps [(owner, path)] to a trie node
    and a state set maps an account hash to an account blob and
    [(account hash, slot hash)] to a slot blob; both carry an approximate
    memory size.  The fields [nodes], [size], [accountData] and [storageData]
    are the ones [buffer.go] reads. *)

Module nodeSet.
Record t : Type := mk {
  size : Z;
  nodes : gmap common.Hash (gmap bytes trienode.Node)
}.

Definition node (s : t) (owner : common.Hash) (path : bytes) : option trienode.Node :=
  nodes s !! owner ≫= (fun subset => subset !! path).

Definition reset (s : t) : t := mk 0 ∅.
End nodeSet.

Module stateSet.
Record t : Type := mk {
  size : Z;
  accountData : gmap common.Hash bytes;
  storageData : gmap common.Hash (gmap common.Hash bytes)
}.

Definition account (s : t) (hash : common.Hash) : bytes * bool :=
  match accountData s !! hash with
  | Some blob => (blob, true)
  | None => ([], false)
  end.

Definition storage (s : t) (accountHash storageHash : common.Hash) : bytes * bool :=
  match storageData s !! accountHash ≫= (fun slots => slots !! storageHash) with
  | Some blob => (blob, true)
  | None => ([], false)
  end.

Definition reset (s : t) : t := mk 0 ∅ ∅.
End stateSet.

(** ** Diff layers and state histories

    Only what [disklayer.go] reads of them: [bottom.root], [bottom.stateID()],
    [bottom.nodes], [bottom.states.stateSet], and [h.meta], [h.accounts],
    [h.storages]. *)

Module diffLayer.
Record t : Type := mk {
  root : common.Hash;
  id : Z;
  block : Z;
  nodes : nodeSet.t;
  states : stateSet.t
}.
Definition rootHash (dl : t) : common.Hash := root dl.
Definition stateID (dl : t) : Z := id dl.
End diffLayer.

Module history.
Record meta_t : Type := mkMeta {
  version : Z;
  parent : common.Hash;
  root : common.Hash
}.
Record t : Type := mk {
  meta : meta_t;
  accounts : gmap common.Address bytes;
  storages : gmap common.Address (gmap common.Hash bytes)
}.
End history.

(** ** Collaborators

    What the two files call and the sources do not contain: the hash function,
    the cache key of a node, the failures of the key-value store and of the
    freezer, and the helpers of package [pathdb] declared in other files.  They
    are parameters of the development. *)

Class Env : Type := {
  (** [ethdb.AncientWriter] / the state freezer *)
  Freezer : Type;
  SyncAncient : Freezer -> option error;
  Tail : Freezer -> Z * option error;
  (** [batch.Write()] fails with this error, if any; the spec's key-value
      store contract makes the writes of a batch atomic. *)
  Batch_Write_err : Batch -> KVStore -> option error;
  (** [hasher.hash], i.e. [crypto.HashData] *)
  hashData : bytes -> common.Hash;
  nodeCacheKey : common.Hash -> bytes -> bytes;
  (** the methods [merge] and [revertTo] of [nodeSet] and of [stateSet]: each
      returns the receiver after the call *)
  nodeSet_merge : nodeSet.t -> nodeSet.t -> nodeSet.t;
  nodeSet_revertTo :
    nodeSet.t -> KVStore -> gmap common.Hash (gmap bytes trienode.Node) -> nodeSet.t;
  stateSet_merge : stateSet.t -> stateSet.t -> stateSet.t;
  stateSet_revertTo :
    stateSet.t -> gmap common.Hash bytes -> gmap common.Hash (gmap common.Hash bytes) ->
    stateSet.t;
  (** [writeHistory], [truncateFromTail], the method [stateSet] of [history],
      [stateHistoryV0] *)
  writeHistory : Freezer -> diffLayer.t -> option error * Freezer;
  truncateFromTail : KVStore -> Freezer -> Z -> (Z * option error) * KVStore * Freezer;
  history_stateSet :
    history.t -> gmap common.Hash bytes * gmap common.Hash (gmap common.Hash bytes);
  stateHistoryV0 : Z
}.

Section Store.
Context `{Env}.

(** [batch.Write()]: all the operations of the batch, or none. *)
Definition Batch_Write (batch : Batch) (db : KVStore) : option error * KVStore :=
  match Batch_Write_err batch db with
  | Some err => (Some err, db)
  | None => (None, Batch_apply batch db)
  end.

(** Modelled from the spec: [writeNodes] is not among the sources.  The
    batch receives every node of the set, a deletion for a node whose blob
    is empty and a write otherwise, under the account-trie key when the
    owner is the zero hash and under the storage-trie key otherwise, and
    the clean cache follows.  Go ranges over the two maps in no fixed
    order; the entries have distinct keys. *)
Definition flatten (nodes : gmap common.Hash (gmap bytes trienode.Node))
  : list (common.Hash * bytes * trienode.Node) :=
  '(owner, subset) ← map_to_list nodes;
  '(path, n) ← map_to_list subset;
  [(owner, path, n)].

Definition writeNode (e : common.Hash * bytes * trienode.Node) : rawdb.op :=
  let '(owner, path, n) := e in
  if trienode.IsDeleted n then
    if decide (owner = 0%N) then rawdb.DeleteAccountTrieNode path
    else rawdb.DeleteStorageTrieNode owner path
  else
    if decide (owner = 0%N) then rawdb.WriteAccountTrieNode path (trienode.Blob n)
    else rawdb.WriteStorageTrieNode owner path (trienode.Blob n).

Definition cacheNode (clean : fastcache.Cache) (e : common.Hash * bytes * trienode.Node)
  : fastcache.Cache :=
  let '(owner, path, n) := e in
  if trienode.IsDeleted n then fastcache.Del (nodeCacheKey owner path) clean
  else fastcache.Set_ (nodeCacheKey owner path) (trienode.Blob n) clean.

Definition writeNodes (batch : Batch)
    (nodes : gmap common.Hash (gmap bytes trienode.Node))
    (clean : option fastcache.Cache) : Batch * option fastcache.Cache * Z :=
  (batch ++ (writeNode <$> flatten nodes),
   (fun c => fold_left cacheNode (flatten nodes) c) <$> clean,
   Z.of_nat (length (flatten nodes))).

(** the method [write] of [nodeSet] *)
Definition nodeSet_write (s : nodeSet.t) (batch : Batch) (clean : option fastcache.Cache)
  : Batch * option fastcache.Cache * Z :=
  writeNodes batch (nodeSet.nodes s) clean.
End Store.

(** ** The [trienodebuffer] interface of [disklayer.go]

    The methods the disk layer calls.  [node] returns [None] for the Go
    result [(nil, false)]. *)

Class trienodebuffer `{Env} (B : Type) : Type := {
  tnb_account : B -> common.Hash -> bytes * bool;
  tnb_storage : B -> common.Hash -> common.Hash -> bytes * bool;
  tnb_node : B -> common.Hash -> bytes -> option trienode.Node;
  tnb_commit : B -> nodeSet.t -> stateSet.t -> B;
  tnb_revertTo :
    B -> KVStore -> gmap common.Hash (gmap bytes trienode.Node) ->
    gmap common.Hash bytes -> gmap common.Hash (gmap common.Hash bytes) ->
    option error * B;
  tnb_flush :
    B -> KVStore -> option Freezer -> option fastcache.Cache -> Z -> bool ->
    option error * B * KVStore * option fastcache.Cache;
  tnb_empty : B -> bool;
  tnb_getLayers : B -> Z;
  tnb_getSize : B -> Z * Z
}.

(** ** [buffer.go] *)

Module buffer.
Record t : Type := mk {
  layers : Z;            (* uint64: the number of diff layers aggregated inside *)
  limit : Z;             (* uint64: the maximum memory allowance in bytes *)
  nodes : nodeSet.t;     (* aggregated trie node set *)
  states : stateSet.t    (* aggregated state set *)
}.

Section Methods.
Context `{Env}.

Definition account (b : t) (hash : common.Hash) : bytes * bool :=
  stateSet.account (states b) hash.

Definition storage (b : t) (addrHash storageHash : common.Hash) : bytes * bool :=
  stateSet.storage (states b) addrHash storageHash.

Definition node (b : t) (owner : common.Hash) (path : bytes) : option trienode.Node :=
  nodeSet.node (nodes b) owner path.

Definition commit (b : t) (nodes' : nodeSet.t) (states' : stateSet.t) : t :=
  mk (u64 (layers b + 1)) (limit b)
     (nodeSet_merge (nodes b) nodes')
     (stateSet_merge (states b) states').

Definition reset (b : t) : t :=
  mk 0 (limit b) (nodeSet.reset (nodes b)) (stateSet.reset (states b)).

Definition revertTo (b : t) (db : KVStore)
    (nodes' : gmap common.Hash (gmap bytes trienode.Node))
    (accounts : gmap common.Hash bytes)
    (storages : gmap common.Hash (gmap common.Hash bytes)) : option error * t :=
  (* Short circuit if no embedded state transition to revert *)
  if layers b =? 0 then (Some errStateUnrecoverable, b)
  else
    let b := mk (u64 (layers b - 1)) (limit b) (nodes b) (states b) in
    (* Reset the entire buffer if only a single transition left *)
    if layers b =? 0 then (None, reset b)
    else
      let b := mk (layers b) (limit b) (nodeSet_revertTo (nodes b) db nodes') (states b) in
      if negb (size (stateSet.accountData (states b)) =? 0)%nat
         || negb (size (stateSet.storageData (states b)) =? 0)%nat
      then (None, mk (layers b) (limit b) (nodes b)
                     (stateSet_revertTo (states b) accounts storages))
      else (None, b).

Definition empty (b : t) : bool := layers b =? 0.

Definition size (b : t) : Z := u64 (stateSet.size (states b) + nodeSet.size (nodes b)).

Definition full (b : t) : bool := limit b <? size b.

(** The size hint of the batch and the meters and the log line of the
    source have no effect on the results. *)
Definition flush (b : t) (db : KVStore) (freezer : option Freezer)
    (nodesCache : option fastcache.Cache) (id : Z) (force : bool)
  : option error * t * KVStore * option fastcache.Cache :=
  if negb (full b) && negb force then (None, b, db, nodesCache)
  else
    (* Ensure the target state id is aligned with the internal counter. *)
    let head := rawdb.ReadPersistentStateID db in
    if negb (u64 (head + layers b) =? id)
    then (Some (errBufferAlignment (layers b) head id), b, db, nodesCache)
    else
      match freezer ≫= SyncAncient with
      | Some err => (Some err, b, db, nodesCache)
      | None =>
          let '(batch, nodesCache, _) := nodeSet_write (nodes b) [] nodesCache in
          let batch := batch ++ [rawdb.WritePersistentStateID id] in
          (* Flush all mutations in a single batch *)
          match Batch_Write batch db with
          | (Some err, db) => (Some err, b, db, nodesCache)
          | (None, db) => (None, reset b, db, nodesCache)
          end
      end.

Definition getLayers (b : t) : Z := layers b.

Definition getSize (b : t) : Z * Z := (size b, 0).

#[global] Instance buffer_trienodebuffer : trienodebuffer t := {
  tnb_account := account;
  tnb_storage := storage;
  tnb_node := node;
  tnb_commit := commit;
  tnb_revertTo := revertTo;
  tnb_flush := flush;
  tnb_empty := empty;
  tnb_getLayers := getLayers;
  tnb_getSize := getSize
}.
End Methods.
End buffer.

(** ** [disklayer.go] *)

Record Config : Type := mkConfig {
  CleanCacheSize : Z;   (* int: maximum memory allowance of the clean cache *)
  StateHistory : Z      (* uint64: number of recent state histories to keep *)
}.

(** What the disk layer reaches through [dl.db]. *)
Record Database `{Env} : Type := mkDatabase {
  diskdb : KVStore;
  freezer : option Freezer;
  config : Config
}.

Inductive location : Type := locDirtyCache | locCleanCache | locDiskLayer.

Record nodeLoc : Type := mkNodeLoc { loc : location; depth : Z }.

Module diskLayer.
Section Methods.
Context `{Env} {B : Type} `{!trienodebuffer B}.

Record t : Type := mk {
  root : common.Hash;               (* root hash to which this layer was made for *)
  id : Z;                           (* uint64: corresponding state id *)
  db : Database;                    (* path-based trie database *)
  nodes : option fastcache.Cache;   (* memory cache of clean nodes, or nil *)
  buffer : B;                       (* dirty buffer to aggregate writes *)
  stale : bool                      (* the layer became stale (state progressed) *)
}.

Definition set_stale (dl : t) (s : bool) : t :=
  mk (root dl) (id dl) (db dl) (nodes dl) (buffer dl) s.
Definition set_nodes (dl : t) (c : option fastcache.Cache) : t :=
  mk (root dl) (id dl) (db dl) c (buffer dl) (stale dl).
Definition set_buffer (dl : t) (b : B) : t :=
  mk (root dl) (id dl) (db dl) (nodes dl) b (stale dl).
Definition set_diskdb (dl : t) (d : KVStore) : t :=
  mk (root dl) (id dl) (mkDatabase _ d (freezer (db dl)) (config (db dl)))
     (nodes dl) (buffer dl) (stale dl).
Definition set_freezer (dl : t) (f : option Freezer) : t :=
  mk (root dl) (id dl) (mkDatabase _ (diskdb (db dl)) f (config (db dl)))
     (nodes dl) (buffer dl) (stale dl).

Definition newDiskLayer (root : common.Hash) (id : Z) (db : Database)
    (nodes : option fastcache.Cache) (buffer : B) : t :=
  (* Initialize a clean cache if the memory allowance is not zero or reuse
     the provided cache if it is not nil. *)
  let nodes :=
    match nodes with
    | None => if negb (CleanCacheSize (config db) =? 0) then Some fastcache.New else None
    | Some c => Some c
    end in
  mk root id db nodes buffer false.

Definition rootHash (dl : t) : common.Hash := root dl.
Definition stateID (dl : t) : Z := id dl.
Definition isStale (dl : t) : bool := stale dl.

Definition markStale (dl : t) : exec t :=
  if stale dl then Panics "triedb disk layer is stale"
  else Returns (set_stale dl true).

Definition node (dl : t) (owner : common.Hash) (path : bytes) (hash : common.Hash)
    (depth : Z) : (bytes * common.Hash * option nodeLoc * option error) * t :=
  if stale dl then (([], 0%N, None, Some errSnapshotStale), dl)
  else
    (* the not-yet-written node buffer first *)
    match tnb_node (buffer dl) owner path with
    | Some n =>
        ((trienode.Blob n, trienode.Hash n, Some (mkNodeLoc locDirtyCache depth), None), dl)
    | None =>
        (* the clean memory cache *)
        let key := nodeCacheKey owner path in
        let cached :=
          match nodes dl with
          | Some c =>
              let blob := fastcache.Get c key in
              if (0 <? length blob)%nat then Some blob else None
          | None => None
          end in
        match cached with
        | Some blob =>
            ((blob, hashData blob, Some (mkNodeLoc locCleanCache depth), None), dl)
        | None =>
            (* the disk *)
            let blob :=
              if decide (owner = 0%N)
              then rawdb.ReadAccountTrieNode (diskdb (db dl)) path
              else rawdb.ReadStorageTrieNode (diskdb (db dl)) owner path in
            let dl :=
              match nodes dl with
              | Some c =>
                  if (0 <? length blob)%nat
                  then set_nodes dl (Some (fastcache.Set_ key blob c))
                  else dl
              | None => dl
              end in
            ((blob, hashData blob, Some (mkNodeLoc locDiskLayer depth), None), dl)
        end
    end.

Definition account (dl : t) (hash : common.Hash) (depth : Z) : bytes * option error :=
  if stale dl then ([], Some errSnapshotStale)
  else
    let '(blob, found) := tnb_account (buffer dl) hash in
    if found then (blob, None)
    else ([], Some errNotSupported).

Definition storage (dl : t) (accountHash storageHash : common.Hash) (depth : Z)
  : bytes * option error :=
  if stale dl then ([], Some errSnapshotStale)
  else
    let '(blob, found) := tnb_storage (buffer dl) accountHash storageHash in
    if found then (blob, None)
    else ([], Some errNotSupported).

(** [commit] returns [(ndl, err)] and the receiver after the call.  The
    direct writes of [rawdb.WriteStateID] are taken to succeed;
    [bottom.cache.Remove(bottom)] touches nothing that is represented.  The
    freezer is as [writeHistory] left it, also when [commit] returns
    early with the error of [writeHistory] or of [Tail]. *)
Definition commit (dl : t) (bottom : diffLayer.t) (force : bool)
  : (option t * option error) * t :=
  let history : (error * Freezer) + (option Freezer * bool * Z) :=
    match freezer (db dl) with
    | Some fz =>
        match writeHistory fz bottom with
        | (Some err, fz) => inl (err, fz)
        | (None, fz) =>
            match Tail fz with
            | (_, Some err) => inl (err, fz)
            | (tail, None) =>
                let limit := StateHistory (config (db dl)) in
                if negb (limit =? 0) && (limit <? u64 (diffLayer.stateID bottom - tail))
                then inr (Some fz, true, u64 (u64 (diffLayer.stateID bottom - limit) + 1))
                else inr (Some fz, false, 0)
            end
        end
    | None => inr (None, false, 0)
    end in
  match history with
  | inl (err, fz) => ((None, Some err), set_freezer dl (Some fz))
  | inr (fz, overflow, oldest) =>
      let dl := set_freezer dl fz in
      (* Mark the diskLayer as stale before applying any mutations on top. *)
      let dl := set_stale dl true in
      let dl :=
        if id dl =? 0
        then set_diskdb dl (rawdb.put (rawdb.WriteStateID (root dl) 0) (diskdb (db dl)))
        else dl in
      let dl :=
        set_diskdb dl (rawdb.put (rawdb.WriteStateID (diffLayer.rootHash bottom)
                                                     (diffLayer.stateID bottom))
                                 (diskdb (db dl))) in
      let force :=
        if negb force && (rawdb.ReadPersistentStateID (diskdb (db dl)) <? oldest)
        then true else force in
      let combined :=
        tnb_commit (buffer dl) (diffLayer.nodes bottom) (diffLayer.states bottom) in
      let '(err, combined, diskdb', nodes') :=
        tnb_flush combined (diskdb (db dl)) (freezer (db dl)) (nodes dl)
                  (diffLayer.stateID bottom) force in
      let dl := set_nodes (set_diskdb (set_buffer dl combined) diskdb') nodes' in
      match err with
      | Some err => ((None, Some err), dl)
      | None =>
          let ndl := newDiskLayer (diffLayer.root bottom) (diffLayer.stateID bottom)
                                  (db dl) (nodes dl) combined in
          match overflow, freezer (db ndl) with
          | true, Some fz =>
              match truncateFromTail (diskdb (db ndl)) fz (u64 (oldest - 1)) with
              | ((_, Some err), diskdb', fz) =>
                  ((None, Some err), set_freezer (set_diskdb dl diskdb') (Some fz))
              | ((_, None), diskdb', fz) =>
                  ((Some (set_freezer (set_diskdb ndl diskdb') (Some fz)), None),
                   set_freezer (set_diskdb dl diskdb') (Some fz))
              end
          | _, _ => ((Some ndl, None), dl)
          end
      end
  end.

(** [apply] (declared in another file of the package) computes, from the
    state of this layer, the trie nodes that undo the history. *)
Variable apply :
  t -> common.Hash -> common.Hash -> bool ->
  gmap common.Address bytes -> gmap common.Address (gmap common.Hash bytes) ->
  gmap common.Hash (gmap bytes trienode.Node) * option error.

Definition revert (dl : t) (h : history.t) : exec ((option t * option error) * t) :=
  if negb (history.root (history.meta h) =? rootHash dl)%N
  then Returns ((None, Some errUnexpectedHistory), dl)
  else if id dl =? 0
  then Returns ((None, Some (errWrapped errStateUnrecoverable "zero state id")), dl)
  else
    match apply dl (history.parent (history.meta h)) (history.root (history.meta h))
                (negb (history.version (history.meta h) =? stateHistoryV0))
                (history.accounts h) (history.storages h) with
    | (_, Some err) => Returns ((None, Some err), dl)
    | (nodes', None) =>
        let '(accounts, storages) := history_stateSet h in
        (* Mark the diskLayer as stale before applying any mutations on top. *)
        let dl := set_stale dl true in
        if negb (tnb_empty (buffer dl)) then
          match tnb_revertTo (buffer dl) (diskdb (db dl)) nodes' accounts storages with
          | (Some err, b) => Returns ((None, Some err), set_buffer dl b)
          | (None, b) =>
              let dl := set_buffer dl b in
              Returns ((Some (newDiskLayer (history.parent (history.meta h))
                                           (u64 (id dl - 1)) (db dl) (nodes dl) (buffer dl)),
                        None), dl)
          end
        else
          let '(batch, clean, _) := writeNodes [] nodes' (nodes dl) in
          let batch := batch ++ [rawdb.WritePersistentStateID (u64 (id dl - 1))] in
          match Batch_Write batch (diskdb (db dl)) with
          | (Some err, _) => Crit "Failed to write states"
          | (None, diskdb') =>
              let dl := set_nodes (set_diskdb dl diskdb') clean in
              Returns ((Some (newDiskLayer (history.parent (history.meta h))
                                           (u64 (id dl - 1)) (db dl) (nodes dl) (buffer dl)),
                        None), dl)
          end
    end.

Definition size (dl : t) : Z * Z :=
  if stale dl then (0, 0) else tnb_getSize (buffer dl).

Definition resetCache (dl : t) : t :=
  if stale dl then dl
  else match nodes dl with
       | Some _ => set_nodes dl (Some fastcache.New)
       | None => dl
       end.
End Methods.

Arguments t {_} B.
End diskLayer.


(** * The trie prefetcher (package [state])

    The prefetcher runs one goroutine for [mainLoop] and one for the [loop]
    of every subfetcher; they communicate over channels.  Each arm of a
    [select] is one step here.  Which arm a [select] takes depends on what
    the other goroutines have sent by then: the steps of [loop] take the arms
    taken as an argument.  A channel that is only ever closed is a [bool]
    (closed or not), as is the one-token channel [wake].  The arm of
    [mainLoop] that serves a prefetch message loads a counter that the
    goroutine of the subfetcher decrements: it is given as one step and as
    two, between which that goroutine may run. *)

Definition abortChanSize : Z := 64.
Definition concurrentChanSize : Z := 10.
Definition parallelTriePrefetchThreshold : Z := 10.
Definition parallelTriePrefetchCapacity : Z := 20.

(** Go's [int], for the counter [dups]. *)
Definition int64 (z : Z) : Z := (z + 2 ^ 63) mod 2 ^ 64 - 2 ^ 63.

(** The slices [l[a:]] and [l[a:b]] of Go, for indices within bounds. *)
Definition sliceFrom {A : Type} (l : list A) (a : nat) : list A := drop a l.
Definition slice {A : Type} (l : list A) (a b : nat) : list A := take (b - a) (drop a l).

(** The calls that a subfetcher makes on its trie; a trie is represented by
    the calls it has served. *)
Inductive trieCall : Type :=
| GetAccount (addr : common.Address)
| GetStorage (addr : common.Address) (key : bytes).

Definition Trie : Type := list trieCall.

(** [mustCopyTrie] *)
Definition mustCopyTrie (tr : Trie) : Trie := tr.

(** What the prefetcher asks of the [Database] interface: each opening
    fails with an error or yields a fresh trie. *)
Record StateDatabase : Type := mkStateDatabase {
  IsVerkle : bool;
  OpenTrie : common.Hash -> option error;
  OpenStorageTrie : common.Hash -> common.Address -> common.Hash -> option error
}.

Record prefetchMsg : Type := mkPrefetchMsg {
  msg_owner : common.Hash;
  msg_root : common.Hash;
  msg_addr : common.Address;
  msg_keys : list bytes
}.

(** The arm that a [select] of [subfetcher.loop] takes. *)
Inductive arm : Type :=
| armStop       (* case <-sf.stop *)
| armCopy       (* case ch := <-sf.copy *)
| armDefault.   (* default *)

Inductive event : Type :=
| evWake (arms : list arm)   (* case <-sf.wake, and the arms taken while draining *)
| evCopy                     (* case ch := <-sf.copy *)
| evStop.                    (* case <-sf.stop *)

Module subfetcher.
#[local] Unset Elimination Schemes.
Inductive t : Type := mk {
  db : StateDatabase;        (* database to load trie nodes through *)
  state : common.Hash;       (* root hash of the state to prefetch *)
  owner : common.Hash;       (* owner of the trie, usually account hash *)
  root : common.Hash;        (* root hash of the trie to prefetch *)
  addr : common.Address;     (* address of the account that the trie belongs to *)
  trie : option Trie;        (* trie being populated with nodes, or nil *)
  tasks : list bytes;        (* items queued up for retrieval *)
  wake : bool;               (* a token is waiting in the wake channel *)
  stop : bool;               (* the stop channel is closed *)
  term : bool;               (* the term channel is closed *)
  seen : gset bytes;         (* tracks the entries already loaded *)
  dups : Z;                  (* int: number of duplicate preload tasks *)
  used : list bytes;         (* tracks the entries used in the end *)
  pendingSize : Z;           (* uint32 *)
  paraChildren : list t      (* parallel trie prefetch for address of massive change *)
}.
#[local] Set Elimination Schemes.

Definition set_trie (sf : t) (x : option Trie) : t :=
  mk (db sf) (state sf) (owner sf) (root sf) (addr sf) x (tasks sf) (wake sf) (stop sf)
     (term sf) (seen sf) (dups sf) (used sf) (pendingSize sf) (paraChildren sf).
Definition set_tasks (sf : t) (x : list bytes) : t :=
  mk (db sf) (state sf) (owner sf) (root sf) (addr sf) (trie sf) x (wake sf) (stop sf)
     (term sf) (seen sf) (dups sf) (used sf) (pendingSize sf) (paraChildren sf).
Definition set_wake (sf : t) (x : bool) : t :=
  mk (db sf) (state sf) (owner sf) (root sf) (addr sf) (trie sf) (tasks sf) x (stop sf)
     (term sf) (seen sf) (dups sf) (used sf) (pendingSize sf) (paraChildren sf).
Definition set_stop (sf : t) (x : bool) : t :=
  mk (db sf) (state sf) (owner sf) (root sf) (addr sf) (trie sf) (tasks sf) (wake sf) x
     (term sf) (seen sf) (dups sf) (used sf) (pendingSize sf) (paraChildren sf).
Definition set_term (sf : t) (x : bool) : t :=
  mk (db sf) (state sf) (owner sf) (root sf) (addr sf) (trie sf) (tasks sf) (wake sf)
     (stop sf) x (seen sf) (dups sf) (used sf) (pendingSize sf) (paraChildren sf).
Definition set_seen (sf : t) (x : gset bytes) : t :=
  mk (db sf) (state sf) (owner sf) (root sf) (addr sf) (trie sf) (tasks sf) (wake sf)
     (stop sf) (term sf) x (dups sf) (used sf) (pendingSize sf) (paraChildren sf).
Definition set_dups (sf : t) (x : Z) : t :=
  mk (db sf) (state sf) (owner sf) (root sf) (addr sf) (trie sf) (tasks sf) (wake sf)
     (stop sf) (term sf) (seen sf) x (used sf) (pendingSize sf) (paraChildren sf).
Definition set_used (sf : t) (x : list bytes) : t :=
  mk (db sf) (state sf) (owner sf) (root sf) (addr sf) (trie sf) (tasks sf) (wake sf)
     (stop sf) (term sf) (seen sf) (dups sf) x (pendingSize sf) (paraChildren sf).
Definition set_pendingSize (sf : t) (x : Z) : t :=
  mk (db sf) (state sf) (owner sf) (root sf) (addr sf) (trie sf) (tasks sf) (wake sf)
     (stop sf) (term sf) (seen sf) (dups sf) (used sf) x (paraChildren sf).
Definition set_paraChildren (sf : t) (x : list t) : t :=
  mk (db sf) (state sf) (owner sf) (root sf) (addr sf) (trie sf) (tasks sf) (wake sf)
     (stop sf) (term sf) (seen sf) (dups sf) (used sf) (pendingSize sf) x.

(** [newSubfetcher]; the goroutine it starts is [loop] below. *)
Definition newSubfetcher (db : StateDatabase) (state owner root : common.Hash)
    (addr : common.Address) : t :=
  mk db state owner root addr None [] false false false ∅ 0 [] 0 [].

(** [schedule] adds a batch of trie keys to the queue to prefetch. *)
Definition schedule (sf : t) (keys : list bytes) : t :=
  let sf := set_pendingSize sf (u32 (pendingSize sf + u32 (Z.of_nat (length keys)))) in
  (* Append the tasks to the current queue *)
  let sf := set_tasks sf (tasks sf ++ keys) in
  (* Notify the prefetcher, it's fine if it's already terminated *)
  set_wake sf true.

(** The first loop of [scheduleParallel]: feed the children that are
    hungry, [n] iterations being left.  The result says whether the keys
    were all consumed, in which case [scheduleParallel] returns.  An
    index is a Go [int] that stays within the length of a slice; it is a
    [nat]. *)
Fixpoint feedChildren (n : nat) (childrenNum childIndex : nat) (keyIndex : Z)
    (keys : list bytes) (children : list t) : list t * Z * bool :=
  match n with
  | O => (children, keyIndex, false)
  | S n' =>
      match children !! childIndex with
      | None => (children, keyIndex, false)   (* index out of range: not reached *)
      | Some child =>
          let next := ((childIndex + 1) mod childrenNum)%nat in
          if parallelTriePrefetchCapacity <=? pendingSize child
          then (* the child is already full, skip it *)
            feedChildren n' childrenNum next keyIndex keys children
          else
            let feedNum := u32 (parallelTriePrefetchCapacity - pendingSize child) in
            if u32 (Z.of_nat (length keys)) <=? u32 (keyIndex + feedNum)
            then (* the new arrived keys are all consumed by children. *)
              (<[childIndex := schedule child (sliceFrom keys (Z.to_nat keyIndex))]> children,
               keyIndex, true)
            else
              feedChildren n' childrenNum next (u32 (keyIndex + feedNum)) keys
                (<[childIndex :=
                     schedule child (slice keys (Z.to_nat keyIndex)
                                           (Z.to_nat (u32 (keyIndex + feedNum))))]> children)
      end
  end.

(** The second loop of [scheduleParallel]: a new child for every
    [parallelTriePrefetchCapacity] keys that are left, from iteration [i]
    on.  The loop runs at most once per key left; [fuel] bounds it. *)
Fixpoint spawnChildren (fuel : nat) (i : nat) (sf : t) (keysLeft : list bytes)
    (children : list t) : list t :=
  match fuel with
  | O => children
  | S fuel' =>
      let capacity := Z.to_nat parallelTriePrefetchCapacity in
      let keysLeftSize := length keysLeft in
      if (i * capacity <? keysLeftSize)%nat then
        let child := newSubfetcher (db sf) (state sf) (owner sf) (root sf) (addr sf) in
        let endIndex := ((i + 1) * capacity)%nat in
        if (keysLeftSize <=? endIndex)%nat
        then children ++ [schedule child (sliceFrom keysLeft (i * capacity))]
        else spawnChildren fuel' (S i) sf keysLeft
               (children ++ [schedule child (slice keysLeft (i * capacity) endIndex)])
      else children
  end.

Definition scheduleParallel (sf : t) (keys : list bytes) : t :=
  let childrenNum := length (paraChildren sf) in
  let '(children, keyIndex, consumed) :=
    if (0 <? childrenNum)%nat
    then feedChildren childrenNum childrenNum (length keys mod childrenNum)%nat 0 keys
                      (paraChildren sf)
    else (paraChildren sf, 0, false) in
  if consumed then set_paraChildren sf children
  else
    (* Children did not consume all the keys, to create new subfetch to
       handle left keys. *)
    let keysLeft := sliceFrom keys (Z.to_nat keyIndex) in
    set_paraChildren sf (spawnChildren (length keysLeft) 0 sf keysLeft children).

(** [abort] interrupts the subfetcher immediately. *)
Definition abort (sf : t) : t := set_stop sf true.

(** [openTrie] resolves the target trie from database for prefetching. *)
Definition openTrie (sf : t) : option error * t :=
  if IsVerkle (db sf) then
    match OpenTrie (db sf) (state sf) with
    | Some err => (Some err, sf)
    | None => (None, set_trie sf (Some []))
    end
  else if decide (owner sf = 0%N) then
    match OpenTrie (db sf) (state sf) with
    | Some err => (Some err, sf)
    | None => (None, set_trie sf (Some []))
    end
  else
    match OpenStorageTrie (db sf) (state sf) (addr sf) (root sf) with
    | Some err => (Some err, sf)
    | None => (None, set_trie sf (Some []))
    end.

(** The [default] arm of the inner [select] of [loop]: prefetch the next
    entry.  Calling a method of a nil trie panics. *)
Definition prefetchTask (sf : t) (task : bytes) : exec t :=
  let decrease (sf : t) := set_pendingSize sf (u32 (pendingSize sf + (2 ^ 32 - 1))) in
  if decide (task ∈ seen sf) then
    Returns (decrease (set_dups sf (int64 (dups sf + 1))))
  else
    match trie sf with
    | None => Panics "invalid memory address or nil pointer dereference"
    | Some tr =>
        let call :=
          if (length task =? common.AddressLength)%nat
          then GetAccount (common.BytesToAddress task)
          else GetStorage (addr sf) task in
        let sf := set_trie sf (Some (tr ++ [call])) in
        let sf := set_seen sf ({[ task ]} ∪ seen sf) in
        Returns (decrease sf)
    end.

(** The loop over the drained tasks.  The result says whether [loop]
    returned from inside it. *)
Fixpoint prefetchTasks (sf : t) (arms : list arm) (tasks' : list bytes) : exec (t * bool) :=
  match tasks' with
  | [] => Returns (sf, false)
  | task :: rest =>
      match hd armDefault arms with
      | armStop =>
          (* If termination is requested, add any leftover back and return *)
          Returns (set_tasks sf (tasks sf ++ task :: rest), true)
      | armCopy =>
          (* Somebody wants a copy of the current trie, grant them *)
          prefetchTasks sf (tl arms) rest
      | armDefault =>
          match prefetchTask sf task with
          | Returns sf => prefetchTasks sf (tl arms) rest
          | Panics msg => Panics msg
          | Crit msg => Crit msg
          end
      end
  end.

(** The arm [case <-sf.wake] of [loop]. *)
Definition wakeArm (sf : t) (arms : list arm) : exec (t * bool) :=
  let sf := set_wake sf false in
  let reopened :=
    match trie sf with
    | Some _ => (None, sf)
    | None =>
        if decide (owner sf = 0%N) then
          match OpenTrie (db sf) (root sf) with
          | Some err => (Some err, sf)
          | None => (None, set_trie sf (Some []))
          end
        else
          match OpenStorageTrie (db sf) (state sf) (addr sf) (root sf) with
          | Some err => (Some err, sf)
          | None => (None, set_trie sf (Some []))
          end
    end in
  match reopened with
  | (Some _, sf) => Returns (sf, false)   (* continue *)
  | (None, sf) =>
      let tasks' := tasks sf in
      let sf := set_tasks sf [] in
      (* Prefetch any tasks until the loop is interrupted *)
      prefetchTasks sf arms tasks'
  end.

Fixpoint selectLoop (sf : t) (events : list event) : exec t :=
  match events with
  | [] => Returns sf      (* waiting in the select *)
  | evWake arms :: events =>
      match wakeArm sf arms with
      | Returns (sf, true) => Returns (set_term sf true)
      | Returns (sf, false) => selectLoop sf events
      | Panics msg => Panics msg
      | Crit msg => Crit msg
      end
  | evCopy :: events => selectLoop sf events
  | evStop :: events => Returns (set_term sf true)
  end.

(** [loop], up to the events given; [term] is closed when it returns. *)
Definition loop (sf : t) (events : list event) : exec t :=
  match openTrie sf with
  | (Some _, sf) => Returns (set_term sf true)
  | (None, sf) => selectLoop sf events
  end.
End subfetcher.

Module triePrefetcher.
(** The identifier of a trie is a string in the source: the hex form of the
    state root in verkle mode, and the 64 bytes of the owner and of the
    root otherwise. *)
Definition trieID_t : Type := common.Hash + common.Hash * common.Hash.

Record t : Type := mk {
  verkle : bool;                        (* whether the prefetcher is in verkle mode *)
  db : StateDatabase;                   (* database to fetch trie nodes through *)
  root : common.Hash;                   (* root hash of the account trie *)
  fetches : option (gmap trieID_t Trie);  (* only populated for inactive copies *)
  fetchers : gmap trieID_t subfetcher.t;  (* subfetchers for each trie *)
  noreads : bool;                       (* whether to ignore read-only requests *)
  closeMainChan : bool;                 (* the channel is closed *)
  prefetchChan : list prefetchMsg       (* the messages sent and not yet received *)
}.

Definition set_fetchers (p : t) (x : gmap trieID_t subfetcher.t) : t :=
  mk (verkle p) (db p) (root p) (fetches p) x (noreads p) (closeMainChan p) (prefetchChan p).
Definition set_prefetchChan (p : t) (x : list prefetchMsg) : t :=
  mk (verkle p) (db p) (root p) (fetches p) (fetchers p) (noreads p) (closeMainChan p) x.

Definition newTriePrefetcher (db : StateDatabase) (root : common.Hash) (noreads : bool) : t :=
  mk (IsVerkle db) db root None ∅ noreads false [].

Definition trieID (p : t) (owner root' : common.Hash) : trieID_t :=
  if verkle p then inl (root p) else inr (owner, root').

(** The arm [case pMsg := <-p.prefetchChan] of [mainLoop] as one step: the
    goroutine of the subfetcher takes no step between [fetcher.schedule] and
    the load of [fetcher.pendingSize], which is then the value that
    [schedule] has just written.  The runs in which it does take steps in
    between are those of [mainLoop_prefetch_schedule] and
    [mainLoop_prefetch_parallel] below. *)
Definition mainLoop_prefetch (p : t) (pMsg : prefetchMsg) : t :=
  let id := trieID p (msg_owner pMsg) (msg_root pMsg) in
  let '(fetcher, p) :=
    match fetchers p !! id with
    | Some fetcher => (fetcher, p)
    | None =>
        let fetcher :=
          subfetcher.newSubfetcher (db p) (root p) (msg_owner pMsg) (msg_root pMsg)
                                   (msg_addr pMsg) in
        (fetcher, set_fetchers p (<[id := fetcher]> (fetchers p)))
    end in
  if subfetcher.stop fetcher then p
  else
    let fetcher := subfetcher.schedule fetcher (msg_keys pMsg) in
    (* no need to run parallel trie prefetch if threshold is not reached. *)
    let fetcher :=
      if parallelTriePrefetchThreshold <? subfetcher.pendingSize fetcher
      then subfetcher.scheduleParallel fetcher (msg_keys pMsg)
      else fetcher in
    set_fetchers p (<[id := fetcher]> (fetchers p)).

(** The same arm in two steps.  The goroutine of the subfetcher runs
    concurrently with [mainLoop] and decrements [pendingSize] for every task
    it finishes, so that the value that [mainLoop] loads need not be the one
    that [schedule] wrote.  The first step is the arm up to and including
    [fetcher.schedule(pMsg.keys)]; the second step is the arm from
    [atomic.LoadUint32(&fetcher.pendingSize)] on, and finds the subfetcher
    registered for the trie as its goroutine has left it in between.  Only
    [mainLoop] ever closes [stop]: the second step finds it as the [select]
    of the first step did. *)
Definition mainLoop_prefetch_schedule (p : t) (pMsg : prefetchMsg) : t :=
  let id := trieID p (msg_owner pMsg) (msg_root pMsg) in
  let '(fetcher, p) :=
    match fetchers p !! id with
    | Some fetcher => (fetcher, p)
    | None =>
        let fetcher :=
          subfetcher.newSubfetcher (db p) (root p) (msg_owner pMsg) (msg_root pMsg)
                                   (msg_addr pMsg) in
        (fetcher, set_fetchers p (<[id := fetcher]> (fetchers p)))
    end in
  if subfetcher.stop fetcher then p
  else set_fetchers p (<[id := subfetcher.schedule fetcher (msg_keys pMsg)]> (fetchers p)).

Definition mainLoop_prefetch_parallel (p : t) (pMsg : prefetchMsg) : t :=
  let id := trieID p (msg_owner pMsg) (msg_root pMsg) in
  match fetchers p !! id with
  | None => p   (* not reached: the first step has registered the subfetcher *)
  | Some fetcher =>
      if subfetcher.stop fetcher then p
      else
        (* no need to run parallel trie prefetch if threshold is not reached. *)
        if parallelTriePrefetchThreshold <? subfetcher.pendingSize fetcher
        then set_fetchers p (<[id := subfetcher.scheduleParallel fetcher (msg_keys pMsg)]>
                               (fetchers p))
        else p
  end.

(** The arm [case fetcher := <-p.abortChan] of [mainLoop]. *)
Definition mainLoop_abort (fetcher : subfetcher.t) : subfetcher.t :=
  subfetcher.set_paraChildren (subfetcher.abort fetcher)
    (subfetcher.abort <$> subfetcher.paraChildren fetcher).

(** [prefetch] schedules a batch of trie items to prefetch. *)
Definition prefetch (p : t) (owner root' : common.Hash) (addr : common.Address)
    (addrs : list common.Address) (slots : list common.Hash) (read : bool)
  : option error * t :=
  (* If the state item is only being read, but reads are disabled, return *)
  if read && noreads p then (None, p)
  else
    (* If the prefetcher is an inactive one, bail out *)
    match fetches p with
    | Some _ => (None, p)
    | None =>
        let keys := (common.Address_Bytes <$> addrs) ++ (common.Hash_Bytes <$> slots) in
        (* on a closed prefetcher the receive from the closed channel is
           ready, and this is the arm of the select taken here; the send,
           which is ready as well when the channel has room, is not
           represented *)
        if closeMainChan p then (None, p)
        else (None, set_prefetchChan p (prefetchChan p ++ [mkPrefetchMsg owner root' addr keys]))
    end.

(** [mainLoop] receives the next message of [prefetchChan], if any. *)
Definition mainLoop_receive (p : t) : t :=
  match prefetchChan p with
  | [] => p
  | pMsg :: rest => mainLoop_prefetch (set_prefetchChan p rest) pMsg
  end.

(** [used] marks a batch of state items used. *)
Definition used (p : t) (owner root' : common.Hash)
    (usedAddr : list common.Address) (usedSlot : list common.Hash) : t :=
  (* If the prefetcher is an inactive one, bail out *)
  match fetches p with
  | Some _ => p
  | None =>
      if closeMainChan p then p
      else
        let id := trieID p owner root' in
        match fetchers p !! id with
        | Some fetcher =>
            let fetcher :=
              subfetcher.set_used fetcher
                (subfetcher.used fetcher ++ (common.Address_Bytes <$> usedAddr)) in
            let fetcher :=
              subfetcher.set_used fetcher
                (subfetcher.used fetcher ++ (common.Hash_Bytes <$> usedSlot)) in
            set_fetchers p (<[id := fetcher]> (fetchers p))
        | None => p
        end
  end.

(** The goroutine of the subfetcher of trie [id] takes the steps [events]. *)
Definition runFetcher (p : t) (id : trieID_t) (events : list event) : exec t :=
  match fetchers p !! id with
  | None => Returns p
  | Some fetcher =>
      match subfetcher.loop fetcher events with
      | Returns fetcher => Returns (set_fetchers p (<[id := fetcher]> (fetchers p)))
      | Panics msg => Panics msg
      | Crit msg => Crit msg
      end
  end.

(** What the close arm of [mainLoop] reports as waste for a subfetcher:
    the size of [seen] once every key of [used] has been deleted from it. *)
Definition waste (fetcher : subfetcher.t) : nat :=
  size (foldl (fun s key => s ∖ {[ key ]}) (subfetcher.seen fetcher) (subfetcher.used fetcher)).
End triePrefetcher.
(** ** A small instance

    One choice of collaborators, for the examples below: a freezer that never
    fails and keeps nothing, a store whose batches always succeed, the length
    of a blob as its hash, and sets that merge by overwriting. *)

Definition overwrite {V : Type} (old new : gmap common.Hash (gmap bytes V))
  : gmap common.Hash (gmap bytes V) :=
  union_with (fun o n => Some (n ∪ o)) old new.

Definition exampleEnv : Env := {|
  Freezer := unit;
  SyncAncient := fun _ => None;
  Tail := fun _ => (0, None);
  Batch_Write_err := fun _ _ => None;
  hashData := fun blob => N.of_nat (length blob);
  nodeCacheKey := fun owner path => common.Hash_Bytes owner ++ path;
  nodeSet_merge := fun s s' =>
    nodeSet.mk (nodeSet.size s + nodeSet.size s') (overwrite (nodeSet.nodes s) (nodeSet.nodes s'));
  nodeSet_revertTo := fun s _ nodes' =>
    nodeSet.mk (nodeSet.size s) (overwrite (nodeSet.nodes s) nodes');
  stateSet_merge := fun s s' =>
    stateSet.mk (stateSet.size s + stateSet.size s')
                (stateSet.accountData s' ∪ stateSet.accountData s)
                (union_with (fun o n => Some (n ∪ o)) (stateSet.storageData s)
                            (stateSet.storageData s'));
  stateSet_revertTo := fun s accounts storages =>
    stateSet.mk (stateSet.size s) (accounts ∪ stateSet.accountData s)
                (union_with (fun o n => Some (n ∪ o)) (stateSet.storageData s) storages);
  writeHistory := fun fz _ => (None, fz);
  truncateFromTail := fun db fz _ => ((0, None), db, fz);
  history_stateSet := fun h => (history.accounts h, history.storages h);
  stateHistoryV0 := 0
|}.

Definition emptyStore : KVStore := mkKVStore ∅ ∅ None ∅.

Definition emptyBuffer : buffer.t :=
  buffer.mk 0 1024 (nodeSet.mk 0 ∅) (stateSet.mk 0 ∅ ∅).

Definition exampleDatabase : @Database exampleEnv :=
  mkDatabase exampleEnv emptyStore None (mkConfig 16 0).

(** A live disk layer over the empty store, and the same layer once stale. *)
Definition liveLayer : @diskLayer.t exampleEnv buffer.t :=
  diskLayer.mk 7%N 0 exampleDatabase (Some fastcache.New) emptyBuffer false.

Definition staleLayer : @diskLayer.t exampleEnv buffer.t :=
  diskLayer.set_stale liveLayer true.

(** The same layer with one account in its dirty buffer. *)
Definition dirtyBuffer : buffer.t :=
  buffer.mk 1 1024 (nodeSet.mk 0 ∅) (stateSet.mk 2 {[ 5%N := [Byte.x01; Byte.x02] ]} ∅).

Definition dirtyLayer : @diskLayer.t exampleEnv buffer.t :=
  diskLayer.mk 7%N 1 exampleDatabase (Some fastcache.New) dirtyBuffer false.

(** ** The read of the spec

    The read that section 4.3 of the spec describes, for a key that the dirty
    buffer answers with [dirty], the clean cache with [clean] and the
    key-value store with [disk]: the buffer first, then the clean cache, then
    the store.  It never fails. *)
Definition spec_read (dirty : bytes * bool) (clean disk : bytes) : bytes * option error :=
  if snd dirty then (fst dirty, None)
  else if (0 <? length clean)%nat then (clean, None)
  else (disk, None).

(** The blob the key-value store holds for a node: the account-trie table
    for the zero owner and the storage-trie table otherwise, as in the last
    step of [diskLayer.node]. *)
Definition diskNode (db : KVStore) (owner : common.Hash) (path : bytes) : bytes :=
  if decide (owner = 0%N)
  then rawdb.ReadAccountTrieNode db path
  else rawdb.ReadStorageTrieNode db owner path.

(** A store that holds one account-trie node, and a live layer over it. *)
Definition storedNodes : KVStore :=
  mkKVStore {[ [Byte.x0a] := [Byte.x01; Byte.x02; Byte.x03] ]} ∅ (Some 4) ∅.

Definition storedLayer : @diskLayer.t exampleEnv buffer.t :=
  diskLayer.mk 7%N 4 (mkDatabase exampleEnv storedNodes None (mkConfig 16 0))
               (Some fastcache.New) emptyBuffer false.

(** A buffer that aggregates two layers: a node of the account trie, a
    deleted node of the storage trie of account [3], and one account. *)
Definition twoLayers : buffer.t :=
  buffer.mk 2 1024
    (nodeSet.mk 6 {[ 0%N := {[ [Byte.x0b] := trienode.mkNode 2%N [Byte.x04; Byte.x05] ]};
                     3%N := {[ [Byte.x0c] := trienode.mkNode 0%N [] ]} ]})
    (stateSet.mk 2 {[ 5%N := [Byte.x01; Byte.x02] ]} ∅).

(** Its forced flush to the empty store, as state 2. *)
Definition flushed : option error * buffer.t * KVStore * option fastcache.Cache :=
  @buffer.flush exampleEnv twoLayers emptyStore None None 2 true.

(** An [apply] that always answers with one node of the account trie, and a
    history that leads from root [6] to root [7]. *)
Definition exampleApply :
  @diskLayer.t exampleEnv buffer.t -> common.Hash -> common.Hash -> bool ->
  gmap common.Address bytes -> gmap common.Address (gmap common.Hash bytes) ->
  gmap common.Hash (gmap bytes trienode.Node) * option error :=
  fun _ _ _ _ _ _ =>
    ({[ 0%N := {[ [Byte.x0a] := trienode.mkNode 1%N [Byte.x09] ]} ]}, None).

Definition exampleHistory : history.t :=
  history.mk (history.mkMeta 0 6%N 7%N) ∅ ∅.

(** Two diff layers on top of the root [7] of [liveLayer]. *)
Definition deltaA : diffLayer.t :=
  diffLayer.mk 8%N 1 1
    (nodeSet.mk 3 {[ 0%N := {[ [Byte.x0a] := trienode.mkNode 2%N [Byte.x01; Byte.x02] ]} ]})
    (stateSet.mk 0 ∅ ∅).

Definition deltaB : diffLayer.t :=
  diffLayer.mk 9%N 1 1
    (nodeSet.mk 3 {[ 0%N := {[ [Byte.x0a] := trienode.mkNode 2%N [Byte.x03; Byte.x04] ]} ]})
    (stateSet.mk 0 ∅ ∅).

(** The live layer once [deltaA] is committed onto it, and the commit of
    [deltaB] onto that same layer. *)
Definition staleBase : @diskLayer.t exampleEnv buffer.t :=
  (diskLayer.commit liveLayer deltaA false).2.

Definition secondCommit
  : (option (@diskLayer.t exampleEnv buffer.t) * option error)
    * @diskLayer.t exampleEnv buffer.t :=
  diskLayer.commit staleBase deltaB false.

(** ** A run of the prefetcher

    A prefetcher over a database whose tries always open.  Address [1] is
    prefetched for the account trie, the main loop receives the message, the
    subfetcher wakes up and loads the key; then addresses [1] and [2] are
    marked as used. *)
Definition exampleStateDatabase : StateDatabase :=
  mkStateDatabase false (fun _ => None) (fun _ _ _ => None).

Definition examplePrefetcher : triePrefetcher.t :=
  triePrefetcher.newTriePrefetcher exampleStateDatabase 100%N false.

Definition exampleTrieID : triePrefetcher.trieID_t :=
  triePrefetcher.trieID examplePrefetcher 0%N 100%N.

Definition exampleRun : exec triePrefetcher.t :=
  let p := (triePrefetcher.prefetch examplePrefetcher 0%N 100%N 0%N [1%N] [] false).2 in
  let p := triePrefetcher.mainLoop_receive p in
  match triePrefetcher.runFetcher p exampleTrieID [evWake []] with
  | Returns p => Returns (triePrefetcher.used p 0%N 100%N [1%N; 2%N] [])
  | Panics msg => Panics msg
  | Crit msg => Crit msg
  end.

(** The invariant that the data model of the spec states for a subfetcher:
    the keys marked as used are among the keys seen. *)
Definition used_within_seen (sf : subfetcher.t) : Prop :=
  forall key, key ∈ subfetcher.used sf -> key ∈ subfetcher.seen sf.

(** The call that [loop] makes on the trie for a task. *)
Definition callFor (addr : common.Address) (task : bytes) : trieCall :=
  if (length task =? common.AddressLength)%nat
  then GetAccount (common.BytesToAddress task)
  else GetStorage addr task.

(** The calls made on the trie of a subfetcher are those for a
    duplicate-free list of keys, which are exactly the keys seen: every key
    seen was loaded once. *)
Definition loaded_once (sf : subfetcher.t) : Prop :=
  exists loaded : list bytes,
    default [] (subfetcher.trie sf) = callFor (subfetcher.addr sf) <$> loaded /\
    NoDup loaded /\
    subfetcher.seen sf = list_to_set loaded.

(** The subfetcher and the prefetcher at the end of that run. *)
Definition exampleFetcher : subfetcher.t :=
  subfetcher.mk exampleStateDatabase 100%N 0%N 100%N 0%N (Some [GetAccount 1%N]) []
                false false false {[ common.Address_Bytes 1%N ]} 0
                [common.Address_Bytes 1%N; common.Address_Bytes 2%N] 0 [].

Definition exampleFinal : triePrefetcher.t :=
  triePrefetcher.mk false exampleStateDatabase 100%N None
                    {[ exampleTrieID := exampleFetcher ]} false false [].

(** ** Parallel prefetch: vocabulary *)

(** The least integer not below [a / b]. *)
Definition ceilDiv (a b : Z) : Z := (a + b - 1) / b.

(** The keys queued on a list of children, child after child. *)
Definition queued (children : list subfetcher.t) : list bytes :=
  concat (subfetcher.tasks <$> children).

(** [child] prefetches the same trie as [sf]. *)
Definition sameTrie (sf child : subfetcher.t) : Prop :=
  subfetcher.db child = subfetcher.db sf /\
  subfetcher.state child = subfetcher.state sf /\
  subfetcher.owner child = subfetcher.owner sf /\
  subfetcher.root child = subfetcher.root sf /\
  subfetcher.addr child = subfetcher.addr sf.

(** [child'] is [child] after it was handed some keys, [extra], at the end
    of its queue: none, or as many as leave it with at most
    [parallelTriePrefetchCapacity] pending keys. *)
Definition fed (child child' : subfetcher.t) : Prop :=
  sameTrie child child' /\
  exists extra : list bytes,
    subfetcher.tasks child' = subfetcher.tasks child ++ extra /\
    subfetcher.pendingSize child'
    = subfetcher.pendingSize child + Z.of_nat (length extra) /\
    (extra <> [] ->
     subfetcher.pendingSize child < parallelTriePrefetchCapacity /\
     subfetcher.pendingSize child' <= parallelTriePrefetchCapacity).

(** [child] is a fresh subfetcher for the trie of [sf] that was handed
    between one and [parallelTriePrefetchCapacity] keys. *)
Definition spawnedBy (sf child : subfetcher.t) : Prop :=
  exists chunk : list bytes,
    child = subfetcher.schedule
              (subfetcher.newSubfetcher (subfetcher.db sf) (subfetcher.state sf)
                 (subfetcher.owner sf) (subfetcher.root sf) (subfetcher.addr sf))
              chunk /\
    0 < Z.of_nat (length chunk) <= parallelTriePrefetchCapacity.

(** The rotation in which [scheduleParallel] offers the keys of a batch to
    the [num] existing children: the child visited at step [a] when the
    first one is [start]. *)
Definition visited (num start a : nat) : nat := ((start + a) mod num)%nat.

(** The children are fed in rotation: whenever a child visited later has
    received keys, every child visited before it is left with at least
    [parallelTriePrefetchCapacity] pending keys; and children are only
    spawned once every existing child is. *)
Definition fedInRotation (start : nat) (children children' : list subfetcher.t) : Prop :=
  forall (a b : nat) (ci' cj cj' : subfetcher.t),
    (a < b < length children)%nat ->
    children' !! visited (length children) start a = Some ci' ->
    children !! visited (length children) start b = Some cj ->
    children' !! visited (length children) start b = Some cj' ->
    subfetcher.tasks cj' <> subfetcher.tasks cj ->
    parallelTriePrefetchCapacity <= subfetcher.pendingSize ci'.

(** A batch of 45 storage keys for the storage trie of account [3]. *)
Definition manyKeys : list bytes :=
  (fun n => common.Hash_Bytes (N.of_nat n)) <$> seq 0 45.

Definition manyKeysMsg : prefetchMsg := mkPrefetchMsg 3%N 200%N 33%N manyKeys.


(** ** A prefetch that races with the subfetcher

    41 storage keys are prefetched for the storage trie of account [3],
    which has no subfetcher yet.  [mainLoop] creates the subfetcher and
    schedules the keys on it.  The goroutine of the subfetcher opens the
    trie, takes the wake arm, drains the 41 tasks and has finished the first
    30 of them, each through the default arm, when [mainLoop] loads
    [pendingSize] and goes on. *)
Definition raceKeys : list bytes :=
  (fun n => common.Hash_Bytes (N.of_nat n)) <$> seq 0 41.

Definition raceMsg : prefetchMsg := mkPrefetchMsg 3%N 200%N 33%N raceKeys.

Definition raceID : triePrefetcher.trieID_t :=
  triePrefetcher.trieID examplePrefetcher 3%N 200%N.

(** The subfetcher that [mainLoop] has created and scheduled the keys on. *)
Definition raceFetcher : subfetcher.t :=
  subfetcher.schedule (subfetcher.newSubfetcher exampleStateDatabase 100%N 3%N 200%N 33%N)
                      raceKeys.

(** The subfetcher once its goroutine has opened the trie, taken the wake
    arm and finished [n] of the tasks it drained; the tasks it has not come
    to yet are in the local slice of its loop. *)
Definition raceDrained (n : nat) : subfetcher.t :=
  match subfetcher.openTrie raceFetcher with
  | (Some _, sf) => sf
  | (None, sf) =>
      let sf := subfetcher.set_wake sf false in
      let tasks' := subfetcher.tasks sf in
      let sf := subfetcher.set_tasks sf [] in
      match subfetcher.prefetchTasks sf [] (take n tasks') with
      | Returns (sf, _) => sf
      | _ => sf
      end
  end.

Definition raceScheduled : triePrefetcher.t :=
  triePrefetcher.mainLoop_prefetch_schedule examplePrefetcher raceMsg.

Definition raceLoaded : triePrefetcher.t :=
  triePrefetcher.set_fetchers raceScheduled
    (<[raceID := raceDrained 30]> (triePrefetcher.fetchers raceScheduled)).

Definition raceResult : triePrefetcher.t :=
  triePrefetcher.mainLoop_prefetch_parallel raceLoaded raceMsg.

(** ** The clean cache and the store *)

(** The clean cache agrees with the store: a blob that it holds under the
    cache key of a node is the blob that the store holds for that node. *)
Definition cacheCoherent `{Env} (clean : option fastcache.Cache) (db : KVStore) : Prop :=
  forall c owner path,
    clean = Some c ->
    (0 < length (fastcache.Get c (nodeCacheKey owner path)))%nat ->
    fastcache.Get c (nodeCacheKey owner path) = diskNode db owner path.

(** No two nodes share a cache key. *)
Definition distinctCacheKeys `{Env} : Prop :=
  forall owner path owner' path',
    nodeCacheKey owner path = nodeCacheKey owner' path' ->
    owner = owner' /\ path = path'.

(** The collaborators of the examples with a cache key that tells any two
    nodes apart: the owner in unary, a zero byte, the path. *)
Definition unaryKey (owner : common.Hash) (path : bytes) : bytes :=
  replicate (N.to_nat owner) Byte.x01 ++ Byte.x00 :: path.

Definition unaryKeyEnv : Env := {|
  Freezer := unit;
  SyncAncient := fun _ => None;
  Tail := fun _ => (0, None);
  Batch_Write_err := fun _ _ => None;
  hashData := fun blob => N.of_nat (length blob);
  nodeCacheKey := unaryKey;
  nodeSet_merge := fun s s' =>
    nodeSet.mk (nodeSet.size s + nodeSet.size s') (overwrite (nodeSet.nodes s) (nodeSet.nodes s'));
  nodeSet_revertTo := fun s _ nodes' =>
    nodeSet.mk (nodeSet.size s) (overwrite (nodeSet.nodes s) nodes');
  stateSet_merge := fun s s' =>
    stateSet.mk (stateSet.size s + stateSet.size s')
                (stateSet.accountData s' ∪ stateSet.accountData s)
                (union_with (fun o n => Some (n ∪ o)) (stateSet.storageData s)
                            (stateSet.storageData s'));
  stateSet_revertTo := fun s accounts storages =>
    stateSet.mk (stateSet.size s) (accounts ∪ stateSet.accountData s)
                (union_with (fun o n => Some (n ∪ o)) (stateSet.storageData s) storages);
  writeHistory := fun fz _ => (None, fz);
  truncateFromTail := fun db fz _ => ((0, None), db, fz);
  history_stateSet := fun h => (history.accounts h, history.storages h);
  stateHistoryV0 := 0
|}.

(** The layer over the store of one node, with these collaborators. *)
Definition unaryKeyLayer : @diskLayer.t unaryKeyEnv buffer.t :=
  diskLayer.mk 7%N 4 (mkDatabase unaryKeyEnv storedNodes None (mkConfig 16 0))
               (Some fastcache.New) emptyBuffer false.

(** That layer once the node of the store was read through it: the clean
    cache holds the node. *)
Definition unaryReadLayer : @diskLayer.t unaryKeyEnv buffer.t :=
  (diskLayer.node unaryKeyLayer 0%N [Byte.x0a] 0%N 0).2.

(** The forced commit of [deltaA] onto the live layer of the examples. *)
Definition forcedCommit
  : (option (@diskLayer.t exampleEnv buffer.t) * option error)
    * @diskLayer.t exampleEnv buffer.t :=
  diskLayer.commit liveLayer deltaA true.

(** The state history of the transition that [deltaA] makes, from root [7]
    to root [8]. *)
Definition historyOfDeltaA : history.t :=
  history.mk (history.mkMeta 0 7%N 8%N) ∅ ∅.

(** A diff layer on top of [unaryKeyLayer], whose state id is 4, and its
    forced commit. *)
Definition deltaC : diffLayer.t :=
  diffLayer.mk 8%N 5 5
    (nodeSet.mk 3 {[ 0%N := {[ [Byte.x0a] := trienode.mkNode 2%N [Byte.x01; Byte.x02] ]} ]})
    (stateSet.mk 0 ∅ ∅).

Definition unaryCommit
  : (option (@diskLayer.t unaryKeyEnv buffer.t) * option error)
    * @diskLayer.t unaryKeyEnv buffer.t :=
  diskLayer.commit unaryKeyLayer deltaC true.

(** The [apply] of the examples, for the layers of [unaryKeyEnv]. *)
Definition unaryApply :
  @diskLayer.t unaryKeyEnv buffer.t -> common.Hash -> common.Hash -> bool ->
  gmap common.Address bytes -> gmap common.Address (gmap common.Hash bytes) ->
  gmap common.Hash (gmap bytes trienode.Node) * option error :=
  fun _ _ _ _ _ _ =>
    ({[ 0%N := {[ [Byte.x0a] := trienode.mkNode 1%N [Byte.x09] ]} ]}, None).

(** The successor and the receiver after the revert of [unaryKeyLayer] with
    the history of the examples. *)
Definition unaryReverted
  : @diskLayer.t unaryKeyEnv buffer.t * @diskLayer.t unaryKeyEnv buffer.t :=
  match diskLayer.revert unaryApply unaryKeyLayer exampleHistory with
  | Returns ((Some ndl, _), dl') => (ndl, dl')
  | _ => (unaryKeyLayer, unaryKeyLayer)
  end.

(** ** The queue of a subfetcher *)

(** The counter [pendingSize] of a subfetcher is the length of its queue. *)
Definition pendingBalanced (sf : subfetcher.t) : Prop :=
  subfetcher.pendingSize sf = u32 (Z.of_nat (length (subfetcher.tasks sf))).

(** A subfetcher for the account trie whose trie is open, with three keys
    queued. *)
Definition queuedFetcher : subfetcher.t :=
  subfetcher.mk exampleStateDatabase 100%N 0%N 100%N 0%N (Some [])
                [common.Address_Bytes 1%N; common.Address_Bytes 2%N; common.Address_Bytes 3%N]
                true false false ∅ 0 [] 3 [].

(** ** The pruned freezer (package [rawdb])

    The chain freezer that keeps no data and only records [frozen], the
    number of the next block to freeze.  The locks, the background [freeze]
    loop and the files of [newPrunedFreezer] and [repair] are not
    represented. *)

Module prunedfreezer.
(** The errors of package [rawdb] that the pruned freezer returns. *)
Inductive error : Type :=
| errOutOrderInsertion
| errOutOfBounds
| errUnknownTable
| errNotSupported.

(** The meta database.  Modelled from the names of the accessors
    [WriteFrozenOfAncientFreezer] and [WriteOffSetOfCurrentAncientFreezer],
    which are not among the sources: each writes one scalar key. *)
Record MetaStore : Type := mkMetaStore {
  frozenOfAncientFreezer : option Z;
  offSetOfCurrentAncientFreezer : option Z
}.

Record t : Type := mk {
  db : MetaStore;    (* meta database *)
  frozen : Z;        (* uint64: block number of the next frozen block *)
  threshold : Z      (* uint64: number of recent blocks not to freeze *)
}.

Definition HasAncient (f : t) (kind : string) (number : Z) : bool * option error :=
  (false, None).

(** [known] says whether [kind] is one of the tables of the chain freezer
    (a key of [chainFreezerNoSnappy], which is not among the sources). *)
Definition Ancient (f : t) (known : bool) (number : Z) : bytes * option error :=
  if known then
    if frozen f <=? number then ([], Some errOutOfBounds)
    else ([], None)
  else ([], Some errUnknownTable).

Definition Ancients (f : t) : Z * option error := (frozen f, None).

Definition ItemAmountInAncient (f : t) : Z * option error := (0, None).

Definition AncientOffSet (f : t) : Z := frozen f.

Definition Tail (f : t) : Z * option error := (frozen f, None).

Definition AncientSize (f : t) (known : bool) : Z * option error :=
  if known then (0, None) else (0, Some errUnknownTable).

Definition AppendAncient (f : t) (number : Z) (hash header body receipts td : bytes)
  : option error * t :=
  if negb (frozen f =? number) then (Some errOutOrderInsertion, f)
  else (None, mk (db f) (u64 (frozen f + 1)) (threshold f)).

Definition TruncateHead (f : t) (items : Z) : (Z * option error) * t :=
  let preHead := frozen f in
  if items <? preHead
  then ((preHead, None),
        mk (mkMetaStore (Some items) (offSetOfCurrentAncientFreezer (db f)))
           items (threshold f))
  else ((preHead, None), f).

Definition TruncateTail (f : t) (tail : Z) : Z * option error :=
  (0, Some errNotSupported).

Definition SyncAncient (f : t) : option error * t :=
  (None, mk (mkMetaStore (Some (frozen f)) (Some (frozen f))) (frozen f) (threshold f)).
End prunedfreezer.

(** A pruned freezer whose next block to freeze is block 5. *)
Definition exampleFreezer : prunedfreezer.t :=
  prunedfreezer.mk (prunedfreezer.mkMetaStore None None) 5 90000.
(** * Properties *)

Ltac simpl_layer :=
  cbn [diskLayer.set_stale diskLayer.set_nodes diskLayer.set_buffer
       diskLayer.set_diskdb diskLayer.set_freezer
       diskLayer.root diskLayer.id diskLayer.db diskLayer.nodes
       diskLayer.buffer diskLayer.stale diskdb freezer config] in *.

(** ** Reads of the disk layer *)

(** C1.  Every read of a stale disk layer, be it [node], [account] or
    [storage], whatever its arguments, returns the error [errSnapshotStale]
    and no value: a nil blob, the zero hash and no location.  The layer is
    left as it was. *)
Theorem stale_reads_fail `{Env} {B : Type} `{!trienodebuffer B} (dl : diskLayer.t B) :
  diskLayer.stale dl = true ->
  (forall owner path hash depth,
      diskLayer.node dl owner path hash depth
      = (([], 0%N, None, Some errSnapshotStale), dl)) /\
  (forall hash depth,
      diskLayer.account dl hash depth = ([], Some errSnapshotStale)) /\
  (forall accountHash storageHash depth,
      diskLayer.storage dl accountHash storageHash depth = ([], Some errSnapshotStale)).
Proof.
  intros Hstale. repeat split; intros;
    unfold diskLayer.node, diskLayer.account, diskLayer.storage;
    now rewrite Hstale.
Qed.

(** On the stale layer of the examples. *)
Lemma stale_reads_fail_witness :
  diskLayer.stale staleLayer = true /\
  (forall owner path hash depth,
      diskLayer.node staleLayer owner path hash depth
      = (([], 0%N, None, Some errSnapshotStale), staleLayer)) /\
  (forall hash depth,
      diskLayer.account staleLayer hash depth = ([], Some errSnapshotStale)) /\
  (forall accountHash storageHash depth,
      diskLayer.storage staleLayer accountHash storageHash depth
      = ([], Some errSnapshotStale)).
Proof.
  split; [reflexivity |].
  apply (stale_reads_fail staleLayer). reflexivity.
Defined.

(** C10.  On a disk layer that is not stale, [account] and [storage] fail
    with the error "not supported" whenever the dirty buffer does not hold
    the key, and they do so whatever the clean cache and the key-value store
    contain: flat-state reads never go beyond the buffer. *)
Theorem flat_reads_stop_at_buffer `{Env} {B : Type} `{!trienodebuffer B}
    (dl : diskLayer.t B) :
  diskLayer.stale dl = false ->
  (forall hash depth,
      snd (tnb_account (diskLayer.buffer dl) hash) = false ->
      diskLayer.account dl hash depth = ([], Some errNotSupported) /\
      forall d c,
        diskLayer.account (diskLayer.set_nodes (diskLayer.set_diskdb dl d) c) hash depth
        = ([], Some errNotSupported)) /\
  (forall accountHash storageHash depth,
      snd (tnb_storage (diskLayer.buffer dl) accountHash storageHash) = false ->
      diskLayer.storage dl accountHash storageHash depth = ([], Some errNotSupported) /\
      forall d c,
        diskLayer.storage (diskLayer.set_nodes (diskLayer.set_diskdb dl d) c)
                          accountHash storageHash depth
        = ([], Some errNotSupported)).
Proof.
  intros Hlive. split.
  - intros hash depth Hmiss. unfold diskLayer.account. simpl. rewrite Hlive.
    destruct (tnb_account (diskLayer.buffer dl) hash) as [blob found].
    simpl in Hmiss. subst found. now split.
  - intros accountHash storageHash depth Hmiss. unfold diskLayer.storage. simpl.
    rewrite Hlive.
    destruct (tnb_storage (diskLayer.buffer dl) accountHash storageHash) as [blob found].
    simpl in Hmiss. subst found. now split.
Qed.

(** On the live layer of the examples, whose buffer is empty. *)
Lemma flat_reads_stop_at_buffer_witness :
  diskLayer.account liveLayer 5%N 0 = ([], Some errNotSupported) /\
  diskLayer.storage liveLayer 5%N 9%N 0 = ([], Some errNotSupported).
Proof.
  pose proof (flat_reads_stop_at_buffer liveLayer eq_refl) as [Ha Hs].
  split.
  - exact (proj1 (Ha 5%N 0 eq_refl)).
  - exact (proj1 (Hs 5%N 9%N 0 eq_refl)).
Defined.

(** C7, as stated, fails for account reads.  On the live layer of the
    examples the buffer does not hold account [5]; were the read the layered
    one it would return whatever the clean cache or the key-value store hold
    for the key, whereas [account] fails with "not supported" without looking
    at either. *)
Lemma account_read_is_not_layered :
  diskLayer.stale liveLayer = false /\
  forall clean disk : bytes,
    diskLayer.account liveLayer 5%N 0
    <> spec_read (buffer.account (diskLayer.buffer liveLayer) 5%N) clean disk.
Proof.
  split; [reflexivity |].
  intros clean disk. unfold spec_read.
  change (diskLayer.account liveLayer 5%N 0) with (@nil Byte.byte, Some errNotSupported).
  change (buffer.account (diskLayer.buffer liveLayer) 5%N) with (@nil Byte.byte, false).
  cbn [snd fst]. destruct (0 <? length clean)%nat; discriminate.
Qed.

(** C7, amended.  A node read of a disk layer that is not stale consults the
    dirty buffer first, then the clean cache when the layer has one, then the
    key-value store; a blob read from the store that is not empty is put in
    the clean cache under the key of the node, so that the same read is then
    served by the cache.  The account and storage reads consult the dirty
    buffer only and fail with "not supported" on a miss. *)
Theorem node_reads_are_layered `{Env} {B : Type} `{!trienodebuffer B}
    (dl : diskLayer.t B) (owner : common.Hash) (path : bytes) (hash : common.Hash)
    (depth : Z) :
  diskLayer.stale dl = false ->
  let key := nodeCacheKey owner path in
  let disk :=
    if decide (owner = 0%N)
    then rawdb.ReadAccountTrieNode (diskdb (diskLayer.db dl)) path
    else rawdb.ReadStorageTrieNode (diskdb (diskLayer.db dl)) owner path in
  (* the dirty buffer *)
  (forall n,
      tnb_node (diskLayer.buffer dl) owner path = Some n ->
      diskLayer.node dl owner path hash depth
      = ((trienode.Blob n, trienode.Hash n, Some (mkNodeLoc locDirtyCache depth), None), dl)) /\
  (* the clean cache *)
  (forall c,
      tnb_node (diskLayer.buffer dl) owner path = None ->
      diskLayer.nodes dl = Some c ->
      (0 < length (fastcache.Get c key))%nat ->
      diskLayer.node dl owner path hash depth
      = ((fastcache.Get c key, hashData (fastcache.Get c key),
          Some (mkNodeLoc locCleanCache depth), None), dl)) /\
  (* the key-value store, and the back-fill *)
  (forall c,
      tnb_node (diskLayer.buffer dl) owner path = None ->
      diskLayer.nodes dl = Some c ->
      fastcache.Get c key = [] ->
      diskLayer.node dl owner path hash depth
      = ((disk, hashData disk, Some (mkNodeLoc locDiskLayer depth), None),
         if (0 <? length disk)%nat
         then diskLayer.set_nodes dl (Some (fastcache.Set_ key disk c))
         else dl) /\
      ((0 < length disk)%nat ->
       let dl' := snd (diskLayer.node dl owner path hash depth) in
       diskLayer.node dl' owner path hash depth
       = ((disk, hashData disk, Some (mkNodeLoc locCleanCache depth), None), dl'))) /\
  (* the key-value store of a layer without a clean cache *)
  (tnb_node (diskLayer.buffer dl) owner path = None ->
   diskLayer.nodes dl = None ->
   diskLayer.node dl owner path hash depth
   = ((disk, hashData disk, Some (mkNodeLoc locDiskLayer depth), None), dl)) /\
  (* flat-state reads *)
  (forall h,
      diskLayer.account dl h depth
      = if snd (tnb_account (diskLayer.buffer dl) h)
        then (fst (tnb_account (diskLayer.buffer dl) h), None)
        else ([], Some errNotSupported)) /\
  (forall a s,
      diskLayer.storage dl a s depth
      = if snd (tnb_storage (diskLayer.buffer dl) a s)
        then (fst (tnb_storage (diskLayer.buffer dl) a s), None)
        else ([], Some errNotSupported)).
Proof.
  intros Hlive key disk. repeat apply conj.
  - intros n Hhit. unfold diskLayer.node. now rewrite Hlive, Hhit.
  - intros c Hmiss Hc Hlen. unfold diskLayer.node. rewrite Hlive, Hmiss, Hc.
    fold key. apply Nat.ltb_lt in Hlen. now rewrite Hlen.
  - intros c Hmiss Hc Hget.
    assert (Hfirst :
      diskLayer.node dl owner path hash depth
      = ((disk, hashData disk, Some (mkNodeLoc locDiskLayer depth), None),
         if (0 <? length disk)%nat
         then diskLayer.set_nodes dl (Some (fastcache.Set_ key disk c))
         else dl)).
    { unfold diskLayer.node. rewrite Hlive, Hmiss, Hc. fold key. rewrite Hget.
      cbn [length Nat.ltb Nat.leb]. fold disk. now destruct (0 <? length disk)%nat. }
    split; [exact Hfirst |].
    intros Hlen dl'. subst dl'. rewrite Hfirst. cbn [snd].
    apply Nat.ltb_lt in Hlen. rewrite Hlen.
    unfold diskLayer.node, diskLayer.set_nodes.
    cbn [diskLayer.stale diskLayer.buffer diskLayer.nodes diskLayer.db].
    rewrite Hlive, Hmiss. fold key.
    unfold fastcache.Get, fastcache.Set_, fastcache.Cache in *. rewrite lookup_insert_eq.
    change (default [] (Some disk)) with disk. now rewrite Hlen.
  - intros Hmiss Hc. unfold diskLayer.node. now rewrite Hlive, Hmiss, Hc.
  - intros h. unfold diskLayer.account. rewrite Hlive.
    now destruct (tnb_account (diskLayer.buffer dl) h) as [blob []].
  - intros a s. unfold diskLayer.storage. rewrite Hlive.
    now destruct (tnb_storage (diskLayer.buffer dl) a s) as [blob []].
Qed.

(** A node that only the store holds is read from the store and cached. *)
Lemma node_reads_are_layered_witness :
  diskLayer.node storedLayer 0%N [Byte.x0a] 0%N 1
  = (([Byte.x01; Byte.x02; Byte.x03], 3%N, Some (mkNodeLoc locDiskLayer 1), None),
     diskLayer.set_nodes storedLayer
       (Some (fastcache.Set_ (@nodeCacheKey exampleEnv 0%N [Byte.x0a])
                             [Byte.x01; Byte.x02; Byte.x03] fastcache.New))).
Proof.
  destruct (node_reads_are_layered storedLayer 0%N [Byte.x0a] 0%N 1 eq_refl)
    as (_ & _ & Hdisk & _).
  exact (proj1 (Hdisk fastcache.New eq_refl eq_refl eq_refl)).
Defined.

(** ** The buffer *)

(** C4.  [flush] returns at once, with no error and with the buffer, the
    store and the clean cache untouched, when the buffer is not full and
    [force] is false.  Otherwise, when the persisted state id [head] is such
    that [head + layers] (in [uint64]) is not [id], it fails with the
    alignment error, again with nothing written. *)
Theorem flush_skips_or_checks_alignment `{Env}
    (b : buffer.t) (db : KVStore) (fz : option Freezer)
    (clean : option fastcache.Cache) (id : Z) (force : bool) :
  (buffer.full b = false -> force = false ->
   buffer.flush b db fz clean id force = (None, b, db, clean)) /\
  (buffer.full b = true \/ force = true ->
   u64 (rawdb.ReadPersistentStateID db + buffer.layers b) <> id ->
   buffer.flush b db fz clean id force
   = (Some (errBufferAlignment (buffer.layers b) (rawdb.ReadPersistentStateID db) id),
      b, db, clean)).
Proof.
  split.
  - intros Hfull Hforce. unfold buffer.flush. now rewrite Hfull, Hforce.
  - intros Hgo Hmis. unfold buffer.flush.
    assert (negb (buffer.full b) && negb force = false) as ->.
    { destruct Hgo as [-> | ->]; [reflexivity | now destruct (buffer.full b)]. }
    apply Z.eqb_neq in Hmis. now rewrite Hmis.
Qed.

(** A buffer of two layers over the empty store: skipped when not forced,
    misaligned when forced towards state 3. *)
Lemma flush_skips_or_checks_alignment_witness :
  @buffer.flush exampleEnv twoLayers emptyStore None None 2 false
  = (None, twoLayers, emptyStore, None) /\
  @buffer.flush exampleEnv twoLayers emptyStore None None 3 true
  = (Some (errBufferAlignment 2 0 3), twoLayers, emptyStore, None).
Proof.
  pose proof (@flush_skips_or_checks_alignment exampleEnv twoLayers emptyStore None None)
    as Hflush.
  split.
  - exact (proj1 (Hflush 2 false) eq_refl eq_refl).
  - refine (proj2 (Hflush 3 true) (or_intror eq_refl) _). vm_compute. discriminate.
Defined.

(** Writes into one table leave the others alone, and a node write touches
    one node only. *)
Lemma put_node_other (e : common.Hash * bytes * trienode.Node) (db : KVStore)
    (owner : common.Hash) (path : bytes) :
  (e.1.1, e.1.2) <> (owner, path) ->
  diskNode (rawdb.put (writeNode e) db) owner path = diskNode db owner path.
Proof.
  destruct e as [[owner' path'] n]. cbn [fst snd]. intros Hne.
  unfold diskNode, writeNode, rawdb.ReadAccountTrieNode, rawdb.ReadStorageTrieNode.
  destruct (trienode.IsDeleted n), (decide (owner' = 0%N)), (decide (owner = 0%N));
    cbn [rawdb.put accountTrieNodes storageTrieNodes]; subst; try reflexivity.
  - rewrite lookup_delete_ne; [reflexivity | congruence].
  - rewrite lookup_delete_ne; [reflexivity | congruence].
  - rewrite lookup_insert_ne; [reflexivity | congruence].
  - rewrite lookup_insert_ne; [reflexivity | congruence].
Qed.

Lemma put_node_same (owner : common.Hash) (path : bytes) (n : trienode.Node)
    (db : KVStore) :
  diskNode (rawdb.put (writeNode (owner, path, n)) db) owner path = trienode.Blob n.
Proof.
  unfold diskNode, writeNode, rawdb.ReadAccountTrieNode, rawdb.ReadStorageTrieNode,
    trienode.IsDeleted.
  case_bool_decide as Hdel; destruct (decide (owner = 0%N));
    cbn [rawdb.put accountTrieNodes storageTrieNodes];
    rewrite ?lookup_delete_eq, ?lookup_insert_eq; cbn [default];
    try reflexivity; symmetry; now apply length_zero_iff_nil.
Qed.

Lemma put_node_persistentStateID (e : common.Hash * bytes * trienode.Node) (db : KVStore) :
  persistentStateID (rawdb.put (writeNode e) db) = persistentStateID db.
Proof.
  destruct e as [[owner path] n]. unfold writeNode.
  now destruct (trienode.IsDeleted n), (decide (owner = 0%N)).
Qed.

(** After a batch of node writes, a node that the batch holds under one value
    only reads back as that value. *)
Lemma Batch_apply_nodes (entries : list (common.Hash * bytes * trienode.Node))
    (db : KVStore) (owner : common.Hash) (path : bytes) (n : trienode.Node) :
  (owner, path, n) ∈ entries ->
  (forall n', (owner, path, n') ∈ entries -> n' = n) ->
  diskNode (Batch_apply (writeNode <$> entries) db) owner path = trienode.Blob n.
Proof.
  unfold Batch_apply. induction entries as [| e entries IH] using rev_ind.
  - intros Hin. now apply elem_of_nil in Hin.
  - intros Hin Huniq. rewrite fmap_app, fold_left_app. cbn [fmap list_fmap fold_left].
    destruct e as [[owner' path'] n'].
    destruct (decide ((owner', path') = (owner, path))) as [Heq | Hne].
    + injection Heq as -> ->.
      rewrite (Huniq n') by (apply elem_of_app; right; apply list_elem_of_singleton; reflexivity).
      apply put_node_same.
    + rewrite put_node_other by exact Hne.
      apply IH.
      * apply elem_of_app in Hin as [Hin | Hin]; [exact Hin |].
        apply list_elem_of_singleton in Hin. congruence.
      * intros n'' Hin''. apply Huniq, elem_of_app. now left.
Qed.

Lemma Batch_apply_nodes_persistentStateID
    (entries : list (common.Hash * bytes * trienode.Node)) (db : KVStore) :
  persistentStateID (Batch_apply (writeNode <$> entries) db) = persistentStateID db.
Proof.
  unfold Batch_apply. revert db. induction entries as [| e entries IH]; intros db.
  - reflexivity.
  - cbn [fmap list_fmap fold_left]. fold (writeNode <$> entries).
    rewrite IH. apply put_node_persistentStateID.
Qed.

Lemma elem_of_flatten (nodes : gmap common.Hash (gmap bytes trienode.Node))
    (owner : common.Hash) (path : bytes) (n : trienode.Node) :
  (owner, path, n) ∈ flatten nodes <->
  exists subset, nodes !! owner = Some subset /\ subset !! path = Some n.
Proof.
  unfold flatten. rewrite list_elem_of_bind. split.
  - intros ([owner' subset] & Hin & Hsub).
    apply list_elem_of_bind in Hin as ([path' n'] & Hin & Hsub').
    apply list_elem_of_singleton in Hin. injection Hin as -> -> ->.
    apply elem_of_map_to_list in Hsub, Hsub'. eauto.
  - intros (subset & Hown & Hpath). exists (owner, subset). split.
    + apply list_elem_of_bind. exists (path, n). split.
      * now apply list_elem_of_singleton.
      * now apply elem_of_map_to_list.
    + now apply elem_of_map_to_list.
Qed.

Lemma flush_proceeds `{Env}
    (b : buffer.t) (db : KVStore) (fz : option Freezer)
    (clean : option fastcache.Cache) (id : Z) (force : bool) :
  buffer.full b = true \/ force = true ->
  buffer.flush b db fz clean id force
  = let head := rawdb.ReadPersistentStateID db in
    let batch := (writeNode <$> flatten (nodeSet.nodes (buffer.nodes b)))
                 ++ [rawdb.WritePersistentStateID id] in
    if negb (u64 (head + buffer.layers b) =? id)
    then (Some (errBufferAlignment (buffer.layers b) head id), b, db, clean)
    else match fz ≫= SyncAncient with
         | Some err => (Some err, b, db, clean)
         | None =>
             let clean' :=
               (fun c => fold_left cacheNode (flatten (nodeSet.nodes (buffer.nodes b))) c)
                 <$> clean in
             match Batch_Write_err batch db with
             | Some err => (Some err, b, db, clean')
             | None => (None, buffer.reset b, Batch_apply batch db, clean')
             end
         end.
Proof.
  intros Hgo. unfold buffer.flush.
  assert (negb (buffer.full b) && negb force = false) as ->.
  { destruct Hgo as [-> | ->]; [reflexivity | now destruct (buffer.full b)]. }
  cbn zeta. destruct (negb _); [reflexivity |].
  destruct (fz ≫= SyncAncient); [reflexivity |].
  unfold nodeSet_write, writeNodes, Batch_Write. cbn [app].
  now destruct (Batch_Write_err _ db).
Qed.

(** C3.  Take a call of [flush] that goes on to persist, because the buffer
    is full or [force] is set.  If it returns no error, then the persistent
    state id of the store is [id]; the store is the old one with a single
    batch applied, made of a write or a deletion for every node of the buffer
    and of the new persistent state id; every node that the buffer held reads
    back from the store (the empty blob for a deleted node); and the buffer is
    reset: no layers, no nodes, no states.  The call does return no error when
    the ids are aligned and neither the freezer nor the store fails. *)
Theorem flush_persists `{Env}
    (b : buffer.t) (db : KVStore) (fz : option Freezer)
    (clean : option fastcache.Cache) (id : Z) (force : bool) :
  buffer.full b = true \/ force = true ->
  let batch := (writeNode <$> flatten (nodeSet.nodes (buffer.nodes b)))
               ++ [rawdb.WritePersistentStateID id] in
  (forall b' db' clean',
      buffer.flush b db fz clean id force = (None, b', db', clean') ->
      rawdb.ReadPersistentStateID db' = id /\
      db' = Batch_apply batch db /\
      (forall owner path n,
          buffer.node b owner path = Some n ->
          diskNode db' owner path = trienode.Blob n) /\
      b' = buffer.reset b /\
      buffer.layers b' = 0 /\
      buffer.empty b' = true /\
      nodeSet.nodes (buffer.nodes b') = ∅ /\
      stateSet.accountData (buffer.states b') = ∅ /\
      stateSet.storageData (buffer.states b') = ∅) /\
  (u64 (rawdb.ReadPersistentStateID db + buffer.layers b) = id ->
   fz ≫= SyncAncient = None ->
   Batch_Write_err batch db = None ->
   exists clean',
     buffer.flush b db fz clean id force
     = (None, buffer.reset b, Batch_apply batch db, clean')).
Proof.
  intros Hgo batch. rewrite (flush_proceeds b db fz clean id force Hgo).
  cbn zeta. fold batch. split.
  - intros b' db' clean' Hflush.
    destruct (negb _); [discriminate |].
    destruct (fz ≫= SyncAncient); [discriminate |].
    destruct (Batch_Write_err batch db); [discriminate |].
    injection Hflush as <- <- <-.
    assert (Hnodes : forall owner path n,
      buffer.node b owner path = Some n ->
      diskNode (Batch_apply batch db) owner path = trienode.Blob n).
    { intros owner path n Hnode. subst batch. unfold Batch_apply.
      rewrite fold_left_app. cbn [fold_left].
      change (diskNode (rawdb.put (rawdb.WritePersistentStateID id) ?d) owner path)
        with (diskNode d owner path).
      unfold buffer.node, nodeSet.node in Hnode.
      destruct (nodeSet.nodes (buffer.nodes b) !! owner) as [subset |] eqn:Hown;
        [| discriminate].
      cbn in Hnode.
      apply Batch_apply_nodes.
      - apply elem_of_flatten. eauto.
      - intros n' Hin. apply elem_of_flatten in Hin as (subset' & Hown' & Hpath').
        congruence. }
    repeat apply conj; try reflexivity; [| exact Hnodes].
    subst batch. unfold Batch_apply. rewrite fold_left_app. reflexivity.
  - intros Haligned Hsync Hwrite.
    apply Z.eqb_eq in Haligned. rewrite Haligned, Hsync, Hwrite. cbn [negb].
    eexists. reflexivity.
Qed.

(** The forced flush of that buffer towards state 2. *)
Lemma flush_persists_witness :
  flushed.1.1.1 = None /\
  rawdb.ReadPersistentStateID flushed.1.2 = 2 /\
  diskNode flushed.1.2 0%N [Byte.x0b] = [Byte.x04; Byte.x05] /\
  diskNode flushed.1.2 3%N [Byte.x0c] = [] /\
  buffer.layers flushed.1.1.2 = 0.
Proof.
  destruct (proj1 (@flush_persists exampleEnv twoLayers emptyStore None None 2 true
                     (or_intror eq_refl))
                  flushed.1.1.2 flushed.1.2 flushed.2 eq_refl)
    as (Hid & _ & Hnodes & _ & Hlayers & _).
  repeat apply conj.
  - reflexivity.
  - exact Hid.
  - exact (Hnodes 0%N [Byte.x0b] (trienode.mkNode 2%N [Byte.x04; Byte.x05]) eq_refl).
  - exact (Hnodes 3%N [Byte.x0c] (trienode.mkNode 0%N []) eq_refl).
  - exact Hlayers.
Defined.

(** C5.  [revertTo] fails, with [errStateUnrecoverable], exactly when the
    buffer aggregates no layer, and then leaves the buffer as it was.
    Otherwise it returns no error and decrements [layers]: if that leaves no
    layer the whole buffer is reset (no layers, no nodes, no states, the limit
    kept); if not, the reverse nodes are merged into the node set by the
    [revertTo] of the node set, and the reverse states into the state set
    unless the state set holds no account and no storage. *)
Theorem revertTo_unrecoverable_or_reverts `{Env}
    (b : buffer.t) (db : KVStore)
    (nodes' : gmap common.Hash (gmap bytes trienode.Node))
    (accounts : gmap common.Hash bytes)
    (storages : gmap common.Hash (gmap common.Hash bytes)) :
  0 <= buffer.layers b < 2 ^ 64 ->
  let r := buffer.revertTo b db nodes' accounts storages in
  (r.1 = Some errStateUnrecoverable <-> buffer.layers b = 0) /\
  (r.1 = None <-> buffer.layers b <> 0) /\
  (buffer.layers b = 0 -> r.2 = b) /\
  (buffer.layers b <> 0 -> buffer.layers r.2 = buffer.layers b - 1) /\
  (buffer.layers b = 1 ->
   r.2 = buffer.reset b /\
   buffer.layers r.2 = 0 /\
   buffer.limit r.2 = buffer.limit b /\
   nodeSet.nodes (buffer.nodes r.2) = ∅ /\
   stateSet.accountData (buffer.states r.2) = ∅ /\
   stateSet.storageData (buffer.states r.2) = ∅) /\
  (1 < buffer.layers b ->
   buffer.limit r.2 = buffer.limit b /\
   buffer.nodes r.2 = nodeSet_revertTo (buffer.nodes b) db nodes' /\
   buffer.states r.2
   = if bool_decide (stateSet.accountData (buffer.states b) = ∅
                     /\ stateSet.storageData (buffer.states b) = ∅)
     then buffer.states b
     else stateSet_revertTo (buffer.states b) accounts storages).
Proof.
  intros Hrange r. subst r. unfold buffer.revertTo.
  destruct (buffer.layers b =? 0) eqn:Hzero.
  - apply Z.eqb_eq in Hzero. cbn [fst snd].
    repeat apply conj; intros; first [lia | reflexivity | discriminate | congruence].
  - apply Z.eqb_neq in Hzero. cbn [buffer.layers buffer.limit buffer.nodes buffer.states].
    assert (Hdec : u64 (buffer.layers b - 1) = buffer.layers b - 1).
    { unfold u64. apply Z.mod_small. lia. }
    rewrite Hdec.
    destruct (buffer.layers b - 1 =? 0) eqn:Hone.
    + apply Z.eqb_eq in Hone. cbn [fst snd].
      repeat apply conj; intros; repeat apply conj;
        first [lia | reflexivity | discriminate | congruence | cbn; lia].
    + apply Z.eqb_neq in Hone.
      set (nonempty := negb (size (stateSet.accountData (buffer.states b)) =? 0)%nat
                       || negb (size (stateSet.storageData (buffer.states b)) =? 0)%nat).
      assert (Hne : nonempty
                    = negb (bool_decide (stateSet.accountData (buffer.states b) = ∅
                                         /\ stateSet.storageData (buffer.states b) = ∅))).
      { subst nonempty. case_bool_decide as Hempty.
        - destruct Hempty as [-> ->]. reflexivity.
        - cbn [negb].
          destruct (size (stateSet.accountData (buffer.states b)) =? 0)%nat eqn:Ha;
            [| reflexivity].
          destruct (size (stateSet.storageData (buffer.states b)) =? 0)%nat eqn:Hs;
            [| reflexivity].
          apply Nat.eqb_eq, map_size_empty_iff in Ha, Hs. tauto. }
      rewrite Hne.
      destruct (bool_decide _); cbn [negb fst snd buffer.layers buffer.limit
                                       buffer.nodes buffer.states];
        repeat apply conj; intros; repeat apply conj;
        first [lia | reflexivity | discriminate | congruence].
Qed.

(** Buffers of zero, two and one layers. *)
Lemma revertTo_unrecoverable_or_reverts_witness :
  (@buffer.revertTo exampleEnv emptyBuffer emptyStore ∅ ∅ ∅).1 = Some errStateUnrecoverable /\
  buffer.layers (@buffer.revertTo exampleEnv twoLayers emptyStore ∅ ∅ ∅).2 = 1 /\
  (@buffer.revertTo exampleEnv dirtyBuffer emptyStore ∅ ∅ ∅).2 = buffer.reset dirtyBuffer.
Proof.
  repeat apply conj.
  - apply (@revertTo_unrecoverable_or_reverts exampleEnv emptyBuffer emptyStore ∅ ∅ ∅);
      [vm_compute; split; [discriminate | reflexivity] | reflexivity].
  - apply (@revertTo_unrecoverable_or_reverts exampleEnv twoLayers emptyStore ∅ ∅ ∅);
      [vm_compute; split; [discriminate | reflexivity] | discriminate].
  - apply (@revertTo_unrecoverable_or_reverts exampleEnv dirtyBuffer emptyStore ∅ ∅ ∅);
      [vm_compute; split; [discriminate | reflexivity] | reflexivity].
Defined.

(** ** Commit and revert of the disk layer *)


Lemma buffer_revertTo_error `{Env}
    (b : buffer.t) (db : KVStore)
    (nodes' : gmap common.Hash (gmap bytes trienode.Node))
    (accounts : gmap common.Hash bytes)
    (storages : gmap common.Hash (gmap common.Hash bytes)) :
  (buffer.revertTo b db nodes' accounts storages).1
  = if buffer.empty b then Some errStateUnrecoverable else None.
Proof.
  unfold buffer.revertTo, buffer.empty.
  destruct (buffer.layers b =? 0); [reflexivity |].
  cbn [buffer.layers buffer.limit buffer.nodes buffer.states].
  destruct (u64 (buffer.layers b - 1) =? 0); [reflexivity |].
  now destruct (_ || _).
Qed.

(** C6.  [revert] fails with [errUnexpectedHistory] exactly when the root of
    the history is not the root of the disk layer (given that [apply], which
    is not part of the file, does not itself fail with that error); with
    matching roots it fails with an error wrapping [errStateUnrecoverable]
    when the state id of the layer is 0.  Past these checks, and when [apply]
    succeeds, it returns a new disk layer whose root is the parent root of the
    history and whose state id is one less: through [buffer.revertTo] when
    the buffer is not empty, the store being left alone; and otherwise by
    writing the nodes and the state id minus one as the persistent state id
    in one batch, the buffer being left alone.  The receiver is stale
    afterwards.  Every successful [revert] returns such a layer. *)
Theorem revert_checks_and_reverts `{Env}
    (apply :
       diskLayer.t buffer.t -> common.Hash -> common.Hash -> bool ->
       gmap common.Address bytes -> gmap common.Address (gmap common.Hash bytes) ->
       gmap common.Hash (gmap bytes trienode.Node) * option error)
    (dl : diskLayer.t buffer.t) (h : history.t) :
  0 <= diskLayer.id dl < 2 ^ 64 ->
  let parent := history.parent (history.meta h) in
  let applied :=
    apply dl parent (history.root (history.meta h))
          (negb (history.version (history.meta h) =? stateHistoryV0))
          (history.accounts h) (history.storages h) in
  let batch := (writeNode <$> flatten applied.1)
               ++ [rawdb.WritePersistentStateID (diskLayer.id dl - 1)] in
  let reverted :=
    buffer.revertTo (diskLayer.buffer dl) (diskdb (diskLayer.db dl)) applied.1
                    (history_stateSet h).1 (history_stateSet h).2 in
  applied.2 <> Some errUnexpectedHistory ->
  ((exists dl', diskLayer.revert apply dl h
                = Returns ((None, Some errUnexpectedHistory), dl'))
   <-> history.root (history.meta h) <> diskLayer.root dl) /\
  (history.root (history.meta h) <> diskLayer.root dl ->
   diskLayer.revert apply dl h = Returns ((None, Some errUnexpectedHistory), dl)) /\
  (history.root (history.meta h) = diskLayer.root dl ->
   diskLayer.id dl = 0 ->
   exists err,
     diskLayer.revert apply dl h = Returns ((None, Some err), dl) /\
     errors_Is err errStateUnrecoverable) /\
  (history.root (history.meta h) = diskLayer.root dl ->
   diskLayer.id dl <> 0 ->
   applied.2 = None ->
   buffer.empty (diskLayer.buffer dl) = false ->
   exists ndl dl',
     diskLayer.revert apply dl h = Returns ((Some ndl, None), dl') /\
     diskLayer.root ndl = parent /\
     diskLayer.id ndl = diskLayer.id dl - 1 /\
     diskLayer.stale ndl = false /\
     diskLayer.buffer ndl = reverted.2 /\
     diskdb (diskLayer.db ndl) = diskdb (diskLayer.db dl) /\
     diskLayer.stale dl' = true) /\
  (history.root (history.meta h) = diskLayer.root dl ->
   diskLayer.id dl <> 0 ->
   applied.2 = None ->
   buffer.empty (diskLayer.buffer dl) = true ->
   Batch_Write_err batch (diskdb (diskLayer.db dl)) = None ->
   exists ndl dl',
     diskLayer.revert apply dl h = Returns ((Some ndl, None), dl') /\
     diskLayer.root ndl = parent /\
     diskLayer.id ndl = diskLayer.id dl - 1 /\
     diskLayer.stale ndl = false /\
     diskLayer.buffer ndl = diskLayer.buffer dl /\
     diskdb (diskLayer.db ndl) = Batch_apply batch (diskdb (diskLayer.db dl)) /\
     rawdb.ReadPersistentStateID (diskdb (diskLayer.db ndl)) = diskLayer.id dl - 1 /\
     diskLayer.stale dl' = true) /\
  (forall ndl dl',
      diskLayer.revert apply dl h = Returns ((Some ndl, None), dl') ->
      diskLayer.root ndl = parent /\
      diskLayer.id ndl = diskLayer.id dl - 1 /\
      diskLayer.stale ndl = false /\
      diskLayer.stale dl' = true /\
      (if buffer.empty (diskLayer.buffer dl)
       then diskLayer.buffer ndl = diskLayer.buffer dl /\
            diskdb (diskLayer.db ndl) = Batch_apply batch (diskdb (diskLayer.db dl))
       else diskLayer.buffer ndl = reverted.2 /\
            diskdb (diskLayer.db ndl) = diskdb (diskLayer.db dl))).
Proof.
  intros Hid parent applied batch reverted Happly.
  assert (Hmismatch :
    history.root (history.meta h) <> diskLayer.root dl ->
    diskLayer.revert apply dl h = Returns ((None, Some errUnexpectedHistory), dl)).
  { intros Hne. unfold diskLayer.revert, diskLayer.rootHash.
    apply N.eqb_neq in Hne. now rewrite Hne. }
  assert (Hmatch :
    history.root (history.meta h) = diskLayer.root dl ->
    diskLayer.revert apply dl h
    = if diskLayer.id dl =? 0
      then Returns ((None, Some (errWrapped errStateUnrecoverable "zero state id")), dl)
      else match applied.2 with
           | Some err => Returns ((None, Some err), dl)
           | None =>
               let dl1 := diskLayer.set_stale dl true in
               if buffer.empty (diskLayer.buffer dl)
               then
                 match Batch_Write_err batch (diskdb (diskLayer.db dl)) with
                 | Some err => Crit "Failed to write states"
                 | None =>
                     let dl2 :=
                       diskLayer.set_nodes
                         (diskLayer.set_diskdb dl1
                            (Batch_apply batch (diskdb (diskLayer.db dl))))
                         ((fun c => fold_left cacheNode (flatten applied.1) c)
                            <$> diskLayer.nodes dl) in
                     Returns ((Some (diskLayer.newDiskLayer parent (diskLayer.id dl - 1)
                                       (diskLayer.db dl2) (diskLayer.nodes dl2)
                                       (diskLayer.buffer dl)), None), dl2)
                 end
               else
                 match reverted.1 with
                 | Some err => Returns ((None, Some err), diskLayer.set_buffer dl1 reverted.2)
                 | None =>
                     Returns ((Some (diskLayer.newDiskLayer parent (diskLayer.id dl - 1)
                                       (diskLayer.db dl) (diskLayer.nodes dl) reverted.2),
                               None), diskLayer.set_buffer dl1 reverted.2)
                 end
           end).
  { intros Heq. unfold diskLayer.revert, diskLayer.rootHash.
    apply N.eqb_eq in Heq. rewrite Heq. cbn [negb].
    destruct (diskLayer.id dl =? 0) eqn:Hzero; [reflexivity |].
    apply Z.eqb_neq in Hzero.
    assert (Hdec : u64 (diskLayer.id dl - 1) = diskLayer.id dl - 1).
    { unfold u64. apply Z.mod_small. lia. }
    fold parent. fold applied. destruct applied as [nodes' [err |]] eqn:Happlied;
      [reflexivity |].
    cbn [snd fst] in *.
    subst reverted. destruct (history_stateSet h) as [accounts storages].
    cbn [fst snd tnb_empty tnb_revertTo buffer.buffer_trienodebuffer
         diskLayer.set_stale diskLayer.buffer diskLayer.db diskLayer.id diskLayer.nodes].
    destruct (buffer.empty (diskLayer.buffer dl)); cbn [negb].
    - unfold writeNodes, Batch_Write. cbn [app]. simpl_layer.
      rewrite Hdec. fold batch.
      now destruct (Batch_Write_err batch (diskdb (diskLayer.db dl))).
    - destruct (buffer.revertTo _ _ _ _ _) as [[err |] b']; cbn [fst snd].
      + reflexivity.
      + simpl_layer. now rewrite Hdec. }
  assert (Hpid : forall db,
    rawdb.ReadPersistentStateID (Batch_apply batch db) = diskLayer.id dl - 1).
  { intros db. subst batch. unfold Batch_apply. now rewrite fold_left_app. }
  repeat apply conj.
  - intros [dl' Hrev].
    destruct (decide (history.root (history.meta h) = diskLayer.root dl)) as [Heq | Hne];
      [| exact Hne].
    exfalso. rewrite (Hmatch Heq) in Hrev.
    destruct (diskLayer.id dl =? 0); [discriminate |].
    destruct applied.2 as [err |] eqn:Herr; [congruence |].
    cbn zeta in Hrev. destruct (buffer.empty (diskLayer.buffer dl)) eqn:Hempty.
    + destruct (Batch_Write_err _ _); discriminate.
    + subst reverted. rewrite buffer_revertTo_error, Hempty in Hrev. discriminate.
  - intros Hne. eauto.
  - exact Hmismatch.
  - intros Heq Hzero. rewrite (Hmatch Heq). apply Z.eqb_eq in Hzero. rewrite Hzero.
    eexists. split; [reflexivity |]. cbn. auto.
  - intros Heq Hnz Hok Hnonempty. rewrite (Hmatch Heq).
    apply Z.eqb_neq in Hnz. rewrite Hnz, Hok. cbn zeta. rewrite Hnonempty.
    subst reverted. rewrite buffer_revertTo_error, Hnonempty.
    do 2 eexists. split; [reflexivity |]. now repeat apply conj.
  - intros Heq Hnz Hok Hempty Hwrite. rewrite (Hmatch Heq).
    apply Z.eqb_neq in Hnz. rewrite Hnz, Hok. cbn zeta. rewrite Hempty, Hwrite.
    do 2 eexists. split; [reflexivity |].
    repeat apply conj; try reflexivity. cbn. apply Hpid.
  - intros ndl dl' Hrev.
    destruct (decide (history.root (history.meta h) = diskLayer.root dl)) as [Heq | Hne];
      [| rewrite (Hmismatch Hne) in Hrev; discriminate].
    rewrite (Hmatch Heq) in Hrev.
    destruct (diskLayer.id dl =? 0); [discriminate |].
    destruct applied.2 as [err |]; [discriminate |].
    cbn zeta in Hrev. destruct (buffer.empty (diskLayer.buffer dl)) eqn:Hempty.
    + destruct (Batch_Write_err _ _); [discriminate |].
      injection Hrev as <- <-. now repeat apply conj.
    + subst reverted. rewrite buffer_revertTo_error, Hempty in Hrev.
      injection Hrev as <- <-. now repeat apply conj.
Qed.

(** Reverting the layer over the stored nodes, whose buffer is empty. *)
Lemma revert_checks_and_reverts_witness :
  exists ndl dl',
    diskLayer.revert exampleApply storedLayer exampleHistory
    = Returns ((Some ndl, None), dl') /\
    diskLayer.root ndl = 6%N /\
    diskLayer.id ndl = 3 /\
    rawdb.ReadPersistentStateID (diskdb (diskLayer.db ndl)) = 3 /\
    diskLayer.stale dl' = true.
Proof.
  assert (Hid : 0 <= diskLayer.id storedLayer < 2 ^ 64)
    by (vm_compute; split; [discriminate | reflexivity]).
  assert (Happly :
    (exampleApply storedLayer 6%N 7%N (negb (0 =? @stateHistoryV0 exampleEnv)) ∅ ∅).2
    <> Some errUnexpectedHistory) by discriminate.
  destruct (revert_checks_and_reverts exampleApply storedLayer exampleHistory Hid Happly)
    as (_ & _ & _ & _ & Hdirect & _).
  destruct (Hdirect eq_refl ltac:(discriminate) eq_refl eq_refl eq_refl)
    as (ndl & dl' & Hrev & Hroot & Hnid & _ & _ & _ & Hpid & Hstale).
  exists ndl, dl'. repeat apply conj; assumption.
Defined.

(** Whenever [commit] gets past the writing of the state history, the
    receiver is stale afterwards; when it does not, the layer is untouched
    but for its freezer, which is as [writeHistory] left it. *)
Lemma commit_marks_stale `{Env} {B : Type} `{!trienodebuffer B}
    (dl : diskLayer.t B) (bottom : diffLayer.t) (force : bool) :
  (exists fz, (diskLayer.commit dl bottom force).2 = diskLayer.set_freezer dl (Some fz)) \/
  diskLayer.stale (diskLayer.commit dl bottom force).2 = true.
Proof.
  unfold diskLayer.commit.
  destruct (match freezer (diskLayer.db dl) with Some _ => _ | None => _ end)
    as [[err fz] | [[fz overflow] oldest]]; [left; now exists fz |].
  right. simpl_layer.
  destruct (diskLayer.id dl =? 0); simpl_layer;
    destruct (tnb_flush _ _ _ _ _ _) as [[[err combined] diskdb'] nodes'];
    (destruct err as [err |]; [reflexivity |]);
    (destruct overflow; [| reflexivity]);
    unfold diskLayer.newDiskLayer; simpl_layer;
    (destruct fz as [fz |]; [| reflexivity]);
    now destruct (truncateFromTail _ fz _) as [[[pruned [err |]] diskdb''] fz'].
Qed.

(** C2: the code at the failing input.  Commit [deltaA] onto the live layer
    of the examples.  The layer is stale afterwards, and [markStale] panics
    on it.  Yet committing [deltaB] onto that same, stale, layer does not
    panic and returns no error: it returns one more successor layer, at root
    [9] and state id [1], over a buffer that has now absorbed both diff
    layers. *)
Lemma commit_on_stale_base_returns :
  diskLayer.stale staleBase = true /\
  diskLayer.markStale staleBase = Panics "triedb disk layer is stale" /\
  secondCommit.1.2 = None /\
  diskLayer.root <$> secondCommit.1.1 = Some 9%N /\
  diskLayer.id <$> secondCommit.1.1 = Some 1 /\
  diskLayer.stale <$> secondCommit.1.1 = Some false /\
  (fun ndl => buffer.layers (diskLayer.buffer ndl)) <$> secondCommit.1.1 = Some 2.
Proof.
  assert (Hstale : diskLayer.stale staleBase = true) by (vm_compute; reflexivity).
  split; [exact Hstale |].
  split; [unfold diskLayer.markStale; now rewrite Hstale |].
  repeat split; vm_compute; reflexivity.
Qed.

(** ** The trie prefetcher *)

(** C8, as stated, fails in its second half.  In the run of the examples the
    subfetcher of the account trie has loaded address [1] only, and [used]
    records both address [1] and address [2]: the second key is in [used] and
    not in [seen]. *)
Lemma used_exceeds_seen :
  exampleRun = Returns exampleFinal /\
  triePrefetcher.fetchers exampleFinal !! exampleTrieID = Some exampleFetcher /\
  ~ used_within_seen exampleFetcher.
Proof.
  split; [vm_compute; reflexivity |].
  split; [apply lookup_singleton_eq |].
  intros Hsub.
  assert (Hin : common.Address_Bytes 2%N ∈ subfetcher.used exampleFetcher)
    by (apply list_elem_of_In; right; left; reflexivity).
  apply Hsub in Hin. unfold exampleFetcher in Hin. cbn [subfetcher.seen] in Hin.
  apply elem_of_singleton in Hin. vm_compute in Hin. discriminate.
Qed.

Ltac simpl_fetcher :=
  cbn [subfetcher.set_trie subfetcher.set_tasks subfetcher.set_wake subfetcher.set_stop
       subfetcher.set_term subfetcher.set_seen subfetcher.set_dups subfetcher.set_used
       subfetcher.set_pendingSize subfetcher.set_paraChildren
       subfetcher.db subfetcher.state subfetcher.owner subfetcher.root subfetcher.addr
       subfetcher.trie subfetcher.tasks subfetcher.wake subfetcher.stop subfetcher.term
       subfetcher.seen subfetcher.dups subfetcher.used subfetcher.pendingSize
       subfetcher.paraChildren] in *.

Lemma u32_decrease (z : Z) : u32 (z + (2 ^ 32 - 1)) = u32 (z - 1).
Proof.
  unfold u32. replace (z + (2 ^ 32 - 1)) with (z - 1 + 1 * 2 ^ 32) by ring.
  apply Z_mod_plus_full.
Qed.

Lemma prefetchTask_loaded_once (sf sf' : subfetcher.t) (task : bytes) :
  loaded_once sf -> subfetcher.prefetchTask sf task = Returns sf' -> loaded_once sf'.
Proof.
  intros (loaded & Htrie & Hnodup & Hseen). unfold subfetcher.prefetchTask.
  destruct (decide (task ∈ subfetcher.seen sf)) as [Hin | Hnotin].
  - intros [= <-]. exists loaded. simpl_fetcher. auto.
  - destruct (subfetcher.trie sf) as [tr |] eqn:Htr; [| discriminate].
    intros [= <-]. exists (loaded ++ [task]). simpl_fetcher.
    cbn [default from_option id] in *.
    repeat split.
    + rewrite fmap_app, Htrie. reflexivity.
    + apply NoDup_app. repeat split; [exact Hnodup | | apply NoDup_singleton].
      intros x Hx Hx'. apply list_elem_of_singleton in Hx'. subst x.
      apply Hnotin. rewrite Hseen. now apply elem_of_list_to_set.
    + rewrite Hseen, list_to_set_app_L. cbn [list_to_set foldr].
      rewrite (right_id_L ∅ (∪)). apply (comm_L (∪)).
Qed.

Lemma prefetchTasks_loaded_once (tasks' : list bytes) (sf sf' : subfetcher.t)
    (arms : list arm) (returned : bool) :
  loaded_once sf ->
  subfetcher.prefetchTasks sf arms tasks' = Returns (sf', returned) ->
  loaded_once sf'.
Proof.
  revert sf arms. induction tasks' as [| task rest IH]; intros sf arms Hinv; cbn.
  - now intros [= <- <-].
  - destruct (hd armDefault arms).
    + now intros [= <- <-].
    + now apply IH.
    + destruct (subfetcher.prefetchTask sf task) as [sf1 | |] eqn:Htask; try discriminate.
      apply IH. eapply prefetchTask_loaded_once; eassumption.
Qed.

Lemma wakeArm_loaded_once (sf sf' : subfetcher.t) (arms : list arm) (returned : bool) :
  loaded_once sf ->
  subfetcher.wakeArm sf arms = Returns (sf', returned) ->
  loaded_once sf'.
Proof.
  intros (loaded & Htrie & Hnodup & Hseen). unfold subfetcher.wakeArm. simpl_fetcher.
  assert (Hkeep : forall sf1,
    subfetcher.addr sf1 = subfetcher.addr sf ->
    subfetcher.seen sf1 = subfetcher.seen sf ->
    default [] (subfetcher.trie sf1) = default [] (subfetcher.trie sf) ->
    loaded_once sf1).
  { intros sf1 Ha Hs Ht. exists loaded. now rewrite Ha, Hs, Ht. }
  destruct (subfetcher.trie sf) as [tr |] eqn:Htr.
  - apply prefetchTasks_loaded_once, Hkeep; simpl_fetcher; now rewrite ?Htr.
  - destruct (decide (subfetcher.owner sf = 0%N)).
    + destruct (OpenTrie _ _).
      * intros [= <- <-]. apply Hkeep; simpl_fetcher; now rewrite ?Htr.
      * apply prefetchTasks_loaded_once, Hkeep; simpl_fetcher; now rewrite ?Htr.
    + destruct (OpenStorageTrie _ _ _ _).
      * intros [= <- <-]. apply Hkeep; simpl_fetcher; now rewrite ?Htr.
      * apply prefetchTasks_loaded_once, Hkeep; simpl_fetcher; now rewrite ?Htr.
Qed.

Lemma selectLoop_loaded_once (events : list event) (sf sf' : subfetcher.t) :
  loaded_once sf -> subfetcher.selectLoop sf events = Returns sf' -> loaded_once sf'.
Proof.
  assert (Hterm : forall sf1 b, loaded_once sf1 -> loaded_once (subfetcher.set_term sf1 b)).
  { intros sf1 b (loaded & Htrie & Hnodup & Hseen). now exists loaded. }
  revert sf. induction events as [| ev events IH]; intros sf Hinv; cbn.
  - now intros [= <-].
  - destruct ev as [arms | |].
    + destruct (subfetcher.wakeArm sf arms) as [[sf1 returned] | |] eqn:Hwake;
        try discriminate.
      pose proof (wakeArm_loaded_once _ _ _ _ Hinv Hwake) as Hinv1.
      destruct returned.
      * intros [= <-]. now apply Hterm.
      * now apply IH.
    + now apply IH.
    + intros [= <-]. now apply Hterm.
Qed.

Lemma loop_loaded_once (events : list event) (sf sf' : subfetcher.t) :
  subfetcher.seen sf = ∅ ->
  subfetcher.trie sf = None ->
  subfetcher.loop sf events = Returns sf' ->
  loaded_once sf'.
Proof.
  intros Hseen Htrie. unfold subfetcher.loop.
  assert (Hfresh : forall sf1,
    subfetcher.seen sf1 = ∅ -> default [] (subfetcher.trie sf1) = [] -> loaded_once sf1).
  { intros sf1 Hs Ht. exists []. rewrite Hs, Ht. repeat split. constructor. }
  assert (Hopen : forall err sf1,
    subfetcher.openTrie sf = (err, sf1) ->
    subfetcher.seen sf1 = ∅ /\ default [] (subfetcher.trie sf1) = []).
  { intros err sf1. unfold subfetcher.openTrie.
    destruct (IsVerkle _); [| destruct (decide _)];
      (destruct (OpenTrie _ _) || destruct (OpenStorageTrie _ _ _ _));
      intros [= <- <-]; simpl_fetcher; rewrite ?Htrie; auto. }
  destruct (subfetcher.openTrie sf) as [[err |] sf1] eqn:Hopened;
    destruct (Hopen _ _ eq_refl) as [Hseen1 Htrie1].
  - intros [= <-]. apply Hfresh; simpl_fetcher; assumption.
  - apply selectLoop_loaded_once, Hfresh; assumption.
Qed.

Lemma prefetchTask_seen (sf : subfetcher.t) (task : bytes) :
  task ∈ subfetcher.seen sf ->
  subfetcher.prefetchTask sf task
  = Returns (subfetcher.set_pendingSize
               (subfetcher.set_dups sf (int64 (subfetcher.dups sf + 1)))
               (u32 (subfetcher.pendingSize sf + (2 ^ 32 - 1)))).
Proof.
  intros Hseen. unfold subfetcher.prefetchTask.
  now destruct (decide (task ∈ subfetcher.seen sf)).
Qed.

Lemma prefetchTasks_single (sf : subfetcher.t) (task : bytes) :
  subfetcher.prefetchTasks sf [armDefault] [task]
  = match subfetcher.prefetchTask sf task with
    | Returns sf' => Returns (sf', false)
    | Panics msg => Panics msg
    | Crit msg => Crit msg
    end.
Proof. reflexivity. Qed.

(** C8, amended.  When the loop of a subfetcher comes to a task whose key it
    has already loaded, it increments [dups] and makes no call on the trie
    ([seen] and the trie are unchanged; [pendingSize] decreases by one); so
    does scheduling such a key on an idle subfetcher and letting it wake up.
    Along any steps of the loop the calls made on the trie remain those for
    a duplicate-free list of keys, the keys seen, and that is so of a new
    subfetcher however its loop runs: no key is loaded twice.
    [used], on an active prefetcher that is not closed and has a subfetcher
    for the trie, appends every key it is given to the [used] list of that
    subfetcher, whether the key was seen or not, and leaves everything else
    as it was. *)
Theorem seen_keys_are_not_reloaded :
  (forall (sf : subfetcher.t) (task : bytes),
      task ∈ subfetcher.seen sf ->
      exists sf',
        subfetcher.prefetchTask sf task = Returns sf' /\
        subfetcher.dups sf' = int64 (subfetcher.dups sf + 1) /\
        (subfetcher.dups sf + 1 < 2 ^ 63 -> - 2 ^ 63 <= subfetcher.dups sf + 1 ->
         subfetcher.dups sf' = subfetcher.dups sf + 1) /\
        subfetcher.trie sf' = subfetcher.trie sf /\
        subfetcher.seen sf' = subfetcher.seen sf /\
        subfetcher.pendingSize sf' = u32 (subfetcher.pendingSize sf - 1)) /\
  (forall (sf : subfetcher.t) (key : bytes) (tr : Trie),
      key ∈ subfetcher.seen sf ->
      subfetcher.trie sf = Some tr ->
      subfetcher.tasks sf = [] ->
      exists sf',
        subfetcher.selectLoop (subfetcher.schedule sf [key]) [evWake [armDefault]]
        = Returns sf' /\
        subfetcher.dups sf' = int64 (subfetcher.dups sf + 1) /\
        subfetcher.trie sf' = Some tr /\
        subfetcher.seen sf' = subfetcher.seen sf /\
        subfetcher.tasks sf' = [] /\
        subfetcher.pendingSize sf' = u32 (subfetcher.pendingSize sf)) /\
  (forall (sf sf' : subfetcher.t) (events : list event),
      loaded_once sf ->
      subfetcher.selectLoop sf events = Returns sf' ->
      loaded_once sf') /\
  (forall (db : StateDatabase) (state owner root : common.Hash) (addr : common.Address)
          (keys : list bytes) (events : list event) (sf' : subfetcher.t),
      subfetcher.loop
        (subfetcher.schedule (subfetcher.newSubfetcher db state owner root addr) keys)
        events
      = Returns sf' ->
      loaded_once sf') /\
  (forall (p : triePrefetcher.t) (owner root : common.Hash)
          (usedAddr : list common.Address) (usedSlot : list common.Hash)
          (sf : subfetcher.t),
      triePrefetcher.fetches p = None ->
      triePrefetcher.closeMainChan p = false ->
      triePrefetcher.fetchers p !! triePrefetcher.trieID p owner root = Some sf ->
      triePrefetcher.fetchers (triePrefetcher.used p owner root usedAddr usedSlot)
        !! triePrefetcher.trieID p owner root
      = Some (subfetcher.set_used sf
                (subfetcher.used sf ++ (common.Address_Bytes <$> usedAddr)
                                    ++ (common.Hash_Bytes <$> usedSlot)))).
Proof.
  repeat apply conj.
  - intros sf task Hseen. unfold subfetcher.prefetchTask.
    destruct (decide (task ∈ subfetcher.seen sf)) as [_ | Hnot]; [| contradiction].
    eexists. split; [reflexivity |]. simpl_fetcher.
    repeat apply conj; try reflexivity.
    + intros Hhi Hlo. unfold int64.
      rewrite Z.mod_small by lia. lia.
    + apply u32_decrease.
  - intros sf key tr Hseen Htrie Htasks.
    cbn [subfetcher.selectLoop]. unfold subfetcher.wakeArm, subfetcher.schedule.
    simpl_fetcher. rewrite Htrie, Htasks. cbn [app].
    simpl_fetcher. rewrite prefetchTasks_single, prefetchTask_seen by exact Hseen.
    eexists. split; [reflexivity |]. simpl_fetcher.
    repeat apply conj; try reflexivity; [exact Htrie |].
    rewrite u32_decrease. unfold u32.
    rewrite Zminus_mod_idemp_l. f_equal. change (Z.of_nat (length [key])) with 1.
    rewrite (Z.mod_small 1) by lia. ring.
  - intros sf sf' events Hinv Hloop. eapply selectLoop_loaded_once; eassumption.
  - intros db state owner root addr keys events sf' Hloop.
    eapply loop_loaded_once; [| | exact Hloop]; reflexivity.
  - intros p owner root usedAddr usedSlot sf Hactive Hopen Hfetcher.
    unfold triePrefetcher.used. rewrite Hactive, Hopen, Hfetcher.
    cbn [triePrefetcher.set_fetchers triePrefetcher.fetchers].
    rewrite lookup_insert_eq. simpl_fetcher.
    unfold subfetcher.set_used. simpl_fetcher. now rewrite <- app_assoc.
Qed.

(** The subfetcher of the example run is handed address [1] again. *)
Lemma seen_keys_are_not_reloaded_witness :
  exists sf',
    subfetcher.prefetchTask exampleFetcher (common.Address_Bytes 1%N) = Returns sf' /\
    subfetcher.dups sf' = 1 /\
    subfetcher.trie sf' = Some [GetAccount 1%N].
Proof.
  destruct (proj1 seen_keys_are_not_reloaded exampleFetcher (common.Address_Bytes 1%N))
    as (sf' & Hstep & Hdups & _ & Htrie & _).
  - unfold exampleFetcher. cbn [subfetcher.seen]. apply elem_of_singleton. reflexivity.
  - exists sf'. split; [exact Hstep |]. split; [exact Hdups | exact Htrie].
Defined.

(** *** Parallel prefetch *)

Lemma sameTrie_refl (sf : subfetcher.t) : sameTrie sf sf.
Proof. now repeat split. Qed.

Lemma sameTrie_trans (a b c : subfetcher.t) : sameTrie a b -> sameTrie b c -> sameTrie a c.
Proof.
  intros (H1 & H2 & H3 & H4 & H5) (H1' & H2' & H3' & H4' & H5').
  repeat split; congruence.
Qed.

Lemma fed_refl (child : subfetcher.t) : fed child child.
Proof.
  split; [apply sameTrie_refl |]. exists []. rewrite app_nil_r. cbn.
  repeat split; [lia | congruence | congruence].
Qed.

Lemma fed_trans (a b c : subfetcher.t) : fed a b -> fed b c -> fed a c.
Proof.
  intros [Hab (e1 & Ht1 & Hp1 & Hc1)] [Hbc (e2 & Ht2 & Hp2 & Hc2)].
  split; [eapply sameTrie_trans; eassumption |].
  exists (e1 ++ e2). rewrite Ht2, Ht1, Hp2, Hp1, length_app, <- app_assoc.
  repeat split; [lia | |].
  - destruct e2 as [| x e2].
    + rewrite app_nil_r in H. now apply Hc1.
    + assert (He2 : x :: e2 <> []) by discriminate. apply Hc2 in He2. lia.
  - destruct e2 as [| x e2].
    + rewrite app_nil_r in H. apply Hc1 in H. cbn. lia.
    + assert (He2 : x :: e2 <> []) by discriminate. apply Hc2 in He2. lia.
Qed.

Lemma u32_small (z : Z) : 0 <= z < 2 ^ 32 -> u32 z = z.
Proof. intros Hz. unfold u32. now apply Z.mod_small. Qed.

Lemma fed_schedule (child : subfetcher.t) (chunk : list bytes) :
  0 <= subfetcher.pendingSize child < parallelTriePrefetchCapacity ->
  Z.of_nat (length chunk) <= parallelTriePrefetchCapacity - subfetcher.pendingSize child ->
  fed child (subfetcher.schedule child chunk).
Proof.
  unfold parallelTriePrefetchCapacity. intros Hp Hlen.
  split; [now repeat split |]. exists chunk.
  unfold subfetcher.schedule. simpl_fetcher.
  rewrite !u32_small by (rewrite ?u32_small; lia).
  unfold parallelTriePrefetchCapacity. repeat split; lia.
Qed.

Lemma queued_insert (children : list subfetcher.t) (i : nat) (child child' : subfetcher.t)
    (extra : list bytes) :
  children !! i = Some child ->
  subfetcher.tasks child' = subfetcher.tasks child ++ extra ->
  queued (<[i := child']> children) ≡ₚ queued children ++ extra.
Proof.
  intros Hchild Htasks. unfold queued.
  rewrite insert_take_drop by (eapply lookup_lt_Some; eassumption).
  rewrite <- (take_drop_middle children i child Hchild) at 3.
  rewrite !fmap_app, !fmap_cons, !concat_app, !concat_cons, Htasks.
  rewrite <- !app_assoc. apply Permutation_app_head, Permutation_app_head.
  apply Permutation_app_comm.
Qed.

Lemma Forall2_fed_insert (children : list subfetcher.t) (i : nat)
    (child child' : subfetcher.t) :
  children !! i = Some child -> fed child child' ->
  Forall2 fed children (<[i := child']> children).
Proof.
  intros Hchild Hfed.
  rewrite <- (list_insert_id children i child Hchild) at 1.
  apply Forall2_insert; [| exact Hfed].
  apply Forall_Forall2_diag, Forall_forall. intros; apply fed_refl.
Qed.

Lemma Forall2_fed_trans (l1 l2 l3 : list subfetcher.t) :
  Forall2 fed l1 l2 -> Forall2 fed l2 l3 -> Forall2 fed l1 l3.
Proof.
  intros H12. revert l3. induction H12 as [| a b l1 l2 Hab _ IH]; intros l3 H23.
  - now apply Forall2_nil_inv_l in H23 as ->.
  - apply Forall2_cons_inv_l in H23 as (c & l3' & Hbc & H23 & ->).
    constructor; [eapply fed_trans; eassumption | now apply IH].
Qed.

Lemma slice_join {A : Type} (l : list A) (a b c : nat) :
  (a <= b <= c)%nat -> slice l a b ++ slice l b c = slice l a c.
Proof.
  intros Habc. unfold slice.
  replace (drop b l) with (drop (b - a) (drop a l))
    by (rewrite drop_drop; f_equal; lia).
  rewrite take_take_drop. f_equal. lia.
Qed.

Lemma slice_0 {A : Type} (l : list A) (b : nat) : slice l 0 b = take b l.
Proof. unfold slice. now rewrite drop_0, Nat.sub_0_r. Qed.

Lemma slice_all {A : Type} (l : list A) : slice l 0 (length l) = l.
Proof. rewrite slice_0. now apply take_ge. Qed.

(** The first loop: every child is left as it was or fed; the keys from
    [keyIndex] on are handed out in order, up to the index returned, or all
    of them when the loop reports that it consumed them. *)
Lemma feedChildren_spec (keys : list bytes) (n childrenNum : nat) :
  Z.of_nat (length keys) + parallelTriePrefetchCapacity < 2 ^ 32 ->
  forall (childIndex : nat) (keyIndex : Z) (children children' : list subfetcher.t)
         (keyIndex' : Z) (consumed : bool),
    0 <= keyIndex <= Z.of_nat (length keys) ->
    Forall (fun c => 0 <= subfetcher.pendingSize c) children ->
    subfetcher.feedChildren n childrenNum childIndex keyIndex keys children
    = (children', keyIndex', consumed) ->
    Forall2 fed children children' /\
    keyIndex <= keyIndex' <= Z.of_nat (length keys) /\
    Forall (fun c => 0 <= subfetcher.pendingSize c) children' /\
    queued children'
    ≡ₚ queued children
       ++ slice keys (Z.to_nat keyIndex)
                (if consumed then length keys else Z.to_nat keyIndex').
Proof.
  unfold parallelTriePrefetchCapacity. intros Hlen.
  induction n as [| n IH];
    intros childIndex keyIndex children children' keyIndex' consumed Hk Hwf; cbn.
  - intros [= <- <- <-]. repeat split; try lia; try assumption.
    + apply Forall_Forall2_diag, Forall_forall. intros; apply fed_refl.
    + unfold slice. rewrite Nat.sub_diag, take_0, app_nil_r. reflexivity.
  - destruct (children !! childIndex) as [child |] eqn:Hchild.
    2:{ intros [= <- <- <-]. repeat split; try lia; try assumption.
        + apply Forall_Forall2_diag, Forall_forall. intros; apply fed_refl.
        + unfold slice. rewrite Nat.sub_diag, take_0, app_nil_r. reflexivity. }
    pose proof (Forall_lookup_1 _ _ _ _ Hwf Hchild) as Hchild0. cbn beta in Hchild0.
    unfold parallelTriePrefetchCapacity.
    destruct (20 <=? subfetcher.pendingSize child) eqn:Hfull.
    { apply IH; assumption. }
    apply Z.leb_gt in Hfull.
    rewrite (u32_small (20 - subfetcher.pendingSize child)) by lia.
    rewrite (u32_small (Z.of_nat (length keys))) by lia.
    rewrite (u32_small (keyIndex + (20 - subfetcher.pendingSize child))) by lia.
    destruct (Z.of_nat (length keys) <=? keyIndex + (20 - subfetcher.pendingSize child))
      eqn:Hlast.
    + apply Z.leb_le in Hlast. intros [= <- <- <-].
      assert (Hfed : fed child (subfetcher.schedule child
                                  (sliceFrom keys (Z.to_nat keyIndex)))).
      { apply fed_schedule; unfold parallelTriePrefetchCapacity; [lia |].
        unfold sliceFrom. rewrite length_drop. lia. }
      repeat split; try lia.
      * eapply Forall2_fed_insert; eassumption.
      * apply Forall_insert; [assumption |].
        destruct Hfed as [_ (extra & _ & -> & _)]. lia.
      * rewrite (queued_insert _ _ child _ (sliceFrom keys (Z.to_nat keyIndex)) Hchild)
          by reflexivity.
        apply Permutation_app_head. unfold slice, sliceFrom.
        rewrite take_ge by (rewrite length_drop; lia). reflexivity.
    + apply Z.leb_gt in Hlast. intros Hrest.
      set (next := keyIndex + (20 - subfetcher.pendingSize child)) in *.
      set (chunk := slice keys (Z.to_nat keyIndex) (Z.to_nat next)) in *.
      assert (Hchunk : length chunk = Z.to_nat (20 - subfetcher.pendingSize child)).
      { subst chunk. unfold slice. rewrite length_take, length_drop. subst next. lia. }
      assert (Hfed : fed child (subfetcher.schedule child chunk)).
      { apply fed_schedule; unfold parallelTriePrefetchCapacity; lia. }
      apply IH in Hrest as (Hall & Hidx & Hwf' & Hperm).
      * repeat split; try lia; try assumption.
        -- eapply Forall2_fed_trans; [| exact Hall].
           eapply Forall2_fed_insert; eassumption.
        -- rewrite Hperm.
           rewrite (queued_insert _ _ child _ chunk Hchild) by reflexivity.
           rewrite <- app_assoc. apply Permutation_app_head.
           subst chunk. rewrite slice_join; [reflexivity |].
           destruct consumed; lia.
      * lia.
      * apply Forall_insert; [assumption |].
        destruct Hfed as [_ (extra & _ & -> & _)]. lia.
Qed.

Lemma fed_pending_le (c c' : subfetcher.t) :
  fed c c' -> subfetcher.pendingSize c <= subfetcher.pendingSize c'.
Proof. intros [_ (extra & _ & -> & _)]. lia. Qed.

Lemma visited_next (num idx a : nat) :
  visited num ((idx + 1) mod num) a = visited num idx (S a).
Proof.
  unfold visited. rewrite Nat.Div0.add_mod_idemp_l. f_equal. lia.
Qed.

Lemma visited_0 (num idx : nat) : (idx < num)%nat -> visited num idx 0 = idx.
Proof. intros Hidx. unfold visited. rewrite Nat.add_0_r. now apply Nat.mod_small. Qed.

Lemma visited_later (num idx b : nat) :
  (idx < num)%nat -> (0 < b < num)%nat -> visited num idx b <> idx.
Proof.
  intros Hidx Hb. unfold visited.
  destruct (Nat.lt_ge_cases (idx + b) num) as [Hlt | Hge].
  - rewrite Nat.mod_small; lia.
  - replace (idx + b)%nat with ((idx + b - num) + 1 * num)%nat by lia.
    rewrite Nat.Div0.mod_add, Nat.mod_small; lia.
Qed.

(** The first loop visits the children in rotation from [childIndex]: a
    child visited later receives keys only when those visited before it are
    full afterwards; and when the loop does not report the keys consumed,
    every child it visited is full. *)
Lemma feedChildren_rotation (keys : list bytes) (num : nat) (n : nat) :
  Z.of_nat (length keys) + parallelTriePrefetchCapacity < 2 ^ 32 ->
  (n <= num)%nat ->
  forall (childIndex : nat) (keyIndex : Z) (children children' : list subfetcher.t)
         (keyIndex' : Z) (consumed : bool),
    length children = num ->
    (childIndex < num)%nat ->
    0 <= keyIndex <= Z.of_nat (length keys) ->
    Forall (fun c => 0 <= subfetcher.pendingSize c) children ->
    subfetcher.feedChildren n num childIndex keyIndex keys children
    = (children', keyIndex', consumed) ->
    (forall (a b : nat) (ci' cj cj' : subfetcher.t),
        (a < b < n)%nat ->
        children' !! visited num childIndex a = Some ci' ->
        children !! visited num childIndex b = Some cj ->
        children' !! visited num childIndex b = Some cj' ->
        subfetcher.tasks cj' <> subfetcher.tasks cj ->
        parallelTriePrefetchCapacity <= subfetcher.pendingSize ci') /\
    (consumed = false ->
     forall (a : nat) (ci' : subfetcher.t),
       (a < n)%nat ->
       children' !! visited num childIndex a = Some ci' ->
       parallelTriePrefetchCapacity <= subfetcher.pendingSize ci').
Proof.
  intros Hlen. induction n as [| n IH];
    intros Hn childIndex keyIndex children children' keyIndex' consumed
           Hnum Hidx Hk Hwf Hrun.
  { split; intros; lia. }
  cbn [subfetcher.feedChildren] in Hrun.
  destruct (children !! childIndex) as [child |] eqn:Hchild.
  2:{ apply lookup_ge_None in Hchild. lia. }
  pose proof (Forall_lookup_1 _ _ _ _ Hwf Hchild) as Hchild0. cbn beta in Hchild0.
  assert (Hnext : ((childIndex + 1) mod num < num)%nat) by (apply Nat.mod_upper_bound; lia).
  unfold parallelTriePrefetchCapacity in *.
  destruct (20 <=? subfetcher.pendingSize child) eqn:Hfull.
  - (* the child is already full *)
    apply Z.leb_le in Hfull.
    pose proof (feedChildren_spec keys _ _ Hlen _ _ _ _ _ _ Hk Hwf Hrun)
      as (Hall & _ & _ & _).
    assert (Hn' : (n <= num)%nat) by lia.
    destruct (IH Hn' _ _ _ _ _ _ Hnum Hnext Hk Hwf Hrun) as [IHorder IHfull].
    assert (Hfirst : forall ci', children' !! childIndex = Some ci' ->
                                 20 <= subfetcher.pendingSize ci').
    { intros ci' Hci'.
      pose proof (Forall2_lookup_lr _ _ _ _ _ _ Hall Hchild Hci') as Hfed.
      apply fed_pending_le in Hfed. lia. }
    split.
    + intros a b ci' cj cj' Hab Hci' Hcj Hcj' Hchanged.
      destruct a as [| a].
      * rewrite visited_0 in Hci' by exact Hidx. now apply Hfirst.
      * destruct b as [| b]; [lia |].
        rewrite <- visited_next in Hci', Hcj, Hcj'.
        eapply (IHorder a b); try eassumption. lia.
    + intros Hnot a ci' Ha Hci'.
      destruct a as [| a].
      * rewrite visited_0 in Hci' by exact Hidx. now apply Hfirst.
      * rewrite <- visited_next in Hci'. eapply (IHfull Hnot a); [lia | eassumption].
  - apply Z.leb_gt in Hfull.
    rewrite (u32_small (20 - subfetcher.pendingSize child)) in Hrun by lia.
    rewrite (u32_small (Z.of_nat (length keys))) in Hrun by lia.
    rewrite (u32_small (keyIndex + (20 - subfetcher.pendingSize child))) in Hrun by lia.
    destruct (Z.of_nat (length keys) <=? keyIndex + (20 - subfetcher.pendingSize child))
      eqn:Hlast.
    + (* the keys are all consumed *)
      injection Hrun as <- <- <-. split; [| discriminate].
      intros a b ci' cj cj' Hab Hci' Hcj Hcj' Hchanged.
      rewrite list_lookup_insert_ne in Hcj'
        by (apply not_eq_sym, visited_later; [exact Hidx | lia]).
      congruence.
    + apply Z.leb_gt in Hlast.
      set (next := keyIndex + (20 - subfetcher.pendingSize child)) in *.
      set (chunk := slice keys (Z.to_nat keyIndex) (Z.to_nat next)) in *.
      assert (Hchunk : length chunk = Z.to_nat (20 - subfetcher.pendingSize child)).
      { subst chunk. unfold slice. rewrite length_take, length_drop. subst next. lia. }
      assert (Hfed : fed child (subfetcher.schedule child chunk)).
      { apply fed_schedule; unfold parallelTriePrefetchCapacity; lia. }
      set (children1 := <[childIndex := subfetcher.schedule child chunk]> children) in *.
      assert (Hwf1 : Forall (fun c => 0 <= subfetcher.pendingSize c) children1).
      { apply Forall_insert; [assumption |]. apply fed_pending_le in Hfed. lia. }
      assert (Hnum1 : length children1 = num) by (subst children1; now rewrite length_insert).
      assert (Hk1 : 0 <= next <= Z.of_nat (length keys)) by lia.
      pose proof (feedChildren_spec keys _ _ Hlen _ _ _ _ _ _ Hk1 Hwf1 Hrun)
        as (Hall & _ & _ & _).
      assert (Hn' : (n <= num)%nat) by lia.
      destruct (IH Hn' _ _ _ _ _ _ Hnum1 Hnext Hk1 Hwf1 Hrun) as [IHorder IHfull].
      assert (Hfirst : forall ci', children' !! childIndex = Some ci' ->
                                   20 <= subfetcher.pendingSize ci').
      { intros ci' Hci'.
        assert (Hnew : children1 !! childIndex = Some (subfetcher.schedule child chunk)).
        { subst children1. apply list_lookup_insert_eq. apply lookup_lt_Some in Hchild. lia. }
        pose proof (Forall2_lookup_lr _ _ _ _ _ _ Hall Hnew Hci') as Hfed'.
        apply fed_pending_le in Hfed'.
        destruct Hfed as [_ (extra & Htasks & Hpend & _)].
        unfold subfetcher.schedule in Htasks. simpl_fetcher.
        apply app_inv_head in Htasks. subst extra. lia. }
      split.
      * intros a b ci' cj cj' Hab Hci' Hcj Hcj' Hchanged.
        destruct a as [| a].
        -- rewrite visited_0 in Hci' by exact Hidx. now apply Hfirst.
        -- destruct b as [| b]; [lia |].
           assert (Hcj1 : children1 !! visited num childIndex (S b) = Some cj).
           { subst children1. rewrite list_lookup_insert_ne; [exact Hcj |].
             apply not_eq_sym, visited_later; [exact Hidx | lia]. }
           rewrite <- visited_next in Hci', Hcj1, Hcj'.
           eapply (IHorder a b); try eassumption. lia.
      * intros Hnot a ci' Ha Hci'.
        destruct a as [| a].
        -- rewrite visited_0 in Hci' by exact Hidx. now apply Hfirst.
        -- rewrite <- visited_next in Hci'. eapply (IHfull Hnot a); [lia | eassumption].
Qed.

(** The second loop: with enough fuel it appends one fresh child for every
    [parallelTriePrefetchCapacity] keys left, the last one taking the rest. *)
Lemma spawnChildren_spec (sf : subfetcher.t) (keysLeft : list bytes) (fuel : nat) :
  forall (i : nat) (children : list subfetcher.t),
    (i * 20 <= length keysLeft)%nat ->
    (length keysLeft - i * 20 <= 20 * fuel)%nat ->
    exists spawned : list subfetcher.t,
      subfetcher.spawnChildren fuel i sf keysLeft children = children ++ spawned /\
      (length keysLeft - i * 20 <= 20 * length spawned)%nat /\
      (20 * length spawned < length keysLeft - i * 20 + 20)%nat /\
      Forall (spawnedBy sf) spawned /\
      queued spawned = drop (i * 20) keysLeft.
Proof.
  induction fuel as [| fuel IH]; intros i children Hi Hfuel.
  - exists []. cbn. rewrite app_nil_r. repeat split; try lia; [constructor |].
    symmetry. apply drop_ge. lia.
  - cbn [subfetcher.spawnChildren].
    change (Z.to_nat parallelTriePrefetchCapacity) with 20%nat.
    destruct (i * 20 <? length keysLeft)%nat eqn:Hmore.
    2:{ apply Nat.ltb_ge in Hmore. exists []. rewrite app_nil_r.
        repeat split; cbn; try lia; [constructor |].
        symmetry. apply drop_ge. lia. }
    apply Nat.ltb_lt in Hmore.
    destruct (length keysLeft <=? (i + 1) * 20)%nat eqn:Hlast.
    + apply Nat.leb_le in Hlast. eexists [_]. split; [reflexivity |].
      repeat split; cbn [length]; try lia.
      * constructor; [| constructor]. eexists. split; [reflexivity |].
        unfold sliceFrom, parallelTriePrefetchCapacity. rewrite length_drop. lia.
      * unfold queued. cbn. unfold subfetcher.schedule. simpl_fetcher.
        now rewrite app_nil_r.
    + apply Nat.leb_gt in Hlast.
      destruct (IH (S i) (children
                      ++ [subfetcher.schedule
                            (subfetcher.newSubfetcher (subfetcher.db sf) (subfetcher.state sf)
                               (subfetcher.owner sf) (subfetcher.root sf) (subfetcher.addr sf))
                            (slice keysLeft (i * 20) ((i + 1) * 20))]))
        as (spawned & Hrun & Hlow & Hhigh & Hall & Hqueue); [lia | lia |].
      eexists (_ :: spawned). split; [rewrite Hrun, <- app_assoc; reflexivity |].
      repeat split; cbn [length]; try lia.
      * constructor; [| exact Hall]. eexists. split; [reflexivity |].
        unfold slice, parallelTriePrefetchCapacity. rewrite length_take, length_drop. lia.
      * unfold queued in *. cbn [fmap list_fmap concat].
        change (list_fmap _ _ subfetcher.tasks spawned) with (subfetcher.tasks <$> spawned).
        rewrite Hqueue. unfold subfetcher.schedule. simpl_fetcher. cbn [app].
        unfold slice.
        replace (drop (S i * 20) keysLeft) with (drop ((i + 1) * 20 - i * 20) (drop (i * 20) keysLeft))
          by (rewrite drop_drop; f_equal; lia).
        apply take_drop.
Qed.

Lemma spawnedBy_fresh (sf child : subfetcher.t) :
  spawnedBy sf child ->
  sameTrie sf child /\
  subfetcher.pendingSize child = Z.of_nat (length (subfetcher.tasks child)) /\
  0 < subfetcher.pendingSize child <= parallelTriePrefetchCapacity /\
  subfetcher.seen child = ∅ /\
  subfetcher.paraChildren child = [].
Proof.
  intros (chunk & -> & Hlen). unfold parallelTriePrefetchCapacity in *.
  unfold subfetcher.schedule, subfetcher.newSubfetcher. simpl_fetcher. cbn [app].
  rewrite !u32_small by (rewrite ?u32_small; lia).
  repeat split; lia.
Qed.

Lemma visited_onto (num start i : nat) :
  (i < num)%nat -> exists a, (a < num)%nat /\ visited num start a = i.
Proof.
  intros Hi. exists ((i + num - start mod num) mod num)%nat.
  split; [apply Nat.mod_upper_bound; lia |].
  unfold visited. rewrite Nat.Div0.add_mod_idemp_r.
  rewrite <- (Nat.Div0.add_mod_idemp_l start).
  pose proof (Nat.mod_upper_bound start num ltac:(lia)) as Hstart.
  replace (start mod num + (i + num - start mod num))%nat with (i + 1 * num)%nat by lia.
  rewrite Nat.Div0.mod_add. now apply Nat.mod_small.
Qed.

(** [scheduleParallel] only changes the children of the subfetcher: the
    existing ones are left alone or fed, in rotation; fresh ones are
    appended, one for every [parallelTriePrefetchCapacity] keys that the
    existing ones did not take, and only when the existing ones are all
    full; and every key goes to one child. *)
Lemma scheduleParallel_spec (sf : subfetcher.t) (keys : list bytes) :
  Z.of_nat (length keys) + parallelTriePrefetchCapacity < 2 ^ 32 ->
  Forall (fun c => 0 <= subfetcher.pendingSize c) (subfetcher.paraChildren sf) ->
  exists fedChildren spawned : list subfetcher.t,
    subfetcher.scheduleParallel sf keys
    = subfetcher.set_paraChildren sf (fedChildren ++ spawned) /\
    Forall2 fed (subfetcher.paraChildren sf) fedChildren /\
    (20 * length spawned < length keys + 20)%nat /\
    Forall (spawnedBy sf) spawned /\
    queued (fedChildren ++ spawned) ≡ₚ queued (subfetcher.paraChildren sf) ++ keys /\
    fedInRotation (length keys mod length (subfetcher.paraChildren sf))
                  (subfetcher.paraChildren sf) fedChildren /\
    (spawned <> [] ->
     Forall (fun c => parallelTriePrefetchCapacity <= subfetcher.pendingSize c) fedChildren).
Proof.
  intros Hlen Hwf. unfold subfetcher.scheduleParallel.
  set (num := length (subfetcher.paraChildren sf)).
  destruct (if (0 <? num)%nat then _ else _) as [[children keyIndex] consumed] eqn:Hfeed.
  assert (Hspec :
    Forall2 fed (subfetcher.paraChildren sf) children /\
    0 <= keyIndex <= Z.of_nat (length keys) /\
    queued children
    ≡ₚ queued (subfetcher.paraChildren sf)
       ++ slice keys 0 (if consumed then length keys else Z.to_nat keyIndex) /\
    fedInRotation (length keys mod num) (subfetcher.paraChildren sf) children /\
    (consumed = false ->
     Forall (fun c => parallelTriePrefetchCapacity <= subfetcher.pendingSize c) children)).
  { destruct (0 <? num)%nat eqn:Hsome.
    - apply Nat.ltb_lt in Hsome.
      assert (Hstart : (length keys mod num < num)%nat) by (apply Nat.mod_upper_bound; lia).
      assert (Hk0 : 0 <= 0 <= Z.of_nat (length keys)) by lia.
      pose proof (feedChildren_spec keys _ _ Hlen _ _ _ _ _ _ Hk0 Hwf Hfeed)
        as (Hall & Hidx & _ & Hperm).
      pose proof (feedChildren_rotation keys num num Hlen (Nat.le_refl _) _ _ _ _ _ _
                    eq_refl Hstart Hk0 Hwf Hfeed) as [Horder Hfull].
      repeat split; [exact Hall | lia | lia | exact Hperm | exact Horder |].
      intros Hnot. apply Forall_lookup. intros i c Hc.
      assert (Hi : (i < num)%nat).
      { apply lookup_lt_Some in Hc. apply Forall2_length in Hall. subst num. lia. }
      destruct (visited_onto num (length keys mod num) i Hi) as (a & Ha & Hvisit).
      apply (Hfull Hnot a c Ha). now rewrite Hvisit.
    - apply Nat.ltb_ge in Hsome. injection Hfeed as <- <- <-.
      repeat split; try lia.
      + apply Forall_Forall2_diag, Forall_forall. intros; apply fed_refl.
      + rewrite slice_0, take_0, app_nil_r. reflexivity.
      + intros a b ci' cj cj' Hab. fold num in Hab. lia.
      + intros _. apply Forall_lookup. intros i c Hc.
        apply lookup_lt_Some in Hc. fold num in Hc. lia. }
  destruct Hspec as (Hall & Hidx & Hperm & Horder & Hfull).
  destruct consumed.
  - exists children, []. rewrite app_nil_r.
    repeat split; cbn; try lia; try assumption.
    + constructor.
    + rewrite Hperm, slice_all. reflexivity.
    + congruence.
  - unfold sliceFrom.
    destruct (spawnChildren_spec sf (drop (Z.to_nat keyIndex) keys)
                (length (drop (Z.to_nat keyIndex) keys)) 0 children)
      as (spawned & Hrun & Hlow & Hhigh & Hfresh & Hqueue); [lia | lia |].
    exists children, spawned. rewrite Hrun. repeat split; try assumption.
    + rewrite length_drop in Hhigh. lia.
    + change (0 * 20)%nat with 0%nat in Hqueue. rewrite drop_0 in Hqueue.
      unfold queued in *. rewrite fmap_app, concat_app, Hqueue, Hperm.
      rewrite <- app_assoc. apply Permutation_app_head.
      rewrite slice_0, take_drop. reflexivity.
    + intros _. now apply Hfull.
Qed.

(** The prefetch arm of [mainLoop] taken as one step is its two steps one
    after the other. *)
Lemma mainLoop_prefetch_steps (p : triePrefetcher.t) (pMsg : prefetchMsg) :
  triePrefetcher.mainLoop_prefetch p pMsg
  = triePrefetcher.mainLoop_prefetch_parallel
      (triePrefetcher.mainLoop_prefetch_schedule p pMsg) pMsg.
Proof.
  unfold triePrefetcher.mainLoop_prefetch, triePrefetcher.mainLoop_prefetch_schedule,
    triePrefetcher.mainLoop_prefetch_parallel.
  set (id := triePrefetcher.trieID p (msg_owner pMsg) (msg_root pMsg)).
  assert (Hid : forall q fs,
    triePrefetcher.trieID (triePrefetcher.set_fetchers q fs) (msg_owner pMsg) (msg_root pMsg)
    = triePrefetcher.trieID q (msg_owner pMsg) (msg_root pMsg)) by reflexivity.
  assert (Hstep : forall q fetcher,
    triePrefetcher.trieID q (msg_owner pMsg) (msg_root pMsg) = id ->
    triePrefetcher.fetchers q !! id = Some fetcher ->
    (if subfetcher.stop fetcher then q
     else triePrefetcher.set_fetchers q
            (<[id := if parallelTriePrefetchThreshold
                        <? subfetcher.pendingSize
                             (subfetcher.schedule fetcher (msg_keys pMsg))
                     then subfetcher.scheduleParallel
                            (subfetcher.schedule fetcher (msg_keys pMsg)) (msg_keys pMsg)
                     else subfetcher.schedule fetcher (msg_keys pMsg)]>
               (triePrefetcher.fetchers q)))
    = triePrefetcher.mainLoop_prefetch_parallel
        (if subfetcher.stop fetcher then q
         else triePrefetcher.set_fetchers q
                (<[id := subfetcher.schedule fetcher (msg_keys pMsg)]>
                   (triePrefetcher.fetchers q)))
        pMsg).
  { intros q fetcher Hq Hfetcher. unfold triePrefetcher.mainLoop_prefetch_parallel.
    destruct (subfetcher.stop fetcher) eqn:Hstop.
    - rewrite Hq, Hfetcher, Hstop. reflexivity.
    - rewrite Hid, Hq.
      cbn [triePrefetcher.set_fetchers triePrefetcher.fetchers].
      rewrite lookup_insert_eq.
      change (subfetcher.stop (subfetcher.schedule fetcher (msg_keys pMsg)))
        with (subfetcher.stop fetcher).
      rewrite Hstop.
      destruct (parallelTriePrefetchThreshold <? _).
      + cbn [triePrefetcher.set_fetchers triePrefetcher.fetchers
             triePrefetcher.verkle triePrefetcher.db triePrefetcher.root
             triePrefetcher.fetches triePrefetcher.noreads triePrefetcher.closeMainChan
             triePrefetcher.prefetchChan].
        now rewrite insert_insert_eq.
      + reflexivity. }
  destruct (triePrefetcher.fetchers p !! id) as [existing |] eqn:Hfetcher.
  - exact (Hstep p existing eq_refl Hfetcher).
  - apply Hstep; [reflexivity |].
    cbn [triePrefetcher.set_fetchers triePrefetcher.fetchers]. apply lookup_insert_eq.
Qed.




(** * Further properties *)

(** ** The buffer: commit, flush and revert together *)

(** X1.  A layer merged into the buffer with [commit] can be taken back:
    [revertTo] on the result does not fail and leaves the buffer with the
    number of layers it had before the commit and with its limit.  When the
    buffer was empty before, it is reset as a whole; otherwise its nodes are
    the merged nodes reverted.  The counter is a [uint64]: with
    [2 ^ 64 - 1] layers the commit wraps it to [0] and the revert fails with
    [errStateUnrecoverable]. *)
Theorem commit_then_revertTo `{Env}
    (b : buffer.t) (n : nodeSet.t) (s : stateSet.t) (db : KVStore)
    (nodes' : gmap common.Hash (gmap bytes trienode.Node))
    (accounts : gmap common.Hash bytes)
    (storages : gmap common.Hash (gmap common.Hash bytes)) :
  0 <= buffer.layers b < 2 ^ 64 ->
  let r := buffer.revertTo (buffer.commit b n s) db nodes' accounts storages in
  (buffer.layers b < 2 ^ 64 - 1 ->
   r.1 = None /\
   buffer.layers r.2 = buffer.layers b /\
   buffer.limit r.2 = buffer.limit b /\
   (buffer.layers b = 0 -> r.2 = buffer.reset (buffer.commit b n s)) /\
   (0 < buffer.layers b ->
    buffer.nodes r.2
    = nodeSet_revertTo (nodeSet_merge (buffer.nodes b) n) db nodes')) /\
  (buffer.layers b = 2 ^ 64 - 1 ->
   r = (Some errStateUnrecoverable, buffer.commit b n s)).
Proof.
  intros Hrange r. subst r. unfold buffer.revertTo, buffer.commit.
  cbn [buffer.layers buffer.limit buffer.nodes buffer.states]. split.
  - intros Hmax.
    assert (Hinc : u64 (buffer.layers b + 1) = buffer.layers b + 1).
    { unfold u64. apply Z.mod_small. lia. }
    rewrite Hinc.
    assert (Hdec : u64 (buffer.layers b + 1 - 1) = buffer.layers b).
    { unfold u64. rewrite Z.add_simpl_r. apply Z.mod_small. lia. }
    rewrite Hdec.
    destruct (buffer.layers b + 1 =? 0) eqn:Hzero; [apply Z.eqb_eq in Hzero; lia |].
    destruct (buffer.layers b =? 0) eqn:Hone.
    + apply Z.eqb_eq in Hone. cbn [fst snd].
      unfold buffer.reset. cbn [buffer.layers buffer.limit buffer.nodes buffer.states].
      repeat apply conj; first [reflexivity | congruence | lia].
    + apply Z.eqb_neq in Hone.
      destruct (negb _ || negb _); cbn [fst snd buffer.layers buffer.limit buffer.nodes];
        repeat apply conj; first [reflexivity | lia | intros; reflexivity].
  - intros Hmax. rewrite Hmax.
    change (u64 (2 ^ 64 - 1 + 1)) with 0. reflexivity.
Qed.

(** A commit onto the buffer of two layers of the examples, and its revert. *)
Lemma commit_then_revertTo_witness :
  (@buffer.revertTo exampleEnv
     (@buffer.commit exampleEnv twoLayers (diffLayer.nodes deltaA) (diffLayer.states deltaA))
     emptyStore ∅ ∅ ∅).1 = None /\
  buffer.layers
    (@buffer.revertTo exampleEnv
       (@buffer.commit exampleEnv twoLayers (diffLayer.nodes deltaA) (diffLayer.states deltaA))
       emptyStore ∅ ∅ ∅).2 = 2.
Proof.
  assert (Hrange : 0 <= buffer.layers twoLayers < 2 ^ 64) by (cbn; lia).
  assert (Hmax : buffer.layers twoLayers < 2 ^ 64 - 1) by (cbn; lia).
  destruct (proj1 (@commit_then_revertTo exampleEnv twoLayers (diffLayer.nodes deltaA)
                     (diffLayer.states deltaA) emptyStore ∅ ∅ ∅ Hrange) Hmax)
    as (Herr & Hlayers & _).
  split; [exact Herr | exact Hlayers].
Defined.

(** X2.  A flush that fails has changed neither the buffer nor the store,
    whichever of its three failures it is: the ids are not aligned, the
    freezer cannot be synced, or the batch cannot be written. *)
Theorem flush_failure_changes_nothing `{Env}
    (b b' : buffer.t) (db db' : KVStore) (fz : option Freezer)
    (clean clean' : option fastcache.Cache) (id : Z) (force : bool) (err : error) :
  buffer.flush b db fz clean id force = (Some err, b', db', clean') ->
  b' = b /\ db' = db /\
  (err = errBufferAlignment (buffer.layers b) (rawdb.ReadPersistentStateID db) id /\
   u64 (rawdb.ReadPersistentStateID db + buffer.layers b) <> id /\ clean' = clean
   \/ fz ≫= SyncAncient = Some err /\ clean' = clean
   \/ Batch_Write_err ((writeNode <$> flatten (nodeSet.nodes (buffer.nodes b)))
                       ++ [rawdb.WritePersistentStateID id]) db = Some err).
Proof.
  intros Hflush.
  destruct (negb (buffer.full b) && negb force) eqn:Hskip.
  - unfold buffer.flush in Hflush. rewrite Hskip in Hflush. discriminate.
  - assert (Hgo : buffer.full b = true \/ force = true).
    { destruct (buffer.full b); [now left | right]. now destruct force. }
    rewrite (flush_proceeds b db fz clean id force Hgo) in Hflush. cbn zeta in Hflush.
    destruct (u64 (rawdb.ReadPersistentStateID db + buffer.layers b) =? id) eqn:Halign;
      cbn [negb] in Hflush.
    + destruct (fz ≫= SyncAncient) as [e |] eqn:Hsync.
      * injection Hflush as <- <- <- <-.
        split; [reflexivity | split; [reflexivity | right; left; now split]].
      * destruct (Batch_Write_err _ db) as [e |] eqn:Hwrite; [| discriminate].
        injection Hflush as <- <- <- <-.
        split; [reflexivity | split; [reflexivity | right; right; reflexivity]].
    + apply Z.eqb_neq in Halign. injection Hflush as <- <- <- <-.
      split; [reflexivity | split; [reflexivity | left; now repeat split]].
Qed.

(** The misaligned flush of the examples. *)
Lemma flush_failure_changes_nothing_witness :
  @buffer.flush exampleEnv twoLayers emptyStore None None 3 true
  = (Some (errBufferAlignment 2 0 3), twoLayers, emptyStore, None) /\
  twoLayers = twoLayers /\ emptyStore = emptyStore.
Proof.
  assert (Hflush : @buffer.flush exampleEnv twoLayers emptyStore None None 3 true
                   = (Some (errBufferAlignment 2 0 3), twoLayers, emptyStore, None))
    by (vm_compute; reflexivity).
  destruct (@flush_failure_changes_nothing exampleEnv _ _ _ _ _ _ _ _ _ _ Hflush)
    as (Hb & Hdb & _).
  split; [exact Hflush | split; [exact Hb | exact Hdb]].
Defined.

Lemma flatten_empty : flatten (∅ : gmap common.Hash (gmap bytes trienode.Node)) = [].
Proof. unfold flatten. now rewrite map_to_list_empty. Qed.

Lemma flush_succeeds `{Env}
    (b b' : buffer.t) (db db' : KVStore) (fz : option Freezer)
    (clean clean' : option fastcache.Cache) (id : Z) (force : bool) :
  buffer.full b = true \/ force = true ->
  buffer.flush b db fz clean id force = (None, b', db', clean') ->
  u64 (rawdb.ReadPersistentStateID db + buffer.layers b) = id /\
  fz ≫= SyncAncient = None /\
  b' = buffer.reset b /\
  db' = rawdb.put (rawdb.WritePersistentStateID id)
          (Batch_apply (writeNode <$> flatten (nodeSet.nodes (buffer.nodes b))) db).
Proof.
  intros Hgo Hflush.
  rewrite (flush_proceeds b db fz clean id force Hgo) in Hflush. cbn zeta in Hflush.
  destruct (u64 (rawdb.ReadPersistentStateID db + buffer.layers b) =? id) eqn:Halign;
    cbn [negb] in Hflush; [| discriminate].
  apply Z.eqb_eq in Halign.
  destruct (fz ≫= SyncAncient); [discriminate |].
  destruct (Batch_Write_err _ db); [discriminate |].
  injection Hflush as <- <- <-.
  repeat apply conj; try reflexivity; [exact Halign |].
  unfold Batch_apply. now rewrite fold_left_app.
Qed.

(** X3.  Once a flush has persisted the buffer, the buffer answers no read:
    every node, account and storage lookup misses; it holds no layer, so
    that a revert through it fails with [errStateUnrecoverable]; and its
    size is zero. *)
Theorem flushed_buffer_holds_nothing `{Env}
    (b b' : buffer.t) (db db' : KVStore) (fz : option Freezer)
    (clean clean' : option fastcache.Cache) (id : Z) (force : bool) :
  buffer.full b = true \/ force = true ->
  buffer.flush b db fz clean id force = (None, b', db', clean') ->
  (forall owner path, buffer.node b' owner path = None) /\
  (forall hash, buffer.account b' hash = ([], false)) /\
  (forall addrHash storageHash, buffer.storage b' addrHash storageHash = ([], false)) /\
  (forall db'' nodes' accounts storages,
      buffer.revertTo b' db'' nodes' accounts storages
      = (Some errStateUnrecoverable, b')) /\
  buffer.empty b' = true /\
  buffer.size b' = 0.
Proof.
  intros Hgo Hflush.
  destruct (flush_succeeds _ _ _ _ _ _ _ _ _ Hgo Hflush) as (_ & _ & -> & _).
  repeat apply conj; reflexivity.
Qed.

(** The buffer left by the forced flush of the examples. *)
Lemma flushed_buffer_holds_nothing_witness :
  buffer.node flushed.1.1.2 0%N [Byte.x0b] = None /\
  buffer.account flushed.1.1.2 5%N = ([], false) /\
  buffer.empty flushed.1.1.2 = true.
Proof.
  destruct (@flushed_buffer_holds_nothing exampleEnv twoLayers flushed.1.1.2
              emptyStore flushed.1.2 None None flushed.2 2 true
              (or_intror eq_refl) eq_refl)
    as (Hnode & Haccount & _ & _ & Hempty & _).
  repeat apply conj; [apply Hnode | apply Haccount | exact Hempty].
Defined.

Lemma flush_of_reset `{Env}
    (b : buffer.t) (db : KVStore) (fz : option Freezer)
    (clean : option fastcache.Cache) (head id : Z) :
  persistentStateID db = Some head ->
  u64 head = head ->
  buffer.flush (buffer.reset b) db fz clean id true
  = if negb (head =? id)
    then (Some (errBufferAlignment 0 head id), buffer.reset b, db, clean)
    else match fz ≫= SyncAncient with
         | Some err => (Some err, buffer.reset b, db, clean)
         | None =>
             match Batch_Write_err [rawdb.WritePersistentStateID id] db with
             | Some err => (Some err, buffer.reset b, db, clean)
             | None => (None, buffer.reset b, db, clean)
             end
         end.
Proof.
  intros Hhead Hrange.
  rewrite (flush_proceeds _ db fz clean id true (or_intror eq_refl)). cbn zeta.
  change (nodeSet.nodes (buffer.nodes (buffer.reset b))) with
    (∅ : gmap common.Hash (gmap bytes trienode.Node)).
  rewrite flatten_empty. cbn [fmap list_fmap app fold_left].
  change (buffer.layers (buffer.reset b)) with 0.
  change (buffer.reset (buffer.reset b)) with (buffer.reset b).
  unfold rawdb.ReadPersistentStateID. rewrite Hhead. cbn [default from_option].
  change (Datatypes.id head) with head. rewrite Z.add_0_r, Hrange.
  destruct (head =? id) eqn:Halign; cbn [negb]; [| reflexivity].
  apply Z.eqb_eq in Halign.
  destruct (fz ≫= SyncAncient); [reflexivity |].
  assert (Hsame : Batch_apply [rawdb.WritePersistentStateID id] db = db).
  { destruct db. cbn in Hhead. cbn. congruence. }
  rewrite Hsame. destruct clean; reflexivity.
Qed.

(** X4.  After a flush has persisted state [id], flushing again towards the
    same [id] finds the ids aligned and changes nothing when the freezer and
    the store do not fail, while a flush towards any other id fails with the
    alignment error: the persisted id only moves together with buffered
    layers. *)
Theorem flush_again `{Env}
    (b b' : buffer.t) (db db' : KVStore) (fz : option Freezer)
    (clean clean' : option fastcache.Cache) (id : Z) (force : bool) :
  buffer.full b = true \/ force = true ->
  buffer.flush b db fz clean id force = (None, b', db', clean') ->
  (Batch_Write_err [rawdb.WritePersistentStateID id] db' = None ->
   buffer.flush b' db' fz clean' id true = (None, b', db', clean')) /\
  (forall id', id' <> id ->
     buffer.flush b' db' fz clean' id' true
     = (Some (errBufferAlignment 0 id id'), b', db', clean')).
Proof.
  intros Hgo Hflush.
  destruct (flush_succeeds _ _ _ _ _ _ _ _ _ Hgo Hflush) as (Halign & Hsync & -> & ->).
  assert (Hid : u64 id = id).
  { rewrite <- Halign. unfold u64. apply Z.mod_mod. discriminate. }
  set (db1 := rawdb.put _ _).
  assert (Hhead : persistentStateID db1 = Some id) by reflexivity.
  clearbody db1. clear Hflush. split.
  - intros Hwrite. rewrite (flush_of_reset b db1 fz clean' id id Hhead Hid).
    rewrite Z.eqb_refl, Hsync, Hwrite. reflexivity.
  - intros id' Hother. rewrite (flush_of_reset b db1 fz clean' id id' Hhead Hid).
    destruct (id =? id') eqn:Heq; [apply Z.eqb_eq in Heq; congruence | reflexivity].
Qed.

(** The store of the examples after its flush towards state 2: a second
    flush towards 2 changes nothing, one towards 3 is refused. *)
Lemma flush_again_witness :
  @buffer.flush exampleEnv flushed.1.1.2 flushed.1.2 None flushed.2 2 true
  = (None, flushed.1.1.2, flushed.1.2, flushed.2) /\
  @buffer.flush exampleEnv flushed.1.1.2 flushed.1.2 None flushed.2 3 true
  = (Some (errBufferAlignment 0 2 3), flushed.1.1.2, flushed.1.2, flushed.2).
Proof.
  destruct (@flush_again exampleEnv twoLayers flushed.1.1.2 emptyStore flushed.1.2
              None None flushed.2 2 true (or_intror eq_refl) eq_refl)
    as (Hsame & Hother).
  split; [exact (Hsame eq_refl) | apply Hother; discriminate].
Defined.

(** ** Node reads and the clean cache *)

(** X5.  Reading a node twice gives the same answer: the second read of the
    same node, on the layer as the first read left it, returns the same
    blob, the same hash and the same error, and leaves the layer as it is.
    A read changes nothing of a layer but its clean cache. *)
Theorem node_read_is_repeatable `{Env} {B : Type} `{!trienodebuffer B}
    (dl : diskLayer.t B) (owner : common.Hash) (path : bytes)
    (hash hash' : common.Hash) (depth depth' : Z) :
  let r1 := diskLayer.node dl owner path hash depth in
  let r2 := diskLayer.node r1.2 owner path hash' depth' in
  r2.1.1.1.1 = r1.1.1.1.1 /\
  r2.1.1.1.2 = r1.1.1.1.2 /\
  r2.1.2 = r1.1.2 /\
  r2.2 = r1.2 /\
  diskLayer.set_nodes r1.2 (diskLayer.nodes dl) = dl.
Proof.
  cbn zeta.
  destruct (diskLayer.node dl owner path hash depth) as [[[[blob h] l] err] dl1] eqn:Hr1.
  cbn [fst snd]. unfold diskLayer.node in Hr1.
  assert (Heta : diskLayer.set_nodes dl (diskLayer.nodes dl) = dl) by now destruct dl.
  destruct (diskLayer.stale dl) eqn:Hstale.
  { injection Hr1 as <- <- <- <- <-. unfold diskLayer.node. rewrite Hstale. cbn [fst snd].
    repeat apply conj; try reflexivity. exact Heta. }
  destruct (tnb_node (diskLayer.buffer dl) owner path) as [n |] eqn:Hbuf.
  { injection Hr1 as <- <- <- <- <-. unfold diskLayer.node. rewrite Hstale, Hbuf.
    cbn [fst snd]. repeat apply conj; try reflexivity. exact Heta. }
  destruct (diskLayer.nodes dl) as [c |] eqn:Hcache.
  2: { injection Hr1 as <- <- <- <- <-. unfold diskLayer.node.
       rewrite Hstale, Hbuf, Hcache. cbn [fst snd].
       repeat apply conj; try reflexivity. exact Heta. }
  destruct (0 <? length (fastcache.Get c (nodeCacheKey owner path)))%nat eqn:Hhit.
  { injection Hr1 as <- <- <- <- <-. unfold diskLayer.node.
    rewrite Hstale, Hbuf, Hcache, Hhit. cbn [fst snd].
    repeat apply conj; try reflexivity. exact Heta. }
  fold (diskNode (diskdb (diskLayer.db dl)) owner path) in Hr1.
  destruct (0 <? length (diskNode (diskdb (diskLayer.db dl)) owner path))%nat eqn:Hblob.
  - injection Hr1 as <- <- <- <- <-. unfold diskLayer.node. simpl_layer.
    rewrite Hstale, Hbuf.
    unfold fastcache.Get, fastcache.Set_, fastcache.Cache in *.
    rewrite lookup_insert_eq. cbn [default from_option Datatypes.id].
    rewrite Hblob. cbn [fst snd].
    repeat apply conj; try reflexivity. destruct dl. cbn in *. now subst.
  - injection Hr1 as <- <- <- <- <-. unfold diskLayer.node.
    rewrite Hstale, Hbuf, Hcache, Hhit.
    fold (diskNode (diskdb (diskLayer.db dl)) owner path). rewrite Hblob. cbn [fst snd].
    repeat apply conj; try reflexivity. exact Heta.
Qed.

(** X6.  On a live layer whose clean cache agrees with the store, a node
    read never fails and returns the node of the dirty buffer when the
    buffer holds one, and otherwise the blob of the store, hashed: the
    clean cache changes where a blob is found, not which blob.  A node that
    neither the buffer nor the store holds is read as the empty blob. *)
Theorem coherent_node_reads `{Env} {B : Type} `{!trienodebuffer B}
    (dl : diskLayer.t B) (owner : common.Hash) (path : bytes)
    (hash : common.Hash) (depth : Z) :
  diskLayer.stale dl = false ->
  cacheCoherent (diskLayer.nodes dl) (diskdb (diskLayer.db dl)) ->
  let r := diskLayer.node dl owner path hash depth in
  r.1.2 = None /\
  (forall n, tnb_node (diskLayer.buffer dl) owner path = Some n ->
             r.1.1.1 = (trienode.Blob n, trienode.Hash n)) /\
  (tnb_node (diskLayer.buffer dl) owner path = None ->
   r.1.1.1 = (diskNode (diskdb (diskLayer.db dl)) owner path,
              hashData (diskNode (diskdb (diskLayer.db dl)) owner path))).
Proof.
  intros Hstale Hcoherent. cbn zeta. unfold diskLayer.node. rewrite Hstale.
  destruct (tnb_node (diskLayer.buffer dl) owner path) as [n |] eqn:Hbuf.
  { cbn [fst snd]. repeat apply conj; [reflexivity | | discriminate].
    intros n' [= <-]. reflexivity. }
  destruct (diskLayer.nodes dl) as [c |] eqn:Hcache.
  - destruct (0 <? length (fastcache.Get c (nodeCacheKey owner path)))%nat eqn:Hhit.
    + cbn [fst snd]. repeat apply conj; [reflexivity | discriminate |].
      intros _. apply Nat.ltb_lt in Hhit.
      now rewrite (Hcoherent c owner path eq_refl Hhit).
    + cbn [fst snd]. repeat apply conj; [reflexivity | discriminate | reflexivity].
  - cbn [fst snd]. repeat apply conj; [reflexivity | discriminate | reflexivity].
Qed.

(** On the layer over the store of one node: the node is read from the
    store, and a node the store does not hold is read as the empty blob. *)
Lemma coherent_node_reads_witness :
  (diskLayer.node storedLayer 0%N [Byte.x0a] 0%N 0).1.1.1
  = ([Byte.x01; Byte.x02; Byte.x03], 3%N) /\
  (diskLayer.node storedLayer 0%N [Byte.x0b] 0%N 0).1.1.1 = ([], 0%N).
Proof.
  assert (Hcoherent : @cacheCoherent exampleEnv (diskLayer.nodes storedLayer)
                        (diskdb (diskLayer.db storedLayer))).
  { intros c owner path [= <-] Hhit. exfalso. revert Hhit.
    unfold fastcache.Get, fastcache.New, fastcache.Cache.
    rewrite lookup_empty. cbn. lia. }
  split.
  - exact (proj2 (proj2 (@coherent_node_reads exampleEnv buffer.t _ storedLayer 0%N
                           [Byte.x0a] 0%N 0 eq_refl Hcoherent)) eq_refl).
  - exact (proj2 (proj2 (@coherent_node_reads exampleEnv buffer.t _ storedLayer 0%N
                           [Byte.x0b] 0%N 0 eq_refl Hcoherent)) eq_refl).
Defined.

Lemma unaryKey_distinct (owner : common.Hash) (path : bytes)
    (owner' : common.Hash) (path' : bytes) :
  unaryKey owner path = unaryKey owner' path' -> owner = owner' /\ path = path'.
Proof.
  unfold unaryKey. intros Hkey.
  assert (Hnat : forall n m : nat,
             replicate n Byte.x01 ++ Byte.x00 :: path
             = replicate m Byte.x01 ++ Byte.x00 :: path' -> n = m /\ path = path').
  { induction n as [| n IH]; intros [| m] Heq; cbn in Heq.
    - injection Heq as ->. now split.
    - discriminate.
    - discriminate.
    - injection Heq as Heq. destruct (IH m Heq) as [-> ->]. now split. }
  destruct (Hnat _ _ Hkey) as [Hn ->]. split; [| reflexivity].
  now apply N2Nat.inj.
Qed.

(** X7.  When no two nodes share a cache key, a node read keeps the clean
    cache in agreement with the store: what a read from the store puts into
    the cache is the blob of that node. *)
Theorem node_keeps_cache_coherent `{Env} {B : Type} `{!trienodebuffer B}
    (dl : diskLayer.t B) (owner : common.Hash) (path : bytes)
    (hash : common.Hash) (depth : Z) :
  distinctCacheKeys ->
  cacheCoherent (diskLayer.nodes dl) (diskdb (diskLayer.db dl)) ->
  let dl' := (diskLayer.node dl owner path hash depth).2 in
  cacheCoherent (diskLayer.nodes dl') (diskdb (diskLayer.db dl')).
Proof.
  intros Hdistinct Hcoherent. cbn zeta. unfold diskLayer.node.
  destruct (diskLayer.stale dl); [exact Hcoherent |].
  destruct (tnb_node (diskLayer.buffer dl) owner path); [exact Hcoherent |].
  destruct (diskLayer.nodes dl) as [c |] eqn:Hcache;
    [| cbn [snd]; now rewrite Hcache].
  destruct (0 <? length (fastcache.Get c (nodeCacheKey owner path)))%nat;
    [cbn [snd]; now rewrite Hcache |].
  fold (diskNode (diskdb (diskLayer.db dl)) owner path).
  destruct (0 <? length (diskNode (diskdb (diskLayer.db dl)) owner path))%nat;
    [| cbn [snd]; now rewrite Hcache].
  cbn [snd]. simpl_layer.
  intros c' owner' path' [= <-].
  unfold fastcache.Get, fastcache.Set_, fastcache.Cache in *.
  destruct (decide (nodeCacheKey owner path = nodeCacheKey owner' path')) as [Hkey | Hkey].
  - destruct (Hdistinct _ _ _ _ Hkey) as [<- <-].
    rewrite lookup_insert_eq. reflexivity.
  - rewrite lookup_insert_ne by exact Hkey.
    intros Hhit. exact (Hcoherent c owner' path' eq_refl Hhit).
Qed.

(** On the layer over the store of one node, once the node was read. *)
Lemma node_keeps_cache_coherent_witness :
  @cacheCoherent unaryKeyEnv
    (diskLayer.nodes (diskLayer.node unaryKeyLayer 0%N [Byte.x0a] 0%N 0).2)
    (diskdb (diskLayer.db (diskLayer.node unaryKeyLayer 0%N [Byte.x0a] 0%N 0).2)).
Proof.
  apply (@node_keeps_cache_coherent unaryKeyEnv buffer.t _ unaryKeyLayer 0%N [Byte.x0a] 0%N 0).
  - exact unaryKey_distinct.
  - intros c owner path [= <-] Hhit. exfalso. revert Hhit.
    unfold fastcache.Get, fastcache.New, fastcache.Cache.
    rewrite lookup_empty. cbn. lia.
Defined.

Lemma cacheNode_coherent `{Env} (c : fastcache.Cache) (db : KVStore)
    (e : common.Hash * bytes * trienode.Node) :
  distinctCacheKeys ->
  cacheCoherent (Some c) db ->
  cacheCoherent (Some (cacheNode c e)) (rawdb.put (writeNode e) db).
Proof.
  intros Hdistinct Hcoherent c' owner' path' [= <-].
  destruct e as [[owner path] n].
  destruct (decide (nodeCacheKey owner path = nodeCacheKey owner' path')) as [Hkey | Hkey].
  - destruct (Hdistinct _ _ _ _ Hkey) as [<- <-]. rewrite put_node_same.
    unfold cacheNode, trienode.IsDeleted, fastcache.Get, fastcache.Set_, fastcache.Del,
      fastcache.Cache.
    case_bool_decide as Hdel.
    + rewrite lookup_delete_eq. cbn. lia.
    + rewrite lookup_insert_eq. reflexivity.
  - rewrite put_node_other by (cbn [fst snd]; congruence).
    assert (Hget : fastcache.Get (cacheNode c (owner, path, n)) (nodeCacheKey owner' path')
                   = fastcache.Get c (nodeCacheKey owner' path')).
    { unfold cacheNode, fastcache.Get, fastcache.Set_, fastcache.Del, fastcache.Cache.
      destruct (trienode.IsDeleted n).
      - now rewrite lookup_delete_ne.
      - now rewrite lookup_insert_ne. }
    rewrite Hget. exact (Hcoherent c owner' path' eq_refl).
Qed.

Lemma writeNodes_coherent `{Env}
    (entries : list (common.Hash * bytes * trienode.Node))
    (c : fastcache.Cache) (db : KVStore) :
  distinctCacheKeys ->
  cacheCoherent (Some c) db ->
  cacheCoherent (Some (fold_left cacheNode entries c))
                (Batch_apply (writeNode <$> entries) db).
Proof.
  intros Hdistinct. unfold Batch_apply. revert c db.
  induction entries as [| e entries IH]; intros c db Hcoherent; [exact Hcoherent |].
  cbn [fmap list_fmap fold_left]. apply IH. now apply cacheNode_coherent.
Qed.

Lemma flush_coherent `{Env}
    (b b' : buffer.t) (db db' : KVStore) (fz : option Freezer)
    (clean clean' : option fastcache.Cache) (id : Z) (force : bool) :
  distinctCacheKeys ->
  cacheCoherent clean db ->
  buffer.flush b db fz clean id force = (None, b', db', clean') ->
  cacheCoherent clean' db'.
Proof.
  intros Hdistinct Hcoherent Hflush.
  destruct (negb (buffer.full b) && negb force) eqn:Hskip.
  - unfold buffer.flush in Hflush. rewrite Hskip in Hflush.
    injection Hflush as <- <- <-. exact Hcoherent.
  - assert (Hgo : buffer.full b = true \/ force = true).
    { destruct (buffer.full b); [now left | right]. now destruct force. }
    rewrite (flush_proceeds b db fz clean id force Hgo) in Hflush. cbn zeta in Hflush.
    destruct (negb _); [discriminate |].
    destruct (fz ≫= SyncAncient); [discriminate |].
    destruct (Batch_Write_err _ db); [discriminate |].
    injection Hflush as <- <- <-.
    unfold Batch_apply. rewrite fold_left_app. cbn [fold_left].
    intros c' owner path Hc'.
    change (diskNode (rawdb.put (rawdb.WritePersistentStateID id) ?d) owner path)
      with (diskNode d owner path).
    destruct clean as [c |]; [| discriminate]. injection Hc' as <-.
    now apply (writeNodes_coherent _ c db Hdistinct Hcoherent).
Qed.



Lemma node_blob_coherent `{Env} {B : Type} `{!trienodebuffer B}
    (dl : diskLayer.t B) (owner : common.Hash) (path : bytes)
    (hash : common.Hash) (depth : Z) :
  diskLayer.stale dl = false ->
  cacheCoherent (diskLayer.nodes dl) (diskdb (diskLayer.db dl)) ->
  (diskLayer.node dl owner path hash depth).1.1.1
  = match tnb_node (diskLayer.buffer dl) owner path with
    | Some n => (trienode.Blob n, trienode.Hash n)
    | None => (diskNode (diskdb (diskLayer.db dl)) owner path,
               hashData (diskNode (diskdb (diskLayer.db dl)) owner path))
    end /\
  (diskLayer.node dl owner path hash depth).1.2 = None.
Proof.
  intros Hstale Hcoherent. unfold diskLayer.node. rewrite Hstale.
  destruct (tnb_node (diskLayer.buffer dl) owner path) as [n |]; [now split |].
  destruct (diskLayer.nodes dl) as [c |] eqn:Hcache; [| now split].
  destruct (0 <? length (fastcache.Get c (nodeCacheKey owner path)))%nat eqn:Hhit;
    [| now split].
  apply Nat.ltb_lt in Hhit. cbn [fst snd].
  now rewrite (Hcoherent c owner path eq_refl Hhit).
Qed.

(** X9.  Resetting the clean cache of a live layer whose cache agrees with
    the store does not change what node reads return: after [resetCache]
    every node reads as the same blob with the same hash and no error, and
    the emptied cache agrees with the store. *)
Theorem resetCache_keeps_reads `{Env} {B : Type} `{!trienodebuffer B}
    (dl : diskLayer.t B) :
  diskLayer.stale dl = false ->
  cacheCoherent (diskLayer.nodes dl) (diskdb (diskLayer.db dl)) ->
  let dl' := diskLayer.resetCache dl in
  cacheCoherent (diskLayer.nodes dl') (diskdb (diskLayer.db dl')) /\
  forall owner path hash depth,
    (diskLayer.node dl' owner path hash depth).1.1.1
    = (diskLayer.node dl owner path hash depth).1.1.1 /\
    (diskLayer.node dl' owner path hash depth).1.2 = None.
Proof.
  intros Hstale Hcoherent dl'.
  assert (Hstale' : diskLayer.stale dl' = false).
  { subst dl'. unfold diskLayer.resetCache. rewrite Hstale.
    now destruct (diskLayer.nodes dl). }
  assert (Hbuffer : diskLayer.buffer dl' = diskLayer.buffer dl).
  { subst dl'. unfold diskLayer.resetCache. rewrite Hstale.
    now destruct (diskLayer.nodes dl). }
  assert (Hdb : diskLayer.db dl' = diskLayer.db dl).
  { subst dl'. unfold diskLayer.resetCache. rewrite Hstale.
    now destruct (diskLayer.nodes dl). }
  assert (Hcoherent' : cacheCoherent (diskLayer.nodes dl') (diskdb (diskLayer.db dl'))).
  { subst dl'. unfold diskLayer.resetCache. rewrite Hstale.
    destruct (diskLayer.nodes dl) as [c |] eqn:Hcache; [| now rewrite Hcache].
    simpl_layer. intros c' owner path [= <-] Hhit. exfalso. revert Hhit.
    unfold fastcache.Get, fastcache.New, fastcache.Cache.
    rewrite lookup_empty. cbn. lia. }
  split; [exact Hcoherent' |].
  intros owner path hash depth.
  destruct (node_blob_coherent dl' owner path hash depth Hstale' Hcoherent') as [-> ->].
  destruct (node_blob_coherent dl owner path hash depth Hstale Hcoherent) as [-> _].
  now rewrite Hbuffer, Hdb.
Qed.

Lemma unaryReadLayer_coherent :
  @cacheCoherent unaryKeyEnv (diskLayer.nodes unaryReadLayer)
                 (diskdb (diskLayer.db unaryReadLayer)).
Proof.
  assert (Hcache : diskLayer.nodes unaryReadLayer
                   = Some (fastcache.Set_ (unaryKey 0%N [Byte.x0a])
                                          [Byte.x01; Byte.x02; Byte.x03] fastcache.New))
    by reflexivity.
  intros c owner path Hc Hhit. rewrite Hcache in Hc. injection Hc as <-.
  revert Hhit. unfold fastcache.Get, fastcache.Set_, fastcache.New, fastcache.Cache.
  change (@nodeCacheKey unaryKeyEnv owner path) with (unaryKey owner path).
  destruct (decide (unaryKey 0%N [Byte.x0a] = unaryKey owner path)) as [Hkey | Hkey].
  - destruct (unaryKey_distinct _ _ _ _ Hkey) as [<- <-].
    rewrite lookup_insert_eq. intros _. reflexivity.
  - rewrite lookup_insert_ne by exact Hkey. rewrite lookup_empty. cbn. lia.
Qed.

(** The layer over the store of one node, once the node was read into the
    clean cache: the cache holds the node, [resetCache] empties it, and the
    node reads the same before and after. *)
Lemma resetCache_keeps_reads_witness :
  (fun c => fastcache.Get c (unaryKey 0%N [Byte.x0a])) <$> diskLayer.nodes unaryReadLayer
  = Some [Byte.x01; Byte.x02; Byte.x03] /\
  (fun c => fastcache.Get c (unaryKey 0%N [Byte.x0a]))
    <$> diskLayer.nodes (diskLayer.resetCache unaryReadLayer)
  = Some [] /\
  (diskLayer.node (diskLayer.resetCache unaryReadLayer) 0%N [Byte.x0a] 0%N 0).1.1.1
  = (diskLayer.node unaryReadLayer 0%N [Byte.x0a] 0%N 0).1.1.1 /\
  (diskLayer.node unaryReadLayer 0%N [Byte.x0a] 0%N 0).1.1.1
  = ([Byte.x01; Byte.x02; Byte.x03], 3%N).
Proof.
  repeat apply conj.
  - vm_compute. reflexivity.
  - vm_compute. reflexivity.
  - exact (proj1 (proj2 (@resetCache_keeps_reads unaryKeyEnv buffer.t _ unaryReadLayer
                           eq_refl unaryReadLayer_coherent) 0%N [Byte.x0a] 0%N 0)).
  - vm_compute. reflexivity.
Defined.

(** ** Commit and revert of the disk layer *)

(** X10.  [commit] returns either a successor layer and no error, or an error
    and no layer.  The successor stands for the root and the state id of the
    committed diff layer, is live, and shares the database and the buffer
    with the receiver, which is stale by then.  After an error the receiver
    is either as it was but for its freezer, which is as [writeHistory] left
    it (the state history could not be written, or it was written and the
    tail of the freezer could not be read), or stale without a successor. *)
Theorem commit_successor_or_error `{Env} {B : Type} `{!trienodebuffer B}
    (dl : diskLayer.t B) (bottom : diffLayer.t) (force : bool) :
  let r := diskLayer.commit dl bottom force in
  (exists ndl,
      r.1 = (Some ndl, None) /\
      diskLayer.root ndl = diffLayer.root bottom /\
      diskLayer.id ndl = diffLayer.id bottom /\
      diskLayer.stale ndl = false /\
      diskLayer.db ndl = diskLayer.db r.2 /\
      diskLayer.buffer ndl = diskLayer.buffer r.2 /\
      diskLayer.stale r.2 = true) \/
  (exists err,
      r.1 = (None, Some err) /\
      ((exists fz0,
           freezer (diskLayer.db dl) = Some fz0 /\
           ((writeHistory fz0 bottom).1 = Some err \/
            (writeHistory fz0 bottom).1 = None /\
            (Tail (writeHistory fz0 bottom).2).2 = Some err) /\
           r.2 = diskLayer.set_freezer dl (Some (writeHistory fz0 bottom).2)) \/
       diskLayer.stale r.2 = true)).
Proof.
  cbn zeta. unfold diskLayer.commit.
  destruct (freezer (diskLayer.db dl)) as [fz0 |] eqn:Hfz.
  - destruct (writeHistory fz0 bottom) as [[err |] fz1] eqn:Hwrite; cbn [fst snd].
    { right. exists err. split; [reflexivity |]. left. exists fz0. rewrite Hwrite.
      split; [reflexivity | split; [left; reflexivity | reflexivity]]. }
    destruct (Tail fz1) as [tail [err |]] eqn:Htail; cbn [fst snd].
    { right. exists err. split; [reflexivity |]. left. exists fz0.
      rewrite Hwrite. cbn [fst snd]. rewrite Htail.
      split; [reflexivity | split; [right; split; reflexivity | reflexivity]]. }
    destruct (negb _ && _); simpl_layer;
      destruct (diskLayer.id dl =? 0); simpl_layer;
      destruct (tnb_flush _ _ _ _ _ _) as [[[err combined] diskdb'] nodes'];
      (destruct err as [err |]; [right; exists err; now split; [| right] |]);
      unfold diskLayer.newDiskLayer; simpl_layer;
      try (left; eexists; repeat apply conj; reflexivity);
      destruct (truncateFromTail _ fz1 _) as [[[pruned [err |]] diskdb''] fz'];
      solve [ right; exists err; now split; [| right]
            | left; eexists; repeat apply conj; reflexivity ].
  - simpl_layer.
    destruct (diskLayer.id dl =? 0); simpl_layer;
      destruct (tnb_flush _ _ _ _ _ _) as [[[err combined] diskdb'] nodes'];
      (destruct err as [err |]; [right; exists err; now split; [| right] |]);
      left; eexists; repeat apply conj; reflexivity.
Qed.

(** [commit] when no state history is pruned: there is no freezer, or the
    number of histories to keep is unlimited. *)
Lemma commit_without_pruning `{Env} {B : Type} `{!trienodebuffer B}
    (dl : diskLayer.t B) (bottom : diffLayer.t) (force : bool) :
  freezer (diskLayer.db dl) = None \/ StateHistory (config (diskLayer.db dl)) = 0 ->
  diskLayer.commit dl bottom force
  = match
      match freezer (diskLayer.db dl) with
      | Some fz =>
          match writeHistory fz bottom with
          | (Some err, fz) => inl (err, fz)
          | (None, fz) =>
              match Tail fz with
              | (_, Some err) => inl (err, fz)
              | (_, None) => inr (Some fz)
              end
          end
      | None => inr None
      end
    with
    | inl (err, fz) => ((None, Some err), diskLayer.set_freezer dl (Some fz))
    | inr fz =>
        let db1 :=
          if diskLayer.id dl =? 0
          then rawdb.put (rawdb.WriteStateID (diskLayer.root dl) 0)
                         (diskdb (diskLayer.db dl))
          else diskdb (diskLayer.db dl) in
        let db2 :=
          rawdb.put (rawdb.WriteStateID (diffLayer.root bottom) (diffLayer.id bottom)) db1 in
        let force :=
          if negb force && (rawdb.ReadPersistentStateID db2 <? 0) then true else force in
        let '(err, combined, db3, nodes') :=
          tnb_flush (tnb_commit (diskLayer.buffer dl) (diffLayer.nodes bottom)
                                (diffLayer.states bottom))
                    db2 fz (diskLayer.nodes dl) (diffLayer.id bottom) force in
        let dl' :=
          diskLayer.mk (diskLayer.root dl) (diskLayer.id dl)
                       (mkDatabase _ db3 fz (config (diskLayer.db dl)))
                       nodes' combined true in
        match err with
        | Some err => ((None, Some err), dl')
        | None =>
            ((Some (diskLayer.newDiskLayer (diffLayer.root bottom) (diffLayer.id bottom)
                                           (diskLayer.db dl') nodes' combined),
              None), dl')
        end
    end.
Proof.
  intros Hkeep. unfold diskLayer.commit, diffLayer.rootHash, diffLayer.stateID.
  destruct (freezer (diskLayer.db dl)) as [fz |] eqn:Hfz.
  - destruct Hkeep as [Hnone | Hlimit]; [discriminate |]. rewrite Hlimit.
    cbn [Z.eqb negb andb].
    destruct (writeHistory fz bottom) as [[err |] fz']; [reflexivity |].
    destruct (Tail fz') as [tail [err |]]; [reflexivity |].
    simpl_layer.
    destruct (diskLayer.id dl =? 0); simpl_layer;
      destruct (tnb_flush _ _ _ _ _ _) as [[[err combined] diskdb'] nodes'];
      now destruct err.
  - simpl_layer.
    destruct (diskLayer.id dl =? 0); simpl_layer;
      destruct (tnb_flush _ _ _ _ _ _) as [[[err combined] diskdb'] nodes'];
      now destruct err.
Qed.

(** X11.  A commit that is not forced, into a buffer that stays within its
    limit, persists nothing of the diff layer when no state history is
    pruned: the successor holds the diff layer merged into the buffer, every
    node of the store and the persistent state id are as before, and the
    store has only gained the lookup from the new root to its state id (and
    from the root of the receiver to state id 0, when that is its id).
    Without a freezer such a commit cannot fail. *)
Theorem commit_defers_persistence `{Env}
    (dl : diskLayer.t buffer.t) (bottom : diffLayer.t) :
  freezer (diskLayer.db dl) = None \/ StateHistory (config (diskLayer.db dl)) = 0 ->
  0 <= rawdb.ReadPersistentStateID (diskdb (diskLayer.db dl)) ->
  buffer.full (buffer.commit (diskLayer.buffer dl) (diffLayer.nodes bottom)
                             (diffLayer.states bottom)) = false ->
  (freezer (diskLayer.db dl) = None ->
   exists ndl dl', diskLayer.commit dl bottom false = ((Some ndl, None), dl')) /\
  (forall ndl dl',
      diskLayer.commit dl bottom false = ((Some ndl, None), dl') ->
      diskLayer.buffer ndl
      = buffer.commit (diskLayer.buffer dl) (diffLayer.nodes bottom)
                      (diffLayer.states bottom) /\
      (forall owner path,
          diskNode (diskdb (diskLayer.db ndl)) owner path
          = diskNode (diskdb (diskLayer.db dl)) owner path) /\
      rawdb.ReadPersistentStateID (diskdb (diskLayer.db ndl))
      = rawdb.ReadPersistentStateID (diskdb (diskLayer.db dl)) /\
      rawdb.ReadStateID (diskdb (diskLayer.db ndl)) (diffLayer.root bottom)
      = Some (diffLayer.id bottom) /\
      (diskLayer.id dl = 0 -> diskLayer.root dl <> diffLayer.root bottom ->
       rawdb.ReadStateID (diskdb (diskLayer.db ndl)) (diskLayer.root dl) = Some 0)).
Proof.
  intros Hkeep Hhead Hfull.
  rewrite (commit_without_pruning dl bottom false Hkeep).
  assert (Hflush : forall db fz,
    0 <= rawdb.ReadPersistentStateID db ->
    tnb_flush (tnb_commit (diskLayer.buffer dl) (diffLayer.nodes bottom)
                          (diffLayer.states bottom))
              db fz (diskLayer.nodes dl) (diffLayer.id bottom)
              (if negb false && (rawdb.ReadPersistentStateID db <? 0) then true else false)
    = (None, buffer.commit (diskLayer.buffer dl) (diffLayer.nodes bottom)
                           (diffLayer.states bottom), db, diskLayer.nodes dl)).
  { intros db fz Hdb.
    assert ((rawdb.ReadPersistentStateID db <? 0) = false) as -> by (apply Z.ltb_ge; lia).
    cbn [negb andb tnb_flush tnb_commit buffer.buffer_trienodebuffer].
    unfold buffer.flush. now rewrite Hfull. }
  split.
  - intros Hnone. rewrite Hnone. cbn zeta.
    rewrite Hflush; [eauto |]. now destruct (diskLayer.id dl =? 0).
  - intros ndl dl'.
    destruct (match freezer (diskLayer.db dl) with Some _ => _ | None => _ end)
      as [[err fz] | fz]; [discriminate |].
    cbn zeta. rewrite Hflush by now destruct (diskLayer.id dl =? 0).
    intros [= <- <-]. unfold diskLayer.newDiskLayer. simpl_layer.
    repeat apply conj.
    + reflexivity.
    + intros owner path. now destruct (diskLayer.id dl =? 0).
    + now destruct (diskLayer.id dl =? 0).
    + unfold rawdb.ReadStateID. cbn [rawdb.put stateIDs]. apply lookup_insert_eq.
    + intros Hzero Hroots. rewrite Hzero. cbn [Z.eqb].
      unfold rawdb.ReadStateID. cbn [rawdb.put stateIDs].
      rewrite lookup_insert_ne by congruence. apply lookup_insert_eq.
Qed.

(** The commit of [deltaA] onto the live layer of the examples. *)
Lemma commit_defers_persistence_witness :
  exists ndl dl',
    diskLayer.commit liveLayer deltaA false = ((Some ndl, None), dl') /\
    rawdb.ReadPersistentStateID (diskdb (diskLayer.db ndl)) = 0 /\
    rawdb.ReadStateID (diskdb (diskLayer.db ndl)) 8%N = Some 1 /\
    rawdb.ReadStateID (diskdb (diskLayer.db ndl)) 7%N = Some 0.
Proof.
  assert (Hhead : 0 <= rawdb.ReadPersistentStateID (diskdb (diskLayer.db liveLayer)))
    by (cbn; lia).
  assert (Hfull : buffer.full
                    (@buffer.commit exampleEnv (diskLayer.buffer liveLayer)
                                    (diffLayer.nodes deltaA) (diffLayer.states deltaA))
                  = false)
    by (vm_compute; reflexivity).
  destruct (@commit_defers_persistence exampleEnv liveLayer deltaA
              (or_introl eq_refl) Hhead Hfull) as [Hsucceeds Hkept].
  destruct (Hsucceeds eq_refl) as (ndl & dl' & Hcommit).
  destruct (Hkept ndl dl' Hcommit) as (_ & _ & Hid & Hnew & Hgenesis).
  exists ndl, dl'. repeat apply conj.
  - exact Hcommit.
  - exact Hid.
  - exact Hnew.
  - apply Hgenesis; [reflexivity | discriminate].
Defined.

(** X12.  A commit that flushes, because it is forced or because the merged
    buffer exceeds its limit, and returns a successor has persisted the
    state of the diff layer (no state history being pruned): the persistent
    state id of the store is the id of the diff layer, the buffer of the
    successor is empty, and the store maps the new root to that id.  It can
    only succeed when the ids are aligned: the persistent state id before,
    plus the layers of the buffer, plus one, is the id of the diff layer. *)
Theorem commit_flush_persists `{Env}
    (dl : diskLayer.t buffer.t) (bottom : diffLayer.t) (force : bool)
    (ndl dl' : diskLayer.t buffer.t) :
  freezer (diskLayer.db dl) = None \/ StateHistory (config (diskLayer.db dl)) = 0 ->
  force = true \/
  buffer.full (buffer.commit (diskLayer.buffer dl) (diffLayer.nodes bottom)
                             (diffLayer.states bottom)) = true ->
  diskLayer.commit dl bottom force = ((Some ndl, None), dl') ->
  rawdb.ReadPersistentStateID (diskdb (diskLayer.db ndl)) = diffLayer.id bottom /\
  u64 (rawdb.ReadPersistentStateID (diskdb (diskLayer.db dl))
       + u64 (buffer.layers (diskLayer.buffer dl) + 1)) = diffLayer.id bottom /\
  buffer.empty (diskLayer.buffer ndl) = true /\
  (forall owner path, buffer.node (diskLayer.buffer ndl) owner path = None) /\
  rawdb.ReadStateID (diskdb (diskLayer.db ndl)) (diffLayer.root bottom)
  = Some (diffLayer.id bottom).
Proof.
  intros Hkeep Hgo. rewrite (commit_without_pruning dl bottom force Hkeep).
  destruct (match freezer (diskLayer.db dl) with Some _ => _ | None => _ end)
    as [[err fz] | fz]; [discriminate |].
  cbn zeta.
  set (db2 := rawdb.put (rawdb.WriteStateID _ _) _).
  set (force' := if negb force && _ then true else force).
  assert (Hhead : rawdb.ReadPersistentStateID db2
                  = rawdb.ReadPersistentStateID (diskdb (diskLayer.db dl))).
  { subst db2. now destruct (diskLayer.id dl =? 0). }
  assert (Hlookup : rawdb.ReadStateID db2 (diffLayer.root bottom)
                    = Some (diffLayer.id bottom)).
  { subst db2. unfold rawdb.ReadStateID. cbn [rawdb.put stateIDs].
    apply lookup_insert_eq. }
  assert (Hgo' : buffer.full (buffer.commit (diskLayer.buffer dl) (diffLayer.nodes bottom)
                                            (diffLayer.states bottom)) = true
                 \/ force' = true).
  { destruct Hgo as [-> | Hfull]; [right | now left].
    subst force'. now destruct (negb true && _). }
  clearbody db2 force'.
  cbn [tnb_flush tnb_commit buffer.buffer_trienodebuffer].
  destruct (buffer.flush _ db2 fz (diskLayer.nodes dl) (diffLayer.id bottom) force')
    as [[[err combined] db3] nodes'] eqn:Hflush.
  destruct err; [discriminate |]. intros [= <- <-].
  destruct (flush_succeeds _ _ _ _ _ _ _ _ _ Hgo' Hflush) as (Halign & _ & -> & ->).
  unfold diskLayer.newDiskLayer. simpl_layer.
  rewrite Hhead in Halign.
  repeat apply conj; try reflexivity; [exact Halign |].
  unfold rawdb.ReadStateID in *. cbn [rawdb.put stateIDs].
  rewrite <- Hlookup. clear.
  unfold Batch_apply.
  induction (flatten _) as [| e entries IH] using rev_ind; [reflexivity |].
  rewrite fmap_app, fold_left_app. cbn [fmap list_fmap fold_left]. rewrite <- IH.
  destruct e as [[owner path] n]. unfold writeNode.
  now destruct (trienode.IsDeleted n), (decide (owner = 0%N)).
Qed.

(** The forced commit of [deltaA] onto the live layer of the examples. *)
Lemma commit_flush_persists_witness :
  forcedCommit.1.2 = None /\
  rawdb.ReadPersistentStateID (diskdb (diskLayer.db (default liveLayer forcedCommit.1.1))) = 1 /\
  buffer.empty (diskLayer.buffer (default liveLayer forcedCommit.1.1)) = true.
Proof.
  assert (Hcommit : diskLayer.commit liveLayer deltaA true
                    = ((Some (default liveLayer forcedCommit.1.1), None), forcedCommit.2))
    by reflexivity.
  destruct (@commit_flush_persists exampleEnv liveLayer deltaA true _ _
              (or_introl eq_refl) (or_introl eq_refl) Hcommit)
    as (Hid & _ & Hempty & _).
  repeat apply conj; [reflexivity | exact Hid | exact Hempty].
Defined.

Lemma revertTo_after_commit `{Env}
    (b : buffer.t) (n : nodeSet.t) (s : stateSet.t) (db : KVStore)
    (nodes' : gmap common.Hash (gmap bytes trienode.Node))
    (accounts : gmap common.Hash bytes)
    (storages : gmap common.Hash (gmap common.Hash bytes)) :
  0 <= buffer.layers b < 2 ^ 64 - 1 ->
  exists b',
    buffer.revertTo (buffer.commit b n s) db nodes' accounts storages = (None, b') /\
    buffer.layers b' = buffer.layers b /\
    buffer.limit b' = buffer.limit b.
Proof.
  intros Hrange. unfold buffer.revertTo, buffer.commit.
  cbn [buffer.layers buffer.limit buffer.nodes buffer.states].
  assert (Hinc : u64 (buffer.layers b + 1) = buffer.layers b + 1).
  { unfold u64. apply Z.mod_small. lia. }
  rewrite Hinc.
  assert (Hdec : u64 (buffer.layers b + 1 - 1) = buffer.layers b).
  { unfold u64. rewrite Z.add_simpl_r. apply Z.mod_small. lia. }
  rewrite Hdec.
  destruct (buffer.layers b + 1 =? 0) eqn:Hzero; [apply Z.eqb_eq in Hzero; lia |].
  destruct (buffer.layers b =? 0) eqn:Hone.
  - apply Z.eqb_eq in Hone. eexists. split; [reflexivity |]. cbn. now split.
  - destruct (negb _ || negb _); eexists; (split; [reflexivity |]); now split.
Qed.

(** X13.  A commit can be taken back.  Commit a diff layer onto a disk layer
    without flushing (not forced, the buffer within its limit, no history
    pruned) and revert the successor with the state history of that
    transition, whose root is the root of the diff layer and whose parent is
    the root of the first layer: the result is a live layer for the root and
    the state id of the first layer, over a buffer with as many layers as
    before and a store with the same persistent state id, and the successor
    is stale.  The ids are [uint64] and the diff layer carries the id after
    that of its parent. *)
Theorem commit_then_revert `{Env}
    (apply :
       diskLayer.t buffer.t -> common.Hash -> common.Hash -> bool ->
       gmap common.Address bytes -> gmap common.Address (gmap common.Hash bytes) ->
       gmap common.Hash (gmap bytes trienode.Node) * option error)
    (dl : diskLayer.t buffer.t) (bottom : diffLayer.t) (h : history.t)
    (ndl dl' : diskLayer.t buffer.t)
    (nodes' : gmap common.Hash (gmap bytes trienode.Node)) :
  freezer (diskLayer.db dl) = None \/ StateHistory (config (diskLayer.db dl)) = 0 ->
  0 <= rawdb.ReadPersistentStateID (diskdb (diskLayer.db dl)) ->
  0 <= buffer.layers (diskLayer.buffer dl) < 2 ^ 64 - 1 ->
  0 <= diskLayer.id dl < 2 ^ 64 - 1 ->
  diffLayer.id bottom = diskLayer.id dl + 1 ->
  buffer.full (buffer.commit (diskLayer.buffer dl) (diffLayer.nodes bottom)
                             (diffLayer.states bottom)) = false ->
  diskLayer.commit dl bottom false = ((Some ndl, None), dl') ->
  history.root (history.meta h) = diffLayer.root bottom ->
  history.parent (history.meta h) = diskLayer.root dl ->
  apply ndl (history.parent (history.meta h)) (history.root (history.meta h))
        (negb (history.version (history.meta h) =? stateHistoryV0))
        (history.accounts h) (history.storages h) = (nodes', None) ->
  exists pdl ndl',
    diskLayer.revert apply ndl h = Returns ((Some pdl, None), ndl') /\
    diskLayer.root pdl = diskLayer.root dl /\
    diskLayer.id pdl = diskLayer.id dl /\
    diskLayer.stale pdl = false /\
    buffer.layers (diskLayer.buffer pdl) = buffer.layers (diskLayer.buffer dl) /\
    rawdb.ReadPersistentStateID (diskdb (diskLayer.db pdl))
    = rawdb.ReadPersistentStateID (diskdb (diskLayer.db dl)) /\
    diskLayer.stale ndl' = true.
Proof.
  intros Hkeep Hhead Hlayers Hid Hnext Hfull Hcommit Hroot Hparent Happly.
  rewrite (commit_without_pruning dl bottom false Hkeep) in Hcommit.
  destruct (match freezer (diskLayer.db dl) with Some _ => _ | None => _ end)
    as [[err fz] | fz]; [discriminate |].
  cbn zeta in Hcommit.
  set (db2 := rawdb.put (rawdb.WriteStateID _ _) _) in Hcommit.
  assert (Hhead2 : rawdb.ReadPersistentStateID db2
                   = rawdb.ReadPersistentStateID (diskdb (diskLayer.db dl))).
  { subst db2. now destruct (diskLayer.id dl =? 0). }
  assert ((rawdb.ReadPersistentStateID db2 <? 0) = false) as Hnotforced
    by (apply Z.ltb_ge; lia).
  rewrite Hnotforced in Hcommit.
  cbn [negb andb tnb_flush tnb_commit buffer.buffer_trienodebuffer] in Hcommit.
  unfold buffer.flush in Hcommit. rewrite Hfull in Hcommit.
  cbn [negb andb] in Hcommit. injection Hcommit as <- <-.
  clearbody db2.
  destruct (revertTo_after_commit (diskLayer.buffer dl) (diffLayer.nodes bottom)
              (diffLayer.states bottom) db2 nodes' (history_stateSet h).1
              (history_stateSet h).2 Hlayers) as (b' & Hrevert & Hb' & _).
  unfold diskLayer.revert, diskLayer.rootHash.
  rewrite Happly.
  destruct (history_stateSet h) as [accounts storages]. cbn [fst snd] in Hrevert.
  assert (Hzero : (diffLayer.id bottom =? 0) = false) by (apply Z.eqb_neq; lia).
  assert (Hnonempty : buffer.empty (buffer.commit (diskLayer.buffer dl) (diffLayer.nodes bottom)
                                                  (diffLayer.states bottom)) = false).
  { unfold buffer.empty, buffer.commit. cbn [buffer.layers]. apply Z.eqb_neq.
    unfold u64. rewrite Z.mod_small; lia. }
  cbn [tnb_empty tnb_revertTo buffer.buffer_trienodebuffer].
  unfold diskLayer.newDiskLayer. simpl_layer.
  rewrite Hroot, N.eqb_refl, Hzero, Hnonempty. cbn [negb].
  rewrite Hrevert. simpl_layer.
  eexists _, _. split; [reflexivity |]. simpl_layer.
  repeat apply conj; try reflexivity.
  - exact Hparent.
  - rewrite Hnext, Z.add_simpl_r. unfold u64. apply Z.mod_small. lia.
  - exact Hb'.
  - exact Hhead2.
Qed.

(** Commit [deltaA] onto the live layer of the examples and revert it. *)
Lemma commit_then_revert_witness :
  exists ndl pdl ndl',
    (diskLayer.commit liveLayer deltaA false).1 = (Some ndl, None) /\
    diskLayer.revert exampleApply ndl historyOfDeltaA = Returns ((Some pdl, None), ndl') /\
    diskLayer.root pdl = 7%N /\
    diskLayer.id pdl = 0 /\
    buffer.layers (diskLayer.buffer pdl) = 0.
Proof.
  assert (Hcommit : diskLayer.commit liveLayer deltaA false
                    = ((Some (default liveLayer (diskLayer.commit liveLayer deltaA false).1.1),
                        None), staleBase))
    by reflexivity.
  assert (Hfull : buffer.full
                    (@buffer.commit exampleEnv (diskLayer.buffer liveLayer)
                                    (diffLayer.nodes deltaA) (diffLayer.states deltaA))
                  = false)
    by (vm_compute; reflexivity).
  destruct (@commit_then_revert exampleEnv exampleApply liveLayer deltaA historyOfDeltaA
              _ _ _ (or_introl eq_refl) ltac:(cbn; lia) ltac:(cbn; lia) ltac:(cbn; lia)
              eq_refl Hfull Hcommit eq_refl eq_refl eq_refl)
    as (pdl & ndl' & Hrevert & Hroot & Hid & _ & Hlayers & _).
  exists (default liveLayer (diskLayer.commit liveLayer deltaA false).1.1), pdl, ndl'.
  repeat apply conj; [reflexivity | exact Hrevert | exact Hroot | exact Hid | exact Hlayers].
Defined.

(** ** Reading what was committed or reverted *)

Lemma newDiskLayer_coherent `{Env} {B : Type} `{!trienodebuffer B}
    (root : common.Hash) (id : Z) (db : Database) (clean : option fastcache.Cache)
    (buf : B) :
  cacheCoherent clean (diskdb db) ->
  cacheCoherent (diskLayer.nodes (diskLayer.newDiskLayer root id db clean buf))
                (diskdb (diskLayer.db (diskLayer.newDiskLayer root id db clean buf))).
Proof.
  intros Hcoherent. unfold diskLayer.newDiskLayer. simpl_layer.
  destruct clean as [c |]; [exact Hcoherent |].
  destruct (negb (CleanCacheSize (config db) =? 0)); [| exact Hcoherent].
  intros c owner path [= <-] Hhit. exfalso. revert Hhit.
  unfold fastcache.Get, fastcache.New, fastcache.Cache.
  rewrite lookup_empty. cbn. lia.
Qed.

Lemma flushed_node `{Env} (b : buffer.t) (db : KVStore) (id : Z)
    (owner : common.Hash) (path : bytes) (n : trienode.Node) :
  buffer.node b owner path = Some n ->
  diskNode (rawdb.put (rawdb.WritePersistentStateID id)
              (Batch_apply (writeNode <$> flatten (nodeSet.nodes (buffer.nodes b))) db))
           owner path
  = trienode.Blob n.
Proof.
  intros Hnode.
  change (diskNode (rawdb.put (rawdb.WritePersistentStateID id) ?d) owner path)
    with (diskNode d owner path).
  unfold buffer.node, nodeSet.node in Hnode.
  destruct (nodeSet.nodes (buffer.nodes b) !! owner) as [subset |] eqn:Hown;
    [| discriminate].
  cbn in Hnode. apply Batch_apply_nodes.
  - apply elem_of_flatten. eauto.
  - intros n' Hin. apply elem_of_flatten in Hin as (subset' & Hown' & Hpath').
    congruence.
Qed.

(** X14.  What a commit merges into the buffer is what the successor reads,
    whether the commit flushed or not (no state history being pruned, no
    two nodes sharing a cache key, the clean cache agreeing with the store
    before): a node that the merged buffer holds is read through the
    successor as the blob of that node, without error; from the buffer when
    the commit did not flush, and from the store or the clean cache when it
    did.  The clean cache of the successor agrees with its store. *)
Theorem committed_nodes_read_back `{Env}
    (dl : diskLayer.t buffer.t) (bottom : diffLayer.t) (force : bool)
    (ndl dl' : diskLayer.t buffer.t)
    (owner : common.Hash) (path : bytes) (n : trienode.Node)
    (hash : common.Hash) (depth : Z) :
  freezer (diskLayer.db dl) = None \/ StateHistory (config (diskLayer.db dl)) = 0 ->
  distinctCacheKeys ->
  cacheCoherent (diskLayer.nodes dl) (diskdb (diskLayer.db dl)) ->
  diskLayer.commit dl bottom force = ((Some ndl, None), dl') ->
  buffer.node (buffer.commit (diskLayer.buffer dl) (diffLayer.nodes bottom)
                             (diffLayer.states bottom)) owner path = Some n ->
  (diskLayer.node ndl owner path hash depth).1.1.1.1 = trienode.Blob n /\
  (diskLayer.node ndl owner path hash depth).1.2 = None /\
  cacheCoherent (diskLayer.nodes ndl) (diskdb (diskLayer.db ndl)).
Proof.
  intros Hkeep Hdistinct Hcoherent Hcommit Hnode.
  rewrite (commit_without_pruning dl bottom force Hkeep) in Hcommit.
  destruct (match freezer (diskLayer.db dl) with Some _ => _ | None => _ end)
    as [[err fz] | fz]; [discriminate |].
  cbn zeta in Hcommit.
  set (db2 := rawdb.put (rawdb.WriteStateID _ _) _) in Hcommit.
  set (force' := if negb force && _ then true else force) in Hcommit.
  assert (Hcoherent2 : cacheCoherent (diskLayer.nodes dl) db2).
  { intros c owner' path' Hc Hhit. rewrite (Hcoherent c owner' path' Hc Hhit).
    subst db2. now destruct (diskLayer.id dl =? 0). }
  clearbody db2 force'.
  cbn [tnb_flush tnb_commit buffer.buffer_trienodebuffer] in Hcommit.
  set (combined := buffer.commit _ _ _) in *.
  destruct (buffer.flush combined db2 fz (diskLayer.nodes dl) (diffLayer.id bottom) force')
    as [[[err flushed'] db3] nodes'] eqn:Hflush.
  destruct err; [discriminate |]. injection Hcommit as <- <-.
  pose proof (flush_coherent _ _ _ _ _ _ _ _ _ Hdistinct Hcoherent2 Hflush) as Hcoherent3.
  set (ndl := diskLayer.newDiskLayer _ _ _ _ _).
  assert (Hcoherent' : cacheCoherent (diskLayer.nodes ndl) (diskdb (diskLayer.db ndl))).
  { subst ndl. apply newDiskLayer_coherent. exact Hcoherent3. }
  destruct (node_blob_coherent ndl owner path hash depth eq_refl Hcoherent')
    as [Hread Herr].
  split; [| split; [exact Herr | exact Hcoherent']].
  change ((diskLayer.node ndl owner path hash depth).1.1.1.1)
    with ((diskLayer.node ndl owner path hash depth).1.1.1).1.
  rewrite Hread. subst ndl. unfold diskLayer.newDiskLayer. simpl_layer.
  cbn [tnb_node buffer.buffer_trienodebuffer].
  destruct (negb (buffer.full combined) && negb force') eqn:Hskip.
  - unfold buffer.flush in Hflush. rewrite Hskip in Hflush.
    injection Hflush as <- <- <-. now rewrite Hnode.
  - assert (Hgo : buffer.full combined = true \/ force' = true).
    { destruct (buffer.full combined); [now left | right]. now destruct force'. }
    destruct (flush_succeeds _ _ _ _ _ _ _ _ _ Hgo Hflush) as (_ & _ & -> & ->).
    change (buffer.node (buffer.reset combined) owner path) with (@None trienode.Node).
    cbn [fst]. now apply flushed_node.
Qed.

(** The layer of [unaryKeyEnv] over the store of one node. *)
Lemma unaryKeyLayer_coherent :
  @cacheCoherent unaryKeyEnv (diskLayer.nodes unaryKeyLayer)
                 (diskdb (diskLayer.db unaryKeyLayer)).
Proof.
  intros c owner path [= <-] Hhit. exfalso. revert Hhit.
  unfold fastcache.Get, fastcache.New, fastcache.Cache.
  rewrite lookup_empty. cbn. lia.
Qed.

(** The forced commit of [deltaC]: its node reads back from the store. *)
Lemma committed_nodes_read_back_witness :
  (diskLayer.node (default unaryKeyLayer unaryCommit.1.1) 0%N [Byte.x0a] 0%N 0).1.1.1.1
  = [Byte.x01; Byte.x02].
Proof.
  assert (Hcommit : diskLayer.commit unaryKeyLayer deltaC true
                    = ((Some (default unaryKeyLayer unaryCommit.1.1), None), unaryCommit.2))
    by reflexivity.
  exact (proj1 (@committed_nodes_read_back unaryKeyEnv unaryKeyLayer deltaC true _ _
                  0%N [Byte.x0a] (trienode.mkNode 2%N [Byte.x01; Byte.x02]) 0%N 0
                  (or_introl eq_refl) unaryKey_distinct
                  unaryKeyLayer_coherent Hcommit eq_refl)).
Defined.

(** X15.  What a revert writes is what the successor reads.  Take a revert
    through the store, the buffer being empty, that succeeds (no two nodes
    sharing a cache key, the clean cache agreeing with the store before): a
    node that [apply] computed for the history, and that the buffer does not
    hold, is read through the successor as the blob of that node, without
    error; the clean cache of the successor agrees with its store. *)
Theorem reverted_nodes_read_back `{Env}
    (apply :
       diskLayer.t buffer.t -> common.Hash -> common.Hash -> bool ->
       gmap common.Address bytes -> gmap common.Address (gmap common.Hash bytes) ->
       gmap common.Hash (gmap bytes trienode.Node) * option error)
    (dl : diskLayer.t buffer.t) (h : history.t)
    (ndl dl' : diskLayer.t buffer.t)
    (nodes' : gmap common.Hash (gmap bytes trienode.Node))
    (owner : common.Hash) (path : bytes) (n : trienode.Node)
    (hash : common.Hash) (depth : Z) :
  distinctCacheKeys ->
  cacheCoherent (diskLayer.nodes dl) (diskdb (diskLayer.db dl)) ->
  buffer.empty (diskLayer.buffer dl) = true ->
  buffer.node (diskLayer.buffer dl) owner path = None ->
  apply dl (history.parent (history.meta h)) (history.root (history.meta h))
        (negb (history.version (history.meta h) =? stateHistoryV0))
        (history.accounts h) (history.storages h) = (nodes', None) ->
  diskLayer.revert apply dl h = Returns ((Some ndl, None), dl') ->
  nodes' !! owner ≫= (fun subset => subset !! path) = Some n ->
  (diskLayer.node ndl owner path hash depth).1.1.1.1 = trienode.Blob n /\
  (diskLayer.node ndl owner path hash depth).1.2 = None /\
  cacheCoherent (diskLayer.nodes ndl) (diskdb (diskLayer.db ndl)).
Proof.
  intros Hdistinct Hcoherent Hempty Hbuffer Happly Hrevert Hnode.
  unfold diskLayer.revert in Hrevert.
  destruct (negb (history.root (history.meta h) =? diskLayer.rootHash dl)%N);
    [discriminate |].
  destruct (diskLayer.id dl =? 0); [discriminate |].
  rewrite Happly in Hrevert.
  destruct (history_stateSet h) as [accounts storages].
  simpl_layer. cbn [tnb_empty buffer.buffer_trienodebuffer] in Hrevert.
  rewrite Hempty in Hrevert. cbn [negb] in Hrevert.
  unfold writeNodes, Batch_Write in Hrevert. cbn [app] in Hrevert.
  destruct (Batch_Write_err _ _); [discriminate |].
  simpl_layer. injection Hrevert as <- <-.
  set (ndl := diskLayer.newDiskLayer _ _ _ _ _).
  assert (Hcoherent' : cacheCoherent (diskLayer.nodes ndl) (diskdb (diskLayer.db ndl))).
  { subst ndl. apply newDiskLayer_coherent. cbn [diskdb].
    unfold Batch_apply. rewrite fold_left_app. cbn [fold_left].
    intros c' owner' path' Hc'.
    change (diskNode (rawdb.put (rawdb.WritePersistentStateID ?i) ?d) owner' path')
      with (diskNode d owner' path').
    destruct (diskLayer.nodes dl) as [c |]; [| discriminate]. injection Hc' as <-.
    now apply (writeNodes_coherent _ c _ Hdistinct Hcoherent). }
  destruct (node_blob_coherent ndl owner path hash depth eq_refl Hcoherent')
    as [Hread Herr].
  split; [| split; [exact Herr | exact Hcoherent']].
  change ((diskLayer.node ndl owner path hash depth).1.1.1.1)
    with ((diskLayer.node ndl owner path hash depth).1.1.1).1.
  rewrite Hread. subst ndl. unfold diskLayer.newDiskLayer. simpl_layer.
  cbn [tnb_node buffer.buffer_trienodebuffer]. rewrite Hbuffer. cbn [fst].
  unfold Batch_apply. rewrite fold_left_app. cbn [fold_left].
  change (diskNode (rawdb.put (rawdb.WritePersistentStateID ?i) ?d) owner path)
    with (diskNode d owner path).
  destruct (nodes' !! owner) as [subset |] eqn:Hown; [| discriminate].
  cbn in Hnode. apply Batch_apply_nodes.
  - apply elem_of_flatten. eauto.
  - intros n' Hin. apply elem_of_flatten in Hin as (subset' & Hown' & Hpath').
    congruence.
Qed.

(** The revert of the layer over the store of one node: the node that
    [apply] computes reads back. *)
Lemma reverted_nodes_read_back_witness :
  exists ndl dl',
    diskLayer.revert unaryApply unaryKeyLayer exampleHistory = Returns ((Some ndl, None), dl') /\
    (diskLayer.node ndl 0%N [Byte.x0a] 0%N 0).1.1.1.1 = [Byte.x09].
Proof.
  assert (Hrevert : diskLayer.revert unaryApply unaryKeyLayer exampleHistory
                    = Returns ((Some unaryReverted.1, None), unaryReverted.2))
    by reflexivity.
  exists unaryReverted.1, unaryReverted.2. split; [exact Hrevert |].
  exact (proj1 (@reverted_nodes_read_back unaryKeyEnv unaryApply unaryKeyLayer
                  exampleHistory _ _ _ 0%N [Byte.x0a] (trienode.mkNode 1%N [Byte.x09])
                  0%N 0 unaryKey_distinct unaryKeyLayer_coherent
                  eq_refl eq_refl eq_refl Hrevert eq_refl)).
Defined.

(** X16.  A live layer can be marked stale once.  [markStale] on a live
    layer returns it stale and otherwise unchanged; every read of the result
    fails with [errSnapshotStale], its size is reported as zero and
    [resetCache] leaves it alone; marking it a second time panics. *)
Theorem markStale_once `{Env} {B : Type} `{!trienodebuffer B} (dl : diskLayer.t B) :
  (diskLayer.stale dl = false ->
   exists dl',
     diskLayer.markStale dl = Returns dl' /\
     dl' = diskLayer.set_stale dl true /\
     diskLayer.isStale dl' = true /\
     (forall owner path hash depth,
         (diskLayer.node dl' owner path hash depth).1
         = ([], 0%N, None, Some errSnapshotStale)) /\
     (forall hash depth, diskLayer.account dl' hash depth = ([], Some errSnapshotStale)) /\
     (forall accountHash storageHash depth,
         diskLayer.storage dl' accountHash storageHash depth
         = ([], Some errSnapshotStale)) /\
     diskLayer.size dl' = (0, 0) /\
     diskLayer.resetCache dl' = dl' /\
     diskLayer.markStale dl' = Panics "triedb disk layer is stale") /\
  (diskLayer.stale dl = true ->
   diskLayer.markStale dl = Panics "triedb disk layer is stale").
Proof.
  split; intros Hstale; unfold diskLayer.markStale; rewrite Hstale; [| reflexivity].
  eexists. split; [reflexivity |]. repeat apply conj; reflexivity.
Qed.

(** ** The trie prefetcher: the queue of a subfetcher *)

Lemma foldl_difference (keys : list bytes) (s : gset bytes) :
  foldl (fun s key => s ∖ {[ key ]}) s keys = s ∖ list_to_set keys.
Proof.
  revert s. induction keys as [| key keys IH]; intros s; cbn [foldl list_to_set foldr].
  - now rewrite difference_empty_L.
  - now rewrite IH, difference_difference_l_L.
Qed.

(** X17.  The waste that the close arm of [mainLoop] reports for a
    subfetcher, the size of [seen] once the keys of [used] are deleted from
    it one by one, is the number of keys seen that were not used.  It is at
    most the number of keys loaded, and it is zero exactly when every key
    seen was used. *)
Theorem waste_counts_unused_keys (fetcher : subfetcher.t) :
  triePrefetcher.waste fetcher
  = size (subfetcher.seen fetcher ∖ list_to_set (subfetcher.used fetcher)) /\
  (triePrefetcher.waste fetcher <= size (subfetcher.seen fetcher))%nat /\
  (triePrefetcher.waste fetcher = 0%nat <->
   forall key, key ∈ subfetcher.seen fetcher -> key ∈ subfetcher.used fetcher).
Proof.
  unfold triePrefetcher.waste. rewrite foldl_difference. repeat apply conj.
  - reflexivity.
  - apply subseteq_size. now apply subseteq_difference_l.
  - rewrite size_empty_iff, elem_of_equiv_empty. intros Hempty key Hseen.
    destruct (decide (key ∈ subfetcher.used fetcher)) as [Hused | Hunused]; [exact Hused |].
    exfalso. apply (Hempty key). apply elem_of_difference. split; [exact Hseen |].
    now rewrite elem_of_list_to_set.
  - intros Hall. apply size_empty_iff, elem_of_equiv_empty. intros key Hkey.
    apply elem_of_difference in Hkey as [Hseen Hunused].
    apply Hunused. rewrite elem_of_list_to_set. now apply Hall.
Qed.

(** ** The trie prefetcher: messages and aborts *)

(** X18.  Once [mainLoop] has served the abort of a subfetcher, the
    subfetcher and all its children are stopped, and aborting it again
    changes nothing.  A prefetch message for its trie that [mainLoop]
    receives afterwards is dropped: nothing is scheduled and the prefetcher
    is left as it was. *)
Theorem aborted_fetcher_ignores_prefetch
    (p : triePrefetcher.t) (pMsg : prefetchMsg) (fetcher : subfetcher.t) :
  let id := triePrefetcher.trieID p (msg_owner pMsg) (msg_root pMsg) in
  let aborted := triePrefetcher.mainLoop_abort fetcher in
  let p' := triePrefetcher.set_fetchers p (<[id := aborted]> (triePrefetcher.fetchers p)) in
  subfetcher.stop aborted = true /\
  Forall (fun child => subfetcher.stop child = true) (subfetcher.paraChildren aborted) /\
  triePrefetcher.mainLoop_abort aborted = aborted /\
  triePrefetcher.mainLoop_prefetch p' pMsg = p'.
Proof.
  intros id aborted p'. repeat apply conj.
  - reflexivity.
  - subst aborted. unfold triePrefetcher.mainLoop_abort. simpl_fetcher.
    apply Forall_fmap, Forall_true. reflexivity.
  - subst aborted. unfold triePrefetcher.mainLoop_abort, subfetcher.abort. simpl_fetcher.
    f_equal. rewrite <- list_fmap_compose. apply list_fmap_ext. reflexivity.
  - unfold triePrefetcher.mainLoop_prefetch.
    change (triePrefetcher.trieID p' (msg_owner pMsg) (msg_root pMsg)) with id.
    assert (Hlookup : triePrefetcher.fetchers p' !! id = Some aborted).
    { subst p'. cbn [triePrefetcher.set_fetchers triePrefetcher.fetchers].
      apply lookup_insert_eq. }
    rewrite Hlookup. reflexivity.
Qed.

(** X19.  A prefetch on an active prefetcher whose channel is empty,
    followed by [mainLoop] receiving the message: the keys, the addresses
    first and the slots after them, are queued behind the tasks of the
    subfetcher of the trie, a new one when the trie had none; its
    [pendingSize] grows by their number and it is woken up.  As long as
    [pendingSize] stays within [parallelTriePrefetchThreshold] no child is
    fed or spawned.  The channel is empty again and [prefetch] returns no
    error. *)
Theorem prefetch_below_threshold
    (p : triePrefetcher.t) (owner root' : common.Hash) (addr : common.Address)
    (addrs : list common.Address) (slots : list common.Hash) (read : bool) :
  let id := triePrefetcher.trieID p owner root' in
  let keys := (common.Address_Bytes <$> addrs) ++ (common.Hash_Bytes <$> slots) in
  let fetcher :=
    default (subfetcher.newSubfetcher (triePrefetcher.db p) (triePrefetcher.root p)
               owner root' addr)
            (triePrefetcher.fetchers p !! id) in
  let sent := triePrefetcher.prefetch p owner root' addr addrs slots read in
  let p' := triePrefetcher.mainLoop_receive sent.2 in
  triePrefetcher.fetches p = None ->
  triePrefetcher.closeMainChan p = false ->
  triePrefetcher.prefetchChan p = [] ->
  read && triePrefetcher.noreads p = false ->
  subfetcher.stop fetcher = false ->
  0 <= subfetcher.pendingSize fetcher ->
  subfetcher.pendingSize fetcher + Z.of_nat (length keys) <= parallelTriePrefetchThreshold ->
  sent.1 = None /\
  triePrefetcher.prefetchChan p' = [] /\
  exists fetcher',
    triePrefetcher.fetchers p' = <[id := fetcher']> (triePrefetcher.fetchers p) /\
    subfetcher.tasks fetcher' = subfetcher.tasks fetcher ++ keys /\
    subfetcher.pendingSize fetcher'
    = subfetcher.pendingSize fetcher + Z.of_nat (length keys) /\
    subfetcher.wake fetcher' = true /\
    subfetcher.paraChildren fetcher' = subfetcher.paraChildren fetcher /\
    subfetcher.seen fetcher' = subfetcher.seen fetcher.
Proof.
  intros id keys fetcher sent p' Hactive Hopen Hchan Hread Hstop Hpending Hbelow.
  unfold parallelTriePrefetchThreshold in Hbelow.
  assert (Hsent : sent = (None, triePrefetcher.set_prefetchChan p
                                  [mkPrefetchMsg owner root' addr keys])).
  { subst sent. unfold triePrefetcher.prefetch.
    rewrite Hread, Hactive, Hopen, Hchan. reflexivity. }
  subst p'. rewrite Hsent. cbn [fst snd]. split; [reflexivity |].
  unfold triePrefetcher.mainLoop_receive.
  cbn [triePrefetcher.set_prefetchChan triePrefetcher.prefetchChan].
  unfold triePrefetcher.mainLoop_prefetch.
  cbn [msg_owner msg_root msg_addr msg_keys].
  set (q := triePrefetcher.set_prefetchChan _ []).
  change (triePrefetcher.trieID q owner root') with id.
  change (triePrefetcher.fetchers q) with (triePrefetcher.fetchers p).
  change (triePrefetcher.db q) with (triePrefetcher.db p).
  change (triePrefetcher.root q) with (triePrefetcher.root p).
  assert (Hq : triePrefetcher.prefetchChan q = []) by reflexivity.
  assert (Hqf : triePrefetcher.fetchers q = triePrefetcher.fetchers p) by reflexivity.
  clearbody q.
  assert (Hsize : subfetcher.pendingSize (subfetcher.schedule fetcher keys)
                  = subfetcher.pendingSize fetcher + Z.of_nat (length keys)).
  { unfold subfetcher.schedule. simpl_fetcher.
    rewrite !u32_small by (rewrite ?u32_small; lia). reflexivity. }
  assert (Hfacts :
    subfetcher.tasks (subfetcher.schedule fetcher keys) = subfetcher.tasks fetcher ++ keys /\
    subfetcher.pendingSize (subfetcher.schedule fetcher keys)
    = subfetcher.pendingSize fetcher + Z.of_nat (length keys) /\
    subfetcher.wake (subfetcher.schedule fetcher keys) = true /\
    subfetcher.paraChildren (subfetcher.schedule fetcher keys)
    = subfetcher.paraChildren fetcher /\
    subfetcher.seen (subfetcher.schedule fetcher keys) = subfetcher.seen fetcher).
  { repeat apply conj; try reflexivity. exact Hsize. }
  assert (Hunder : (parallelTriePrefetchThreshold
                    <? subfetcher.pendingSize (subfetcher.schedule fetcher keys)) = false).
  { apply Z.ltb_ge. unfold parallelTriePrefetchThreshold. lia. }
  subst fetcher.
  destruct (triePrefetcher.fetchers p !! id) as [existing |] eqn:Hfetcher;
    cbn [default from_option Datatypes.id] in *;
    rewrite Hstop, Hunder;
    cbn [triePrefetcher.set_fetchers triePrefetcher.fetchers triePrefetcher.prefetchChan];
    (split; [exact Hq |]); eexists; (split; [| exact Hfacts]).
  - now rewrite Hqf.
  - rewrite ?Hqf. apply insert_insert_eq.
Qed.

(** The first prefetch of the examples, for address [1] of the account
    trie. *)
Lemma prefetch_below_threshold_witness :
  exists fetcher',
    triePrefetcher.fetchers
      (triePrefetcher.mainLoop_receive
         (triePrefetcher.prefetch examplePrefetcher 0%N 100%N 0%N [1%N] [] false).2)
    = <[exampleTrieID := fetcher']> (triePrefetcher.fetchers examplePrefetcher) /\
    subfetcher.tasks fetcher' = [common.Address_Bytes 1%N] /\
    subfetcher.pendingSize fetcher' = 1.
Proof.
  destruct (prefetch_below_threshold examplePrefetcher 0%N 100%N 0%N [1%N] [] false
              eq_refl eq_refl eq_refl eq_refl eq_refl)
    as (_ & _ & fetcher' & Hfetchers & Htasks & Hsize & _).
  - apply Z.leb_le. vm_compute. reflexivity.
  - apply Z.leb_le. vm_compute. reflexivity.
  - exists fetcher'. repeat apply conj; [exact Hfetchers | exact Htasks | exact Hsize].
Defined.

(** ** The trie prefetcher: the loop of a subfetcher *)

Lemma prefetchTask_open (sf : subfetcher.t) (tr : Trie) (task : bytes) :
  subfetcher.trie sf = Some tr ->
  exists sf',
    subfetcher.prefetchTask sf task = Returns sf' /\
    is_Some (subfetcher.trie sf') /\
    subfetcher.tasks sf' = subfetcher.tasks sf /\
    subfetcher.seen sf' = subfetcher.seen sf ∪ {[ task ]} /\
    subfetcher.pendingSize sf' = u32 (subfetcher.pendingSize sf - 1).
Proof.
  intros Htrie. unfold subfetcher.prefetchTask.
  destruct (decide (task ∈ subfetcher.seen sf)) as [Hseen | Hnew].
  - eexists. split; [reflexivity |]. simpl_fetcher. rewrite Htrie.
    repeat apply conj; [eauto | reflexivity | | apply u32_decrease].
    apply set_eq. intros key. rewrite elem_of_union, elem_of_singleton.
    split; [auto | intros [H | ->]; assumption].
  - rewrite Htrie. eexists. split; [reflexivity |]. simpl_fetcher.
    repeat apply conj; [eauto | reflexivity | apply (comm_L (∪)) | apply u32_decrease].
Qed.

Lemma prefetchTasks_open (tasks' : list bytes) :
  forall (sf : subfetcher.t) (tr : Trie) (arms : list arm),
    subfetcher.trie sf = Some tr ->
    exists sf' returned,
      subfetcher.prefetchTasks sf arms tasks' = Returns (sf', returned) /\
      is_Some (subfetcher.trie sf').
Proof.
  induction tasks' as [| task rest IH]; intros sf tr arms Htrie;
    cbn [subfetcher.prefetchTasks].
  - eexists _, _. split; [reflexivity |]. rewrite Htrie. eauto.
  - destruct (hd armDefault arms).
    + eexists _, _. split; [reflexivity |]. simpl_fetcher. rewrite Htrie. eauto.
    + now apply (IH sf tr).
    + destruct (prefetchTask_open sf tr task Htrie) as (sf1 & -> & [tr1 Htrie1] & _).
      now apply (IH sf1 tr1).
Qed.

(** The tasks drained with no copy request served: a prefix is loaded, the
    rest is put back when the loop is stopped. *)
Lemma prefetchTasks_prefix (tasks' : list bytes) :
  forall (sf : subfetcher.t) (tr : Trie) (arms : list arm),
    subfetcher.trie sf = Some tr ->
    0 <= subfetcher.pendingSize sf < 2 ^ 32 ->
    armCopy ∉ arms ->
    exists (k : nat) sf' returned,
      subfetcher.prefetchTasks sf arms tasks' = Returns (sf', returned) /\
      (k <= length tasks')%nat /\
      subfetcher.tasks sf'
      = subfetcher.tasks sf ++ (if returned then drop k tasks' else []) /\
      subfetcher.seen sf' = subfetcher.seen sf ∪ list_to_set (take k tasks') /\
      subfetcher.pendingSize sf' = u32 (subfetcher.pendingSize sf - Z.of_nat k) /\
      (returned = false -> k = length tasks') /\
      (returned = true -> (k < length tasks')%nat /\ armStop ∈ arms).
Proof.
  induction tasks' as [| task rest IH]; intros sf tr arms Htrie Hrange Hcopy;
    cbn [subfetcher.prefetchTasks].
  - exists 0%nat, sf, false. repeat apply conj; try reflexivity; try discriminate.
    + now rewrite app_nil_r.
    + cbn. now rewrite (right_id_L ∅ (∪)).
    + cbn. rewrite Z.sub_0_r. symmetry. now apply u32_small.
  - destruct arms as [| [| |] arms']; cbn [hd tl].
    + destruct (prefetchTask_open sf tr task Htrie)
        as (sf1 & -> & [tr1 Htrie1] & Htasks1 & Hseen1 & Hsize1).
      destruct (IH sf1 tr1 [] Htrie1) as (k & sf' & returned & -> & Hk & Htasks & Hseen & Hsize & Hall & Hstop).
      { rewrite Hsize1. unfold u32. apply Z.mod_pos_bound. lia. }
      { apply not_elem_of_nil. }
      exists (S k), sf', returned. repeat apply conj.
      * reflexivity.
      * cbn [length]. lia.
      * rewrite Htasks, Htasks1. reflexivity.
      * rewrite Hseen, Hseen1. cbn [take list_to_set foldr].
        now rewrite (assoc_L (∪)).
      * rewrite Hsize, Hsize1. unfold u32. rewrite Zminus_mod_idemp_l. f_equal. lia.
      * intros Hr. cbn [length]. now rewrite (Hall Hr).
      * intros Hr. destruct (Hstop Hr) as [_ Hin]. now apply elem_of_nil in Hin.
    + exists 0%nat, (subfetcher.set_tasks sf (subfetcher.tasks sf ++ task :: rest)), true.
      repeat apply conj; try reflexivity; try discriminate.
      * cbn [length]. lia.
      * cbn. now rewrite (right_id_L ∅ (∪)).
      * simpl_fetcher. cbn. rewrite Z.sub_0_r. symmetry. now apply u32_small.
      * intros _. split; [cbn [length]; lia | apply elem_of_cons; now left].
    + exfalso. apply Hcopy. apply elem_of_cons. now left.
    + destruct (prefetchTask_open sf tr task Htrie)
        as (sf1 & -> & [tr1 Htrie1] & Htasks1 & Hseen1 & Hsize1).
      destruct (IH sf1 tr1 arms' Htrie1) as (k & sf' & returned & -> & Hk & Htasks & Hseen & Hsize & Hall & Hstop).
      { rewrite Hsize1. unfold u32. apply Z.mod_pos_bound. lia. }
      { intros Hin. apply Hcopy. apply elem_of_cons. now right. }
      exists (S k), sf', returned. repeat apply conj.
      * reflexivity.
      * cbn [length]. lia.
      * rewrite Htasks, Htasks1. reflexivity.
      * rewrite Hseen, Hseen1. cbn [take list_to_set foldr].
        now rewrite (assoc_L (∪)).
      * rewrite Hsize, Hsize1. unfold u32. rewrite Zminus_mod_idemp_l. f_equal. lia.
      * intros Hr. cbn [length]. now rewrite (Hall Hr).
      * intros Hr. destruct (Hstop Hr) as [Hlt Hin].
        split; [cbn [length]; lia | apply elem_of_cons; now right].
Qed.



(** X21.  A copy request served while the queue is drained costs a key: the
    task at hand is neither loaded nor put back, so that the wake-up goes on
    as if that key had never been queued, while [pendingSize] still counts
    it.  With a single key queued, the subfetcher ends up with an empty
    queue, the key not seen, no call made on the trie, and [pendingSize]
    unchanged. *)
Theorem copy_request_skips_a_task
    (sf : subfetcher.t) (tr : Trie) (task : bytes) (rest : list bytes) (arms : list arm) :
  subfetcher.trie sf = Some tr ->
  subfetcher.tasks sf = task :: rest ->
  subfetcher.wakeArm sf (armCopy :: arms)
  = subfetcher.wakeArm (subfetcher.set_tasks sf rest) arms /\
  (rest = [] ->
   exists sf',
     subfetcher.wakeArm sf (armCopy :: arms) = Returns (sf', false) /\
     subfetcher.tasks sf' = [] /\
     subfetcher.seen sf' = subfetcher.seen sf /\
     subfetcher.trie sf' = Some tr /\
     subfetcher.pendingSize sf' = subfetcher.pendingSize sf).
Proof.
  intros Htrie Htasks.
  assert (Hskip : subfetcher.wakeArm sf (armCopy :: arms)
                  = subfetcher.wakeArm (subfetcher.set_tasks sf rest) arms).
  { unfold subfetcher.wakeArm. simpl_fetcher. rewrite Htrie. simpl_fetcher.
    rewrite Htasks. reflexivity. }
  split; [exact Hskip |].
  intros ->. rewrite Hskip. unfold subfetcher.wakeArm. simpl_fetcher. rewrite Htrie.
  eexists. split; [reflexivity |]. simpl_fetcher. now rewrite Htrie.
Qed.

(** The three keys of the example: the first one is skipped. *)
Lemma copy_request_skips_a_task_witness :
  subfetcher.wakeArm queuedFetcher [armCopy]
  = subfetcher.wakeArm
      (subfetcher.set_tasks queuedFetcher
                            [common.Address_Bytes 2%N; common.Address_Bytes 3%N]) [].
Proof.
  exact (proj1 (copy_request_skips_a_task queuedFetcher [] (common.Address_Bytes 1%N)
                  [common.Address_Bytes 2%N; common.Address_Bytes 3%N] []
                  eq_refl eq_refl)).
Defined.

Lemma wakeArm_open (sf : subfetcher.t) (tr : Trie) (arms : list arm) :
  subfetcher.trie sf = Some tr ->
  exists sf' returned,
    subfetcher.wakeArm sf arms = Returns (sf', returned) /\
    is_Some (subfetcher.trie sf').
Proof.
  intros Htrie. unfold subfetcher.wakeArm. simpl_fetcher. rewrite Htrie.
  now apply (prefetchTasks_open _ _ tr).
Qed.

Lemma selectLoop_open (events : list event) :
  forall (sf : subfetcher.t) (tr : Trie),
    subfetcher.trie sf = Some tr ->
    exists sf', subfetcher.selectLoop sf events = Returns sf' /\
                is_Some (subfetcher.trie sf').
Proof.
  induction events as [| ev events IH]; intros sf tr Htrie; cbn [subfetcher.selectLoop].
  - eexists. split; [reflexivity |]. rewrite Htrie. eauto.
  - destruct ev as [arms | |].
    + destruct (wakeArm_open sf tr arms Htrie) as (sf1 & returned & -> & [tr1 Htrie1]).
      destruct returned.
      * eexists. split; [reflexivity |]. simpl_fetcher. rewrite Htrie1. eauto.
      * now apply (IH sf1 tr1).
    + now apply (IH sf tr).
    + eexists. split; [reflexivity |]. simpl_fetcher. rewrite Htrie. eauto.
Qed.

(** X22.  The loop of a subfetcher never panics, whatever the events and
    the arms taken: once [openTrie] has succeeded the trie is never nil, so
    that no task is loaded through a nil trie.  When [openTrie] fails the loop
    returns at once: the subfetcher is terminated, its queue, its trie and
    everything else being as before; what was scheduled on it is never
    loaded. *)
Theorem loop_never_panics (sf : subfetcher.t) (events : list event) :
  exists sf',
    subfetcher.loop sf events = Returns sf' /\
    ((subfetcher.openTrie sf).1 <> None -> sf' = subfetcher.set_term sf true) /\
    ((subfetcher.openTrie sf).1 = None -> is_Some (subfetcher.trie sf')).
Proof.
  unfold subfetcher.loop.
  assert (Hopen : forall err sf1,
    subfetcher.openTrie sf = (err, sf1) ->
    match err with
    | Some _ => sf1 = sf
    | None => subfetcher.trie sf1 = Some []
    end).
  { intros err sf1. unfold subfetcher.openTrie.
    destruct (IsVerkle _); [| destruct (decide _)];
      (destruct (OpenTrie _ _) || destruct (OpenStorageTrie _ _ _ _));
      intros [= <- <-]; reflexivity. }
  destruct (subfetcher.openTrie sf) as [[err |] sf1] eqn:Hopened;
    specialize (Hopen _ _ eq_refl); cbv beta iota in Hopen; cbn [fst].
  - subst sf1. eexists. split; [reflexivity |]. split; [reflexivity | discriminate].
  - destruct (selectLoop_open events sf1 [] Hopen) as (sf' & Hrun & Htrie).
    exists sf'. split; [exact Hrun |]. split; [congruence | intros _; exact Htrie].
Qed.

(** X23.  The first parallel batch of a subfetcher, which has no children
    yet: [scheduleParallel] spawns exactly
    [⌈len(keys) / parallelTriePrefetchCapacity⌉] children, and the queues of
    the children, one after the other, are the keys in their order: each
    child but the last one gets [parallelTriePrefetchCapacity] keys.
    Nothing else of the subfetcher changes. *)
Theorem first_parallel_batch (sf : subfetcher.t) (keys : list bytes) :
  subfetcher.paraChildren sf = [] ->
  exists spawned : list subfetcher.t,
    subfetcher.scheduleParallel sf keys = subfetcher.set_paraChildren sf spawned /\
    Z.of_nat (length spawned)
    = ceilDiv (Z.of_nat (length keys)) parallelTriePrefetchCapacity /\
    queued spawned = keys /\
    Forall (spawnedBy sf) spawned.
Proof.
  intros Hnone. unfold subfetcher.scheduleParallel. rewrite Hnone.
  cbn [length Nat.ltb Nat.leb]. change (Z.to_nat 0) with 0%nat.
  unfold sliceFrom. rewrite drop_0.
  destruct (spawnChildren_spec sf keys (length keys) 0 [])
    as (spawned & Hrun & Hlow & Hhigh & Hfresh & Hqueue); [lia | lia |].
  rewrite Hrun. cbn [app]. exists spawned. repeat apply conj.
  - reflexivity.
  - unfold ceilDiv, parallelTriePrefetchCapacity.
    apply (Z.div_unique_pos _ _ _ (Z.of_nat (length keys) + 19
                                   - 20 * Z.of_nat (length spawned))); lia.
  - rewrite Hqueue. apply drop_0.
  - exact Hfresh.
Qed.

(** The 45 keys of the examples on a new subfetcher: three children. *)
Lemma first_parallel_batch_witness :
  exists spawned : list subfetcher.t,
    subfetcher.scheduleParallel
      (subfetcher.newSubfetcher exampleStateDatabase 100%N 3%N 200%N 33%N) manyKeys
    = subfetcher.set_paraChildren
        (subfetcher.newSubfetcher exampleStateDatabase 100%N 3%N 200%N 33%N) spawned /\
    Z.of_nat (length spawned) = 3 /\
    queued spawned = manyKeys.
Proof.
  destruct (first_parallel_batch
              (subfetcher.newSubfetcher exampleStateDatabase 100%N 3%N 200%N 33%N)
              manyKeys eq_refl)
    as (spawned & Hrun & Hcount & Hqueue & _).
  exists spawned. repeat apply conj; [exact Hrun | exact Hcount | exact Hqueue].
Defined.

(** ** The pruned freezer *)

(** X24.  The pruned freezer accepts an append exactly when its number is
    the number of the next block to freeze; it then moves on to the next
    number, so that the same number cannot be appended again, and keeps
    nothing of the payload: the appended number reads back as no data and
    no error.  Any other number is rejected with [errOutOrderInsertion] and
    leaves the freezer as it was.  (The watermark is a [uint64], taken
    below its maximum.) *)
Theorem pruned_append_in_order
    (f : prunedfreezer.t) (number : Z) (hash header body receipts td : bytes) :
  0 <= prunedfreezer.frozen f < 2 ^ 64 - 1 ->
  let r := prunedfreezer.AppendAncient f number hash header body receipts td in
  (r.1 = None <-> number = prunedfreezer.frozen f) /\
  (number = prunedfreezer.frozen f ->
   prunedfreezer.Tail r.2 = (number + 1, None) /\
   prunedfreezer.Ancients r.2 = (number + 1, None) /\
   prunedfreezer.db r.2 = prunedfreezer.db f /\
   prunedfreezer.Ancient r.2 true number = ([], None) /\
   (prunedfreezer.AppendAncient r.2 number hash header body receipts td).1
   = Some prunedfreezer.errOutOrderInsertion /\
   (prunedfreezer.AppendAncient r.2 (number + 1) hash header body receipts td).1 = None) /\
  (number <> prunedfreezer.frozen f ->
   r = (Some prunedfreezer.errOutOrderInsertion, f)).
Proof.
  intros Hrange r. subst r. unfold prunedfreezer.AppendAncient.
  destruct (prunedfreezer.frozen f =? number) eqn:Hnext; cbn [negb fst snd].
  - apply Z.eqb_eq in Hnext. subst number.
    assert (Hinc : u64 (prunedfreezer.frozen f + 1) = prunedfreezer.frozen f + 1).
    { unfold u64. apply Z.mod_small. lia. }
    repeat apply conj; try (intros; reflexivity); try congruence.
    intros _. unfold prunedfreezer.Tail, prunedfreezer.Ancients, prunedfreezer.Ancient.
    cbn [prunedfreezer.frozen prunedfreezer.db]. rewrite Hinc.
    assert ((prunedfreezer.frozen f + 1 <=? prunedfreezer.frozen f) = false) as ->
      by (apply Z.leb_gt; lia).
    assert ((prunedfreezer.frozen f + 1 =? prunedfreezer.frozen f) = false) as ->
      by (apply Z.eqb_neq; lia).
    rewrite Z.eqb_refl. repeat apply conj; reflexivity.
  - apply Z.eqb_neq in Hnext. repeat apply conj; congruence.
Qed.

(** Block 5 on the freezer whose next block is 5. *)
Lemma pruned_append_in_order_witness :
  (prunedfreezer.AppendAncient exampleFreezer 5 [] [] [Byte.x01] [] []).1 = None /\
  prunedfreezer.Tail
    (prunedfreezer.AppendAncient exampleFreezer 5 [] [] [Byte.x01] [] []).2 = (6, None) /\
  prunedfreezer.AppendAncient exampleFreezer 7 [] [] [Byte.x01] [] []
  = (Some prunedfreezer.errOutOrderInsertion, exampleFreezer).
Proof.
  assert (Hrange : 0 <= prunedfreezer.frozen exampleFreezer < 2 ^ 64 - 1) by (cbn; lia).
  destruct (pruned_append_in_order exampleFreezer 5 [] [] [Byte.x01] [] [] Hrange)
    as (Hok & Hnext & _).
  destruct (pruned_append_in_order exampleFreezer 7 [] [] [Byte.x01] [] [] Hrange)
    as (_ & _ & Hrejected).
  repeat apply conj.
  - now apply Hok.
  - now apply Hnext.
  - apply Hrejected. discriminate.
Defined.

(** X25.  [TruncateHead] never fails and returns the previous head.  The
    watermark becomes the smaller of the previous one and [items]: it is
    never raised.  When it is lowered the new value is written to the meta
    database at once; otherwise nothing changes.  Truncating again to the
    same number changes nothing, and the freezer then accepts the append of
    exactly the number it was truncated to.  [TruncateTail] is not
    supported. *)
Theorem pruned_truncate_head (f : prunedfreezer.t) (items : Z) :
  let r := prunedfreezer.TruncateHead f items in
  r.1 = (prunedfreezer.frozen f, None) /\
  prunedfreezer.frozen r.2 = Z.min (prunedfreezer.frozen f) items /\
  (items < prunedfreezer.frozen f ->
   prunedfreezer.frozenOfAncientFreezer (prunedfreezer.db r.2) = Some items) /\
  (prunedfreezer.frozen f <= items -> r.2 = f) /\
  (prunedfreezer.TruncateHead r.2 items).2 = r.2 /\
  (forall number hash header body receipts td,
      (prunedfreezer.AppendAncient r.2 number hash header body receipts td).1 = None
      <-> number = Z.min (prunedfreezer.frozen f) items) /\
  (forall tail, prunedfreezer.TruncateTail r.2 tail
                = (0, Some prunedfreezer.errNotSupported)).
Proof.
  cbn zeta. unfold prunedfreezer.TruncateHead.
  destruct (items <? prunedfreezer.frozen f) eqn:Hlower; cbn [fst snd prunedfreezer.frozen].
  - apply Z.ltb_lt in Hlower. rewrite Z.min_r by lia. rewrite Z.ltb_irrefl.
    repeat apply conj; try reflexivity; try lia.
    intros number hash header body receipts td. unfold prunedfreezer.AppendAncient.
    cbn [prunedfreezer.frozen].
    destruct (items =? number) eqn:Hnext; cbn [negb fst].
    + apply Z.eqb_eq in Hnext. split; congruence.
    + apply Z.eqb_neq in Hnext. split; [discriminate | congruence].
  - apply Z.ltb_ge in Hlower. rewrite Z.min_l by lia.
    assert ((items <? prunedfreezer.frozen f) = false) as -> by (apply Z.ltb_ge; lia).
    repeat apply conj; try reflexivity; try lia.
    intros number hash header body receipts td. unfold prunedfreezer.AppendAncient.
    destruct (prunedfreezer.frozen f =? number) eqn:Hnext; cbn [negb fst].
    + apply Z.eqb_eq in Hnext. split; congruence.
    + apply Z.eqb_neq in Hnext. split; [discriminate | congruence].
Qed.
